(** * tinydb storage core: pages, pager, table B-tree, DbFile and WAL

    A shallow embedding of the Go sources
      internal/pager/mem_page.go, internal/pager/btree.go, the pager,
      the DbFile and the WAL of the storage package,
    together with the properties of the storage-core specification.

    Conventions of the embedding.
    - Go's [int] is [Z]; every conversion to a fixed width ([uint16],
      [uint32], [byte]) is written out as a reduction modulo the width.
    - A byte is a [Z] (meant in [0, 256)); a [[]byte] is a [list byte].
      Page buffers come from [make([]byte, n)] or from a file read, so their
      capacity is their length.
    - A run-time panic (slice or index out of range) is [None] at the level
      of one page and [Panic] at the level of the stateful components.
    - Errors of the operating system (a failing seek, write or sync on a
      healthy descriptor) are not part of the model: the file operations
      fail only where the arguments make them fail (a negative seek offset,
      a read at end of file). *)

From stdpp Require Import gmap list.
From Stdlib Require Import ZArith Lia.

Open Scope Z_scope.

(** ** Bytes and big-endian integers *)

Definition byte := Z.

Definition uint8 (x : Z) : Z := x mod 256.
Definition uint16 (x : Z) : Z := x mod 65536.
Definition uint32 (x : Z) : Z := x mod 4294967296.
Definition uint64 (x : Z) : Z := x mod 18446744073709551616.

(** [binary.BigEndian.PutUint16/32/64] write these bytes. *)
Definition be16 (v : Z) : list byte :=
  [uint8 (v / 256); uint8 v].
Definition be32 (v : Z) : list byte :=
  [uint8 (v / 16777216); uint8 (v / 65536); uint8 (v / 256); uint8 v].
Definition be64 (v : Z) : list byte :=
  be32 (v / 4294967296) ++ be32 v.

(** [binary.BigEndian.Uint16/32] read them back. *)
Definition from_be (bs : list byte) : Z :=
  foldl (fun acc b => acc * 256 + b) 0 bs.

(** Go's [len]. *)
Abbreviation len l := (Z.of_nat (length l)) (only parsing).

Definition zeros (n : Z) : list byte := replicate (Z.to_nat n) 0.

(** [l[off:off+len] = bs] for a slice expression that must be in range:
    the model of the [Put*] calls and of indexed byte stores. *)
Definition store (l : list byte) (off : Z) (bs : list byte) : option (list byte) :=
  if decide (0 ≤ off ∧ off + len bs ≤ len l)
  then Some (list_inserts (Z.to_nat off) bs l)
  else None.

(** [l[off:off+n]], panicking out of range. *)
Definition load (l : list byte) (off n : Z) : option (list byte) :=
  if decide (0 ≤ off ∧ 0 ≤ n ∧ off + n ≤ len l)
  then Some (take (Z.to_nat n) (drop (Z.to_nat off) l))
  else None.

(** [l[off:]], panicking out of range. *)
Definition slice_from (l : list byte) (off : Z) : option (list byte) :=
  if decide (0 ≤ off ∧ off ≤ len l)
  then Some (drop (Z.to_nat off) l)
  else None.

(** [copy(dst[off:], src)]: copies [min (len dst - off) (len src)] bytes;
    only the slice expression can panic. *)
Definition copy_at (dst : list byte) (off : Z) (src : list byte) : option (list byte) :=
  if decide (0 ≤ off ∧ off ≤ len dst)
  then Some (list_inserts (Z.to_nat off) src dst)
  else None.

Definition PutUint8 (l : list byte) (off v : Z) := store l off [uint8 v].
Definition PutUint16 (l : list byte) (off v : Z) := store l off (be16 v).
Definition PutUint32 (l : list byte) (off v : Z) := store l off (be32 v).
Definition PutUint64 (l : list byte) (off v : Z) := store l off (be64 v).
Definition GetUint16 (l : list byte) (off : Z) : option Z := from_be <$> load l off 2.
Definition GetUint32 (l : list byte) (off : Z) : option Z := from_be <$> load l off 4.

(** ** Errors, panics and state *)

(** The error values the core returns. *)
Inductive error :=
  | ErrGapInPages            (* "cannot grow the db file with a gap in pages" *)
  | ErrSeek                  (* os: seek to a negative offset *)
  | ErrEOF                   (* io.EOF *)
  | ErrOutOfBounds           (* "page [%d] out of bounds" *)
  | ErrInteriorSplit         (* "not yet supporting adding another internal node" *)
  | ErrUnsupportedPageType   (* "unsupported page type" *)
  | ErrCodec                 (* an error of the record codec *)
  | ErrChecksumShape.        (* "checkSum only works with odd multiples of 8 bytes" *)

(** A Go method on a pointer receiver: it returns a value or an error, and
    in both cases leaves the receiver in some state; or it panics. *)
Inductive result (S A : Type) : Type :=
  | Ok (a : A) (s : S)
  | Err (e : error) (s : S)
  | Panic.
Arguments Ok {S A} a s.
Arguments Err {S A} e s.
Arguments Panic {S A}.

Definition M (S A : Type) : Type := S → result S A.

Definition ret {S A} (a : A) : M S A := fun s => Ok a s.
Definition bind {S A B} (m : M S A) (k : A → M S B) : M S B :=
  fun s => match m s with
           | Ok a s' => k a s'
           | Err e s' => Err e s'
           | Panic => Panic
           end.
Definition throw {S A} (e : error) : M S A := fun s => Err e s.
Definition panic {S A} : M S A := fun _ => Panic.
Definition get {S} : M S S := fun s => Ok s s.
Definition gets {S A} (f : S → A) : M S A := fun s => Ok (f s) s.
Definition modify {S} (f : S → S) : M S unit := fun s => Ok tt (f s).
(** A value that exists only when no panic occurred. *)
Definition must {S A} (o : option A) : M S A :=
  match o with Some a => ret a | None => panic end.
(** Run a method of a component stored in a field of the receiver. *)
Definition zoom {S T A} (proj : S → T) (upd : T → S → S) (m : M T A) : M S A :=
  fun s => match m (proj s) with
           | Ok a t => Ok a (upd t s)
           | Err e t => Err e (upd t s)
           | Panic => Panic
           end.

Declare Scope go_scope.
Delimit Scope go_scope with go.
Notation "x <- m ;; k" := (bind m (fun x => k))
  (at level 100, m at next level, right associativity) : go_scope.
Notation "m ;;; k" := (bind m (fun _ => k))
  (at level 100, right associativity) : go_scope.

(** [for _, x := range xs { body x }], stopping at the first error. *)
Fixpoint for_each {S A} (body : A → M S unit) (xs : list A) : M S unit :=
  match xs with
  | [] => ret tt
  | x :: xs' => (body x ;;; for_each body xs')%go
  end.

(** ** package storage *)

Module Storage.

(** [storage.Page]. *)
Record Page := mkPage { PageNumber : Z; Data : list byte }.

(** *** The operating-system file

    A regular file opened read-write: its bytes, the offset of the
    descriptor, and the number of [Sync] calls it has seen. *)
Module OsFile.

Record t := mk { bytes : list byte; offset : Z; syncs : nat }.

Definition empty : t := {| bytes := []; offset := 0; syncs := 0 |}.

(** Bytes of the file after writing [bs] at offset [off]: the file grows
    (zero-filled) when the write ends past its end. *)
Definition pwrite (content : list byte) (off : Z) (bs : list byte) : list byte :=
  match bs with
  | [] => content
  | _ => list_inserts (Z.to_nat off) bs
           (resize (Nat.max (length content) (Z.to_nat off + length bs)) 0 content)
  end.

(** [f.Seek(off, io.SeekStart)]. *)
Definition Seek (off : Z) : M t unit :=
  fun f => if decide (0 ≤ off)
           then Ok tt {| bytes := bytes f; offset := off; syncs := syncs f |}
           else Err ErrSeek f.

(** [f.Write(bs)], also the effect of [io.Copy(f, bytes.NewReader(bs))]. *)
Definition Write (bs : list byte) : M t unit :=
  fun f => Ok tt {| bytes := pwrite (bytes f) (offset f) bs;
                    offset := offset f + len bs;
                    syncs := syncs f |}.

(** [f.Read(buf)] with [len buf = n]: the bytes read; [io.EOF] when a
    non-empty buffer gets nothing. *)
Definition Read (n : Z) : M t (list byte) :=
  fun f =>
    let got := take (Z.to_nat n) (drop (Z.to_nat (offset f)) (bytes f)) in
    if decide (0 < n ∧ got = [])
    then Err ErrEOF f
    else Ok got {| bytes := bytes f; offset := offset f + len got; syncs := syncs f |}.

(** [f.ReadAt(buf, off)] with [len buf = n]: all [n] bytes or an error. *)
Definition ReadAt (n off : Z) : M t (list byte) :=
  fun f =>
    let got := take (Z.to_nat n) (drop (Z.to_nat off) (bytes f)) in
    if decide (off < 0) then Err ErrSeek f
    else if decide (len got < n) then Err ErrEOF f
    else Ok got f.

Definition Sync : M t unit :=
  fun f => Ok tt {| bytes := bytes f; offset := offset f; syncs := S (syncs f) |}.

End OsFile.

(** *** The database header

    Modelled from the spec: the type [FileHeader], [ParseFileHeader] and
    [FileHeader.WriteTo] are not among the sources. The spec gives a
    100-byte header holding a 2-byte page size, a 4-byte file change
    counter and a 4-byte size in pages, every other byte being kept as it
    was read; the three fields sit at their SQLite offsets 16, 24 and 28. *)
Module FileHeader.

Record t := mk {
  PageSize : Z;            (* uint16 *)
  FileChangeCounter : Z;   (* uint32 *)
  SizeInPages : Z;         (* uint32 *)
  raw : list byte          (* the header as it was read *)
}.

Definition zero : t :=
  {| PageSize := 0; FileChangeCounter := 0; SizeInPages := 0; raw := [] |}.

Definition HeaderLen : Z := 100.

Definition to_bytes (h : t) : list byte :=
  list_inserts 28 (be32 (SizeInPages h))
    (list_inserts 24 (be32 (FileChangeCounter h))
       (list_inserts 16 (be16 (PageSize h))
          (resize 100 0 (raw h)))).

Definition ParseFileHeader (bs : list byte) : t :=
  {| PageSize := from_be (take 2 (drop 16 bs));
     FileChangeCounter := from_be (take 4 (drop 24 bs));
     SizeInPages := from_be (take 4 (drop 28 bs));
     raw := bs |}.

(** [h.WriteTo(file)]. *)
Definition WriteTo (h : t) : M OsFile.t unit := OsFile.Write (to_bytes h).

End FileHeader.

(** *** DbFile *)
Module DbFile.

Record t := mk {
  header : FileHeader.t;
  file : OsFile.t;
  pageSize : Z;
  totalPages : Z
}.

Definition set_file (f : OsFile.t) (d : t) : t :=
  {| header := header d; file := f; pageSize := pageSize d; totalPages := totalPages d |}.
Definition set_header (h : FileHeader.t) (d : t) : t :=
  {| header := h; file := file d; pageSize := pageSize d; totalPages := totalPages d |}.
Definition set_totalPages (n : Z) (d : t) : t :=
  {| header := header d; file := file d; pageSize := pageSize d; totalPages := n |}.

(** A method of the underlying [*os.File]. *)
Definition on_file {A} (m : M OsFile.t A) : M t A := zoom file set_file m.

(** [OpenDbFile(path, pageSize)] on the file found at [path] ([OsFile.empty]
    when it had to be created). *)
Definition OpenDbFile (f : OsFile.t) (pageSize : Z) : result OsFile.t t :=
  if decide (0 < len (OsFile.bytes f)) then
    match OsFile.ReadAt 100 0 f with
    | Ok headerBytes f' =>
        let header := FileHeader.ParseFileHeader headerBytes in
        Ok {| pageSize := FileHeader.PageSize header;
              header := header;
              file := f';
              totalPages := FileHeader.SizeInPages header |} f'
    | Err e f' => Err e f'
    | Panic => Panic
    end
  else
    Ok {| pageSize := pageSize;
          header := FileHeader.zero;
          file := f;
          totalPages := FileHeader.SizeInPages FileHeader.zero |} f.

Definition PageSize (d : t) : Z := pageSize d.
Definition TotalPages (d : t) : Z := totalPages d.

Definition pageOffset (d : t) (page : Z) : Z :=
  if decide (page = 1) then 100 else (page - 1) * pageSize d.

Definition Read (page : Z) : M t (list byte) :=
  (d <- get ;;
   let offset := pageOffset d page in
   on_file (OsFile.Seek offset) ;;;
   let readOffset := if decide (page = 1) then 100 else 0 in
   (* data := make([]byte, f.pageSize) *)
   (if decide (pageSize d < 0) then panic else ret tt) ;;;
   let data := zeros (pageSize d) in
   (* f.file.Read(data[readOffset:]) *)
   (if decide (readOffset ≤ len data) then ret tt else panic) ;;;
   got <- on_file (OsFile.Read (len data - readOffset)) ;;
   ret (list_inserts (Z.to_nat readOffset) got data))%go.

Definition updateFileHeader : M t unit :=
  (d <- get ;;
   let h := header d in
   let h := {| FileHeader.FileChangeCounter := uint32 (FileHeader.FileChangeCounter h + 1);
               FileHeader.SizeInPages := uint32 (totalPages d);
               FileHeader.PageSize := uint16 (pageSize d);
               FileHeader.raw := FileHeader.raw h |} in
   modify (set_header h) ;;;
   on_file (OsFile.Seek 0) ;;;
   on_file (FileHeader.WriteTo h))%go.

(** The body of the loop of [Write] for one page. *)
Definition writePage (page : Page) : M t unit :=
  (d <- get ;;
   (if decide (PageNumber page > totalPages d + 1) then throw ErrGapInPages else ret tt) ;;;
   (if decide (PageNumber page > totalPages d)
    then modify (set_totalPages (PageNumber page)) else ret tt) ;;;
   d <- get ;;
   let pageOffset := pageOffset d (PageNumber page) in
   on_file (OsFile.Seek pageOffset) ;;;
   let readOffset := if decide (PageNumber page = 1) then 100 else 0 in
   body <- must (slice_from (Data page) readOffset) ;;
   on_file (OsFile.Write body))%go.

Definition Write (pages : list Page) : M t unit :=
  (for_each writePage pages ;;;
   updateFileHeader ;;;
   on_file OsFile.Sync)%go.

End DbFile.

(** *** hash/crc64 with the ISO polynomial, as [writeHeader] uses it *)
Module Crc64.

Definition ISO : Z := 0xD800000000000000.

Definition step (poly crc : Z) : Z :=
  if Z.testbit crc 0 then Z.lxor (Z.shiftr crc 1) poly else Z.shiftr crc 1.

(** Entry [i] of the table of [MakeTable(poly)]. *)
Definition entry (poly i : Z) : Z := Nat.iter 8 (step poly) i.

Definition update (poly crc : Z) (p : list byte) : Z :=
  let crc := Z.lxor crc 0xFFFFFFFFFFFFFFFF in
  let crc := foldl (fun crc v =>
               Z.lxor (entry poly (Z.lxor (Z.land crc 255) v)) (Z.shiftr crc 8)) crc p in
  Z.lxor crc 0xFFFFFFFFFFFFFFFF.

(** [h := crc64.New(MakeTable(ISO)); h.Write(p); h.Sum64()]. *)
Definition Sum64 (p : list byte) : Z := update ISO 0 p.

End Crc64.

(** *** WAL *)
Module WAL.

Definition WALHeaderLen : Z := 32.
Definition WALFrameHeaderLen : Z := 24.
Definition WALMagicNumber : Z := 0x377f0682.
Definition WALFileFormat : Z := 3007000.

Record t := mk {
  file : OsFile.t;
  dbFile : DbFile.t;
  checkpointNumber : Z;    (* uint32 *)
  salt1 : Z;               (* uint32 *)
  salt2 : Z;               (* uint32 *)
  pos : Z;                 (* uint32 *)
  totalPages : Z;
  pageCache : gmap Z (list byte)
}.

Definition set_file (f : OsFile.t) (w : t) : t :=
  {| file := f; dbFile := dbFile w; checkpointNumber := checkpointNumber w;
     salt1 := salt1 w; salt2 := salt2 w; pos := pos w;
     totalPages := totalPages w; pageCache := pageCache w |}.
Definition set_dbFile (d : DbFile.t) (w : t) : t :=
  {| file := file w; dbFile := d; checkpointNumber := checkpointNumber w;
     salt1 := salt1 w; salt2 := salt2 w; pos := pos w;
     totalPages := totalPages w; pageCache := pageCache w |}.
Definition set_generation (cn s1 s2 : Z) (w : t) : t :=
  {| file := file w; dbFile := dbFile w; checkpointNumber := cn;
     salt1 := s1; salt2 := s2; pos := pos w;
     totalPages := totalPages w; pageCache := pageCache w |}.
Definition set_pos (p : Z) (w : t) : t :=
  {| file := file w; dbFile := dbFile w; checkpointNumber := checkpointNumber w;
     salt1 := salt1 w; salt2 := salt2 w; pos := p;
     totalPages := totalPages w; pageCache := pageCache w |}.
Definition set_totalPages (n : Z) (w : t) : t :=
  {| file := file w; dbFile := dbFile w; checkpointNumber := checkpointNumber w;
     salt1 := salt1 w; salt2 := salt2 w; pos := pos w;
     totalPages := n; pageCache := pageCache w |}.
Definition set_pageCache (c : gmap Z (list byte)) (w : t) : t :=
  {| file := file w; dbFile := dbFile w; checkpointNumber := checkpointNumber w;
     salt1 := salt1 w; salt2 := salt2 w; pos := pos w;
     totalPages := totalPages w; pageCache := c |}.

Definition on_file {A} (m : M OsFile.t A) : M t A := zoom file set_file m.
Definition on_dbFile {A} (m : M DbFile.t A) : M t A := zoom dbFile set_dbFile m.

(** [OpenWAL(dbFile)] on the file found at [dbFile.Path()+"-wal"]. *)
Definition OpenWAL (f : OsFile.t) (dbFile : DbFile.t) : t :=
  {| file := f; dbFile := dbFile;
     checkpointNumber := 0; salt1 := 0; salt2 := 0; pos := 0;
     totalPages := DbFile.TotalPages dbFile;
     pageCache := ∅ |}.

Definition TotalPages (w : t) : Z := totalPages w.
Definition PageSize (w : t) : Z := DbFile.PageSize (dbFile w).

Definition Read (page : Z) : M t (list byte) :=
  (w <- get ;;
   match pageCache w !! page with
   | Some data =>
       (* dest := make([]byte, len(data)); copy(dest, data) *)
       ret data
   | None => on_dbFile (DbFile.Read page)
   end)%go.

(** The 32 bytes [writeHeader] assembles. *)
Definition headerBytes (pageSize checkpointNumber salt1 salt2 : Z) : list byte :=
  let first24 :=
    be32 WALMagicNumber ++ be32 WALFileFormat ++ be32 (uint32 pageSize)
    ++ be32 checkpointNumber ++ be32 salt1 ++ be32 salt2 in
  first24 ++ be64 (Crc64.Sum64 first24).

(** [writeHeader]; [r1], [r2] are the two values [rand.Uint32()] returns. *)
Definition writeHeader (r1 r2 : Z) : M t unit :=
  (w <- get ;;
   let cn := uint32 (checkpointNumber w + 1) in
   let s1 := uint32 r1 in
   let s2 := uint32 r2 in
   modify (set_generation cn s1 s2) ;;;
   let header := headerBytes (PageSize w) cn s1 s2 in
   on_file (OsFile.Seek 0) ;;;
   on_file (OsFile.Write header) ;;;
   on_file OsFile.Sync ;;;
   modify (set_pos WALHeaderLen))%go.

(** [makeWalFrame]. [header] is made with length 24 and capacity
    [24 + PageSize]; the slice expression [header[24:32]] is within the
    capacity only from [PageSize = 8] on, and what is stored through it lies
    beyond the length of [header]. [bytes.NewBuffer(header)] is a buffer that
    already holds [header]; the two [Write] calls append to it. *)
Definition makeWalFrame (w : t) (pageNo : Z) (data : list byte) (isCommit : bool)
  : option (list byte) :=
  if decide (PageSize w < 0) then None
  else
    let header :=
      be32 (uint32 pageNo)
      ++ be32 (if isCommit then 1 else 0)
      ++ be32 (salt1 w) ++ be32 (salt2 w)
      ++ zeros 8 in
    if decide (32 ≤ WALFrameHeaderLen + PageSize w) then
      let pageBuffer := header in
      let pageBuffer := pageBuffer ++ header in
      let pageBuffer := pageBuffer ++ data in
      Some pageBuffer
    else None.

Definition writeLog (pageNumber : Z) (data : list byte) (isCommit : bool) : M t unit :=
  (w <- get ;;
   frame <- must (makeWalFrame w pageNumber data isCommit) ;;
   on_file (OsFile.Write frame) ;;;
   on_file OsFile.Sync ;;;
   modify (fun w => set_pos (uint32 (pos w + uint32 (len frame))) w))%go.

(** The loop of [Write] from index [i] on, [n] being [len(pages)]. *)
Fixpoint writePages (n i : Z) (pages : list Page) : M t unit :=
  match pages with
  | [] => ret tt
  | p :: rest =>
      (let dest := Data p in
       modify (fun w => set_pageCache (<[PageNumber p := dest]> (pageCache w)) w) ;;;
       w <- get ;;
       (if decide (PageNumber p > totalPages w)
        then modify (set_totalPages (PageNumber p)) else ret tt) ;;;
       let lastPage := bool_decide (i = n - 1) in
       writeLog (PageNumber p) dest lastPage ;;;
       writePages n (i + 1) rest)%go
  end.

Definition Write (r1 r2 : Z) (pages : list Page) : M t unit :=
  (w <- get ;;
   (if decide (pos w = 0) then writeHeader r1 r2 else ret tt) ;;;
   writePages (len pages) 0 pages)%go.

(** [Checkpoint]. Go leaves the order in which [range] visits a map
    unspecified: [visited] is the order in which this run visits
    [pageCache], see [visits]. *)
Definition visits (w : t) (visited : list (Z * list byte)) : Prop :=
  visited ≡ₚ map_to_list (pageCache w).

Definition Checkpoint (visited : list (Z * list byte)) : M t unit :=
  (let pagesToWrite := (fun '(pageNumber, data) => mkPage pageNumber data) <$> visited in
   (if decide (len pagesToWrite > 0)
    then on_dbFile (DbFile.Write pagesToWrite) else ret tt) ;;;
   modify (set_pos 0))%go.

(** [checkSum]; [order] is the [Uint32] method of the [binary.ByteOrder]
    passed in, applied to the first four bytes of the slice it is given. *)
Fixpoint checkSumLoop (order : list byte → Z) (b : list byte) (x : nat) (s0 s1 : Z)
  : option (Z * Z) :=
  match x with
  | O => Some (s0, s1)
  | S x' =>
      a ← load b 0 4;
      c ← load b 4 4;
      let s0 := uint32 (s0 + uint32 (uint32 (order a) + s1)) in
      let s1 := uint32 (s1 + uint32 (uint32 (order c) + s0)) in
      checkSumLoop order (drop 8 b) x' s0 s1
  end.

Definition checkSum (order : list byte → Z) (b : list byte) (s0 s1 : Z)
  : option (error + Z * Z) :=
  let x := len b / 8 in
  if decide (x mod 2 = 0) then Some (inl ErrChecksumShape)
  else inr <$> checkSumLoop order b (Z.to_nat x) s0 s1.

End WAL.

(** *** The record codec and the interior cell

    The record type and its codec ([storage.Record], [Record.Write],
    [storage.ReadRecord]) are collaborators outside the core: an interface
    with a 32-bit [RowID]. *)
Class Codec := {
  Record : Type;
  RowID : Record → Z;
  (** [r.Write(&buf)]: the bytes written, or an error. *)
  Record_Write : Record → option (list byte);
  (** [storage.ReadRecord(reader)] on a reader over the given bytes. *)
  Record_Read : list byte → option Record
}.

(** Modelled from the spec: [storage.InteriorNode], [InteriorNodeSize],
    [ToBytes] and [ReadInteriorNode] are not among the sources. The spec
    gives a fixed 8-byte cell, a 4-byte left child page number followed by a
    4-byte key, big-endian as every integer of the format. *)
Module InteriorNode.

Record t := mk { LeftChild : Z; Key : Z }.

Definition InteriorNodeSize : Z := 8.

Definition ToBytes (n : t) : list byte := be32 (LeftChild n) ++ be32 (Key n).

Definition ReadInteriorNode (bs : list byte) : option t :=
  l ← load bs 0 4;
  k ← load bs 4 4;
  Some {| LeftChild := from_be l; Key := from_be k |}.

End InteriorNode.

End Storage.

(** ** package pager *)

Module Pager.

(** *** mem_page.go *)

Definition PageType := Z.
Definition PageTypeInternal : PageType := 5.
Definition PageTypeLeaf : PageType := 13.
Definition PageTypeInternalIndex : PageType := 2.
Definition PageTypeLeafIndex : PageType := 10.

Definition InteriorHeaderLen : Z := 12.
Definition LeafHeaderLen : Z := 8.

Record PageHeader := mkPageHeader {
  Type_ : PageType;
  FreeBlock : Z;
  NumCells : Z;
  CellsOffset : Z;
  FragmentedFreeBytes : Z;
  RightPage : Z
}.

Definition NewPageHeader (pageType : PageType) (pageSize : Z) : PageHeader :=
  {| Type_ := pageType;
     CellsOffset := uint16 pageSize;
     FreeBlock := 0;
     NumCells := 0;
     FragmentedFreeBytes := 0;
     RightPage := 0 |}.

Record MemPage := mkMemPage {
  header : PageHeader;
  pageNumber : Z;
  data : list byte;
  dirty : bool
}.

Definition set_header (h : PageHeader) (p : MemPage) : MemPage :=
  {| header := h; pageNumber := pageNumber p; data := data p; dirty := dirty p |}.
Definition set_data (d : list byte) (p : MemPage) : MemPage :=
  {| header := header p; pageNumber := pageNumber p; data := d; dirty := dirty p |}.
Definition set_dirty (b : bool) (p : MemPage) : MemPage :=
  {| header := header p; pageNumber := pageNumber p; data := data p; dirty := b |}.
Definition set_CellsOffset (v : Z) (h : PageHeader) : PageHeader :=
  {| Type_ := Type_ h; FreeBlock := FreeBlock h; NumCells := NumCells h;
     CellsOffset := v; FragmentedFreeBytes := FragmentedFreeBytes h;
     RightPage := RightPage h |}.
Definition set_NumCells (v : Z) (h : PageHeader) : PageHeader :=
  {| Type_ := Type_ h; FreeBlock := FreeBlock h; NumCells := v;
     CellsOffset := CellsOffset h; FragmentedFreeBytes := FragmentedFreeBytes h;
     RightPage := RightPage h |}.
Definition set_RightPage (v : Z) (h : PageHeader) : PageHeader :=
  {| Type_ := Type_ h; FreeBlock := FreeBlock h; NumCells := NumCells h;
     CellsOffset := CellsOffset h; FragmentedFreeBytes := FragmentedFreeBytes h;
     RightPage := v |}.

Definition Number (p : MemPage) : Z := pageNumber p.

Definition headerOffset (pageNumber : Z) : Z :=
  if decide (pageNumber = 1) then 100 else 0.

Definition is_interior (t : PageType) : bool :=
  bool_decide (t = PageTypeInternal) || bool_decide (t = PageTypeInternalIndex).

Definition cellPointersStart (pageType : PageType) (pageNumber : Z) : Z :=
  if is_interior pageType
  then headerOffset pageNumber + InteriorHeaderLen
  else headerOffset pageNumber + LeafHeaderLen.

(** [updateHeaderData]: the parsed header is serialised field by field
    into [data[headerOffset:]]. *)
Definition updateHeaderData (p : MemPage) : option MemPage :=
  let off := headerOffset (pageNumber p) in
  let h := header p in
  d ← PutUint8 (data p) off (Type_ h);
  d ← PutUint16 d (off + 1) (FreeBlock h);
  d ← PutUint16 d (off + 3) (NumCells h);
  d ← PutUint16 d (off + 5) (CellsOffset h);
  d ← PutUint8 d (off + 7) (FragmentedFreeBytes h);
  d ← (if is_interior (Type_ h)
       then PutUint32 d (off + 8) (uint32 (RightPage h))
       else Some d);
  Some (set_data d p).

Definition SetHeader (h : PageHeader) (p : MemPage) : option MemPage :=
  updateHeaderData (set_header h (set_dirty true p)).

(** [p.CopyTo(dst)] returns the new value of [dst]; [copy(dst.data, p.data)]
    copies the shorter of the two lengths. *)
Definition CopyTo (p dst : MemPage) : MemPage :=
  {| dirty := true;
     header := header p;
     pageNumber := pageNumber dst;
     data := list_inserts 0 (data p) (data dst) |}.

Definition Fits (p : MemPage) (recordLen : Z) : bool :=
  let cellPointerOffset :=
    cellPointersStart (Type_ (header p)) (pageNumber p) + NumCells (header p) * 2 in
  let cellDataOffset := CellsOffset (header p) - recordLen in
  bool_decide (cellPointerOffset + 2 ≤ cellDataOffset).

Definition CellCount (p : MemPage) : Z := NumCells (header p).

Definition cellDataOffset (p : MemPage) (cellIndex : Z) : option Z :=
  let cellPointerOffset :=
    cellPointersStart (Type_ (header p)) (pageNumber p) + 2 * cellIndex in
  GetUint16 (data p) cellPointerOffset.

(** The bytes handed to the record reader: [p.data[cellDataStart:]]. *)
Definition cellBytes (p : MemPage) (cellIndex : Z) : option (list byte) :=
  cellDataStart ← cellDataOffset p cellIndex;
  slice_from (data p) cellDataStart.

Definition AddCell (p : MemPage) (cell : list byte) : option MemPage :=
  let p := set_dirty true p in
  let cellPointerOffset :=
    cellPointersStart (Type_ (header p)) (pageNumber p)
    + uint16 (2 * NumCells (header p)) in
  let cellLength := uint16 (len cell) in
  let cellOffset := uint16 (CellsOffset (header p) - cellLength) in
  d ← PutUint16 (data p) cellPointerOffset cellOffset;
  d ← copy_at d cellOffset cell;
  let h := set_CellsOffset cellOffset (header p) in
  let h := set_NumCells (uint16 (NumCells h + 1)) h in
  updateHeaderData (set_header h (set_data d p)).

Definition FromBytes (pageNumber : Z) (data : list byte) : option MemPage :=
  let offset := headerOffset pageNumber in
  view ← slice_from data offset;
  ty ← view !! 0%nat;
  fb ← GetUint16 view 1;
  nc ← GetUint16 view 3;
  co ← GetUint16 view 5;
  fr ← view !! 7%nat;
  rp ← (if is_interior ty then GetUint32 view 8 else Some 0);
  Some {| header := {| Type_ := ty; FreeBlock := fb; NumCells := nc;
                       CellsOffset := co; FragmentedFreeBytes := fr;
                       RightPage := rp |};
          pageNumber := pageNumber;
          data := data;
          dirty := false |}.


Section WithCodec.
Context `{codec : Storage.Codec}.

(** [ReadRecord]: [None] is a panic, [Some None] an error of the reader. *)
Definition ReadRecord (p : MemPage) (cellIndex : Z) : option (option Storage.Record) :=
  reader ← cellBytes p cellIndex;
  Some (Storage.Record_Read reader).

Definition ReadInteriorNode (p : MemPage) (cellIndex : Z)
  : option (option Storage.InteriorNode.t) :=
  bs ← cellBytes p cellIndex;
  Some (Storage.InteriorNode.ReadInteriorNode bs).

(** [WriteRecord]: [Some None] is the error of [r.Write]. *)
Definition WriteRecord (p : MemPage) (r : Storage.Record) : option (option MemPage) :=
  match Storage.Record_Write r with
  | None => Some None
  | Some recordBytes => Some <$> AddCell p recordBytes
  end.

(** *** The pager

    [storage.File] has the two implementations [*DbFile] and [*WAL]. *)
Inductive File :=
  | OnDbFile (d : Storage.DbFile.t)
  | OnWAL (w : Storage.WAL.t).

Definition File_PageSize (f : File) : Z :=
  match f with
  | OnDbFile d => Storage.DbFile.PageSize d
  | OnWAL w => Storage.WAL.PageSize w
  end.

Definition File_TotalPages (f : File) : Z :=
  match f with
  | OnDbFile d => Storage.DbFile.TotalPages d
  | OnWAL w => Storage.WAL.TotalPages w
  end.

Definition inject {T A} (inj : T → File) (r : result T A) : result File A :=
  match r with
  | Ok a t => Ok a (inj t)
  | Err e t => Err e (inj t)
  | Panic => Panic
  end.

Definition File_Read (page : Z) : M File (list byte) :=
  fun f => match f with
           | OnDbFile d => inject OnDbFile (Storage.DbFile.Read page d)
           | OnWAL w => inject OnWAL (Storage.WAL.Read page w)
           end.

(** [r1], [r2]: what [rand.Uint32()] returns should the WAL write a header. *)
Definition File_Write (r1 r2 : Z) (pages : list Storage.Page) : M File unit :=
  fun f => match f with
           | OnDbFile d => inject OnDbFile (Storage.DbFile.Write pages d)
           | OnWAL w => inject OnWAL (Storage.WAL.Write r1 r2 pages w)
           end.

(** The literal [&MemPage{...}] of [Initialize] and [Allocate], followed by
    [updateHeaderData]. *)
Definition newPage (pageType : PageType) (pageNumber pageSize : Z) (dirty : bool)
  : option MemPage :=
  if decide (pageSize < 0) then None
  else updateHeaderData
         {| header := NewPageHeader pageType pageSize;
            pageNumber := pageNumber;
            data := zeros pageSize;
            dirty := dirty |}.

Definition Initialize (r1 r2 : Z) : M File unit :=
  (file <- get ;;
   newPage <- must (newPage PageTypeLeaf 1 (File_PageSize file) false) ;;
   File_Write r1 r2 [Storage.mkPage 1 (data newPage)])%go.

(** A [*MemPage] is a location of the store of pages; the cache maps page
    numbers to such pointers. *)
Definition loc := positive.

Record pager := mkPager {
  pageCount : Z;
  pageCache : gmap Z loc;
  file : File;
  pages : gmap loc MemPage
}.

Definition set_pageCount (n : Z) (s : pager) : pager :=
  {| pageCount := n; pageCache := pageCache s; file := file s; pages := pages s |}.
Definition set_pageCache (c : gmap Z loc) (s : pager) : pager :=
  {| pageCount := pageCount s; pageCache := c; file := file s; pages := pages s |}.
Definition set_file (f : File) (s : pager) : pager :=
  {| pageCount := pageCount s; pageCache := pageCache s; file := f; pages := pages s |}.
Definition set_pages (h : gmap loc MemPage) (s : pager) : pager :=
  {| pageCount := pageCount s; pageCache := pageCache s; file := file s; pages := h |}.

Definition on_file {A} (m : M File A) : M pager A := zoom file set_file m.

(** [&MemPage{...}]: a pointer no one holds yet. *)
Definition new (p : MemPage) : M pager loc :=
  fun s => let l := fresh (dom (pages s)) in
           Ok l (set_pages (<[l := p]> (pages s)) s).

(** [*l]; a nil or dangling pointer panics. *)
Definition deref (l : loc) : M pager MemPage :=
  (s <- get ;; must (pages s !! l))%go.

(** A method of [*MemPage] run on the page [l] points to. *)
Definition on_page (l : loc) (f : MemPage → option MemPage) : M pager unit :=
  (p <- deref l ;;
   p' <- must (f p) ;;
   modify (fun s => set_pages (<[l := p']> (pages s)) s))%go.

Definition NewPager (file : File) : pager :=
  {| pageCount := File_TotalPages file;
     pageCache := ∅;
     file := file;
     pages := ∅ |}.

Definition Read (pageNumber : Z) : M pager loc :=
  (if decide (pageNumber < 1) then throw ErrOutOfBounds
   else
     s <- get ;;
     match pageCache s !! pageNumber with
     | Some tablePage => ret tablePage
     | None =>
         data <- on_file (File_Read pageNumber) ;;
         page <- must (FromBytes pageNumber data) ;;
         page <- new page ;;
         modify (fun s => set_pageCache (<[pageNumber := page]> (pageCache s)) s) ;;;
         ret page
     end)%go.

Definition Write (pgs : list loc) : M pager unit :=
  for_each (fun pg =>
    (p <- deref pg ;;
     modify (fun s => set_pageCache (<[Number p := pg]> (pageCache s)) s))%go) pgs.

(** The first loop of [Flush] over the cache in the order [visited]. *)
Fixpoint collectDirty (visited : list (Z * loc))
  : M pager (list Storage.Page * list loc) :=
  match visited with
  | [] => ret ([], [])
  | (_, page) :: rest =>
      (p <- deref page ;;
       found <- collectDirty rest ;;
       let '(dirtyPages, dirtyMemPages) := found in
       if dirty p
       then ret (Storage.mkPage (pageNumber p) (data p) :: dirtyPages,
                 page :: dirtyMemPages)
       else ret (dirtyPages, dirtyMemPages))%go
  end.

(** [Flush]; [visited] is the order in which [range] visits the cache. *)
Definition Flush (r1 r2 : Z) (visited : list (Z * loc)) : M pager unit :=
  (found <- collectDirty visited ;;
   let '(dirtyPages, dirtyMemPages) := found in
   (if decide (len dirtyPages > 0) then
      on_file (File_Write r1 r2 dirtyPages) ;;;
      s <- get ;;
      modify (set_pageCount (File_TotalPages (file s)))
    else ret tt) ;;;
   for_each (fun p => on_page p (fun m => Some (set_dirty false m))) dirtyMemPages)%go.

Definition Reset (visited : list (Z * loc)) : M pager unit :=
  (s <- get ;;
   modify (set_pageCount (File_TotalPages (file s))) ;;;
   for_each (fun '(k, page) =>
     (p <- deref page ;;
      if dirty p
      then modify (fun s => set_pageCache (delete k (pageCache s)) s)
      else ret tt)%go) visited)%go.

Definition Allocate (pageType : PageType) : M pager loc :=
  (modify (fun s => set_pageCount (pageCount s + 1) s) ;;;
   s <- get ;;
   newPage <- must (newPage pageType (pageCount s) (File_PageSize (file s)) true) ;;
   newPage <- new newPage ;;
   modify (fun s => set_pageCache (<[pageCount s := newPage]> (pageCache s)) s) ;;;
   ret newPage)%go.

(** *** btree.go *)

Record BTreeTable := mkBTreeTable { rootPage : Z }.

(** The loop of [maxRowID] over the cell indices still to visit. *)
Fixpoint maxRowIDLoop {S} (p : MemPage) (indices : list Z) (maxRowID : Z) : M S Z :=
  match indices with
  | [] => ret maxRowID
  | idx :: rest =>
      (record <- must (ReadRecord p idx) ;;
       match record with
       | None => throw ErrCodec
       | Some record =>
           maxRowIDLoop p rest
             (if decide (Storage.RowID record > maxRowID)
              then Storage.RowID record else maxRowID)
       end)%go
  end.

Definition maxRowID {S} (p : MemPage) : M S Z :=
  maxRowIDLoop p (seqZ 0 (CellCount p)) 0.

Definition splitPage (p : loc) : M pager (loc * loc * loc) :=
  (leftPage <- Allocate PageTypeLeaf ;;
   rightPage <- Allocate PageTypeLeaf ;;
   page <- deref p ;;
   maxRowID <- maxRowID page ;;
   on_page leftPage (fun dst => Some (CopyTo page dst)) ;;;
   page <- deref p ;;
   rightPg <- deref rightPage ;;
   let newHeader := NewPageHeader PageTypeInternal (len (data page)) in
   let newHeader := set_RightPage (Number rightPg) newHeader in
   on_page p (SetHeader newHeader) ;;;
   leftPg <- deref leftPage ;;
   let cell := {| Storage.InteriorNode.LeftChild := uint32 (Number leftPg);
                  Storage.InteriorNode.Key := maxRowID |} in
   let cellBytes := Storage.InteriorNode.ToBytes cell in
   on_page p (fun page => AddCell page cellBytes) ;;;
   ret (p, leftPage, rightPage))%go.

Definition Insert (b : BTreeTable) (r : Storage.Record) : M pager unit :=
  (recordBytes <- match Storage.Record_Write r with
                  | Some bs => ret bs
                  | None => throw ErrCodec
                  end ;;
   root <- Read (rootPage b) ;;
   rootPg <- deref root ;;
   if decide (Type_ (header rootPg) = PageTypeLeaf) then
     if negb (Fits rootPg (len recordBytes)) then
       split <- splitPage root ;;
       let '(parent, leftPage, rightPage) := split in
       on_page rightPage (fun pg => AddCell pg recordBytes) ;;;
       Write [leftPage; rightPage; parent]
     else
       on_page root (fun root => AddCell root recordBytes) ;;;
       Write [root]
   else if decide (Type_ (header rootPg) = PageTypeInternal) then
     destPage <- Read (RightPage (header rootPg)) ;;
     dest <- deref destPage ;;
     if negb (Fits dest (len recordBytes)) then
       maxRowID <- maxRowID dest ;;
       let internalNode := {| Storage.InteriorNode.LeftChild := uint32 (Number dest);
                              Storage.InteriorNode.Key := maxRowID |} in
       rootPg <- deref root ;;
       if negb (Fits rootPg Storage.InteriorNode.InteriorNodeSize)
       then throw ErrInteriorSplit
       else
         destPage <- Allocate PageTypeLeaf ;;
         dest <- deref destPage ;;
         on_page root (fun root =>
           Some (set_header (set_RightPage (Number dest) (header root)) root)) ;;;
         let interiorCell := Storage.InteriorNode.ToBytes internalNode in
         on_page root (fun root => AddCell root interiorCell) ;;;
         on_page destPage (fun dest => AddCell dest recordBytes) ;;;
         Write [root; destPage]
     else
       on_page destPage (fun dest => AddCell dest recordBytes) ;;;
       Write [destPage]
   else throw ErrUnsupportedPageType)%go.

End WithCodec.

End Pager.

(** ** A record codec to run the model with

    Modelled from the spec: the record codec is not among the sources; the
    spec asks of it a serialised form of known length from which the 32-bit
    [RowID] can be read back. This instance writes the [RowID] (4 bytes),
    the payload length (2 bytes) and the payload. *)
Module SampleCodec.

Record record := mk { rowID : Z; payload : list byte }.

Definition write (r : record) : option (list byte) :=
  if decide (len (payload r) < 65536)
  then Some (be32 (rowID r) ++ be16 (len (payload r)) ++ payload r)
  else None.

Definition read (bs : list byte) : option record :=
  id ← load bs 0 4;
  n ← load bs 4 2;
  body ← load bs 6 (from_be n);
  Some {| rowID := from_be id; payload := body |}.

#[export] Instance codec : Storage.Codec :=
  {| Storage.Record := record;
     Storage.RowID := rowID;
     Storage.Record_Write := write;
     Storage.Record_Read := read |}.

End SampleCodec.

(** ** Predicates of the specification *)

Module PageSpec.
Import Pager.

Definition header_len (p : MemPage) : Z :=
  cellPointersStart (Type_ (header p)) (pageNumber p).

(** The page invariant of the data model, with [PageSize = len data]. *)
Definition page_inv (p : MemPage) : Prop :=
  header_len p + 2 * NumCells (header p) ≤ CellsOffset (header p)
  ∧ CellsOffset (header p) ≤ len (data p).

(** The header fields [NumCells] and [CellsOffset] are [uint16] in Go. *)
Definition header_typed (p : MemPage) : Prop :=
  0 ≤ NumCells (header p) < 65536 ∧ 0 ≤ CellsOffset (header p) < 65536.

(** Length of the serialised page header. *)
Definition hdr_size (t : PageType) : Z :=
  if is_interior t then InteriorHeaderLen else LeafHeaderLen.

(** [AddCell] for each record in turn, each one only when [Fits] holds;
    [None] when a record does not fit. *)
Fixpoint AddCells (p : MemPage) (xs : list (list byte)) : option MemPage :=
  match xs with
  | [] => Some p
  | x :: rest =>
      if Fits p (len x) then p' ← AddCell p x; AddCells p' rest else None
  end.

(** Total length of the first [n] records. *)
Definition total_len (xs : list (list byte)) : Z :=
  foldr (fun x acc => len x + acc) 0 xs.

(** Where the [i]-th record of [xs] is copied on a page whose cell content
    area starts out at [top]. *)
Definition cell_start (top : Z) (xs : list (list byte)) (i : nat) : Z :=
  top - total_len (take (S i) xs).

(** The page holds the records [done], in this order, below [top]: the
    [i]-th cell pointer holds [cell_start top done i] and the record's bytes
    start there. *)
Definition holds_cells (top : Z) (p : MemPage) (done : list (list byte)) : Prop :=
  NumCells (header p) = len done
  ∧ CellsOffset (header p) = top - total_len done
  ∧ top < 65536
  ∧ top ≤ len (data p)
  ∧ ∀ (i : nat) (x : list byte), done !! i = Some x →
      GetUint16 (data p) (header_len p + 2 * Z.of_nat i) = Some (cell_start top done i)
      ∧ CellsOffset (header p) ≤ cell_start top done i
      ∧ load (data p) (cell_start top done i) (len x) = Some x.

End PageSpec.

Module StorageSpec.
Import Storage.

(** The header [updateFileHeader] writes. *)
Definition next_header (d : DbFile.t) : FileHeader.t :=
  {| FileHeader.FileChangeCounter :=
       uint32 (FileHeader.FileChangeCounter (DbFile.header d) + 1);
     FileHeader.SizeInPages := uint32 (DbFile.totalPages d);
     FileHeader.PageSize := uint16 (DbFile.pageSize d);
     FileHeader.raw := FileHeader.raw (DbFile.header d) |}.

(** The data of the last entry for page [P] in a batch. *)
Fixpoint lastData (P : Z) (pages : list Page) : option (list byte) :=
  match pages with
  | [] => None
  | p :: rest =>
      match lastData P rest with
      | Some d => Some d
      | None => if decide (PageNumber p = P) then Some (Data p) else None
      end
  end.

(** The 24 bytes [makeWalFrame] assembles as the frame header. *)
Definition frameHeader (w : WAL.t) (pageNo : Z) (isCommit : bool) : list byte :=
  be32 (uint32 pageNo) ++ be32 (if isCommit then 1 else 0)
  ++ be32 (WAL.salt1 w) ++ be32 (WAL.salt2 w) ++ zeros 8.

(** The state [writeLog] leaves after appending [frame]. *)
Definition appended (frame : list byte) (w : WAL.t) : WAL.t :=
  WAL.set_pos (uint32 (WAL.pos w + uint32 (len frame)))
    (WAL.set_file
       {| OsFile.bytes :=
            OsFile.pwrite (OsFile.bytes (WAL.file w)) (OsFile.offset (WAL.file w)) frame;
          OsFile.offset := OsFile.offset (WAL.file w) + len frame;
          OsFile.syncs := S (OsFile.syncs (WAL.file w)) |} w).

(** The state [Write] is in after the cache and [totalPages] took page [p]. *)
Definition buffered (p : Page) (w : WAL.t) : WAL.t :=
  let w := WAL.set_pageCache (<[PageNumber p := Data p]> (WAL.pageCache w)) w in
  if decide (PageNumber p > WAL.totalPages w)
  then WAL.set_totalPages (PageNumber p) w else w.

(** The state [writeHeader] leaves. *)
Definition new_generation (r1 r2 : Z) (w : WAL.t) : WAL.t :=
  let cn := uint32 (WAL.checkpointNumber w + 1) in
  WAL.set_pos WAL.WALHeaderLen
    (WAL.set_file
       {| OsFile.bytes :=
            OsFile.pwrite (OsFile.bytes (WAL.file w)) 0
              (WAL.headerBytes (WAL.PageSize w) cn (uint32 r1) (uint32 r2));
          OsFile.offset :=
            0 + len (WAL.headerBytes (WAL.PageSize w) cn (uint32 r1) (uint32 r2));
          OsFile.syncs := S (OsFile.syncs (WAL.file w)) |}
       (WAL.set_generation cn (uint32 r1) (uint32 r2) w)).



(** The file content [c] holds the bytes [b] at offset [o]. *)
Definition holds (c : list byte) (o : Z) (b : list byte) : Prop :=
  ∀ k : nat, (k < length b)%nat → c !! (Z.to_nat o + k)%nat = b !! k.

End StorageSpec.

(** ** Sample states, for running the model on concrete inputs *)
Module Samples.
Import Storage.

(** The state a method leaves behind, whether it returned a value or an
    error; [s0] when it panicked. *)
Definition state_of {S A} (s0 : S) (r : result S A) : S :=
  match r with
  | Ok _ s | Err _ s => s
  | Panic => s0
  end.

Definition value_of {S A} (a0 : A) (r : result S A) : A :=
  match r with
  | Ok a _ => a
  | _ => a0
  end.

Definition no_db : DbFile.t :=
  {| DbFile.header := FileHeader.zero; DbFile.file := OsFile.empty;
     DbFile.pageSize := 0; DbFile.totalPages := 0 |}.

(** [OpenDbFile] on a path where there was no file, page size 1024. *)
Definition db_new : DbFile.t :=
  value_of no_db (DbFile.OpenDbFile OsFile.empty 1024).

(** The same after [pager.Initialize]: one leaf page, [TotalPages = 1]. *)
Definition db_init : DbFile.t :=
  match Pager.Initialize 0 0 (Pager.OnDbFile db_new) with
  | Ok _ (Pager.OnDbFile d) => d
  | _ => no_db
  end.

(** [OpenWAL] over [db_init] on a path where there was no file. *)
Definition wal_init : WAL.t := WAL.OpenWAL OsFile.empty db_init.

End Samples.

Module Samples2.
Import Storage Samples.

(** A database file of one page whose header holds the change counter
    [2^32 - 1], and the DbFile [OpenDbFile] makes of it. *)
Definition file_at_max : OsFile.t :=
  {| OsFile.bytes :=
       FileHeader.to_bytes
         {| FileHeader.PageSize := 1024; FileHeader.FileChangeCounter := 4294967295;
            FileHeader.SizeInPages := 1; FileHeader.raw := [] |}
       ++ zeros 924;
     OsFile.offset := 0; OsFile.syncs := 0 |}.

Definition db_at_max : DbFile.t :=
  value_of no_db (DbFile.OpenDbFile file_at_max 1024).

(** The engine's arrangement: a pager over the WAL over [db_init]. *)
Definition pager_on_wal : Pager.pager := Pager.NewPager (Pager.OnWAL wal_init).

(** The DbFile under a pager. *)
Definition db_under (s : Pager.pager) : DbFile.t :=
  match Pager.file s with
  | Pager.OnDbFile d => d
  | Pager.OnWAL w => WAL.dbFile w
  end.

End Samples2.


(** ** package backend: engine.go

    The data directory holds the two files [tiny.db] and [tiny.db-wal];
    [Start] is given what is found at the two paths. Logging is left out, and
    so is the [pagerPool] field: [pager.NewPool] is not among the sources. *)
Module Engine.
Import Storage.

Record Config := mkConfig { PageSize : Z }.

Record t := mk { config : Config; wal : WAL.t; txID : Z }.






Definition NewPager (e : t) : Pager.pager := Pager.NewPager (Pager.OnWAL (wal e)).

End Engine.

(** ** The pager's cache *)
Module PagerSpec.
Import Pager.

(** Every cache entry points to a page of the store that carries the
    number it is cached under. *)
Definition cache_wf (s : pager) : Prop :=
  ∀ n l, pageCache s !! n = Some l → ∃ p, pages s !! l = Some p ∧ Number p = n.

(** [visited] is an order in which [range] may visit the cache. *)
Definition cache_visits (s : pager) (visited : list (Z * loc)) : Prop :=
  visited ≡ₚ map_to_list (pageCache s).

End PagerSpec.

(** ** Headers as Go types them *)
Module HeaderSpec.
Import Pager.

(** The fields of a [PageHeader] within the ranges of their Go types; the
    right-most pointer is written as a [uint32] on interior pages and is not
    written on the other pages, where [FromBytes] reads it as 0. *)
Definition header_in_range (h : PageHeader) : Prop :=
  0 ≤ Type_ h < 256
  ∧ 0 ≤ FreeBlock h < 65536
  ∧ 0 ≤ NumCells h < 65536
  ∧ 0 ≤ CellsOffset h < 65536
  ∧ 0 ≤ FragmentedFreeBytes h < 256
  ∧ (if is_interior (Type_ h) then 0 ≤ RightPage h < 4294967296 else RightPage h = 0).

End HeaderSpec.

(** ** What a page read makes of the file *)
Module ReadSpec.
Import Storage StorageSpec.



End ReadSpec.

(** ** The log a batch leaves in the WAL file *)
Module LogSpec.
Import Storage.

(** The 24 bytes of the header of a frame as the format gives them. *)
Definition frame_header (s1 s2 : Z) (pageNo : Z) (commit : bool) : list byte :=
  be32 (uint32 pageNo) ++ be32 (if commit then 1 else 0)
  ++ be32 s1 ++ be32 s2 ++ zeros 8.

(** What one frame takes in the file: the header twice, then the page. *)
Definition frame_of (s1 s2 : Z) (p : Page) (commit : bool) : list byte :=
  frame_header s1 s2 (PageNumber p) commit
  ++ frame_header s1 s2 (PageNumber p) commit ++ Data p.

(** The frames of a batch in the order of the batch, the last one, and only
    the last one, being a commit frame. *)
Fixpoint log_of (s1 s2 : Z) (pages : list Page) : list byte :=
  match pages with
  | [] => []
  | p :: rest =>
      frame_of s1 s2 p (match rest with [] => true | _ => false end)
      ++ log_of s1 s2 rest
  end.

(** Where [WAL.Write] starts to append: after the header it writes when the
    append position is 0, at the offset of the descriptor otherwise. *)
Definition log_start (w : WAL.t) : Z :=
  if decide (WAL.pos w = 0) then WAL.WALHeaderLen else OsFile.offset (WAL.file w).

Definition pos_start (w : WAL.t) : Z :=
  if decide (WAL.pos w = 0) then WAL.WALHeaderLen else WAL.pos w.

End LogSpec.

(** ** Further sample states *)
Module Samples3.
Import Storage Samples.


(** The WAL over [db_init] after one [Write] of pages 2 and 3. *)
Definition wal_gap : WAL.t :=
  state_of wal_init
    (WAL.Write 11 12 [mkPage 2 (replicate 1024 7); mkPage 3 (replicate 1024 9)] wal_init).

(** The engine's pager after reading page 1, and after inserting one
    record into the table rooted at page 1. *)
Definition pager_read : Pager.pager :=
  state_of Samples2.pager_on_wal (Pager.Read 1 Samples2.pager_on_wal).

Definition pager_one : Pager.pager :=
  state_of Samples2.pager_on_wal
    (Pager.Insert (codec := SampleCodec.codec) (Pager.mkBTreeTable 1)
       (SampleCodec.mk 1 [1; 2; 3]) Samples2.pager_on_wal).

(** A database of two pages of 128 bytes: page 1 an empty leaf, page 2 a
    leaf holding one record of 96 bytes; and a pager over it. *)
Definition leaf_two : Pager.MemPage :=
  let p0 := Pager.mkMemPage (Pager.NewPageHeader Pager.PageTypeLeaf 128) 2 (zeros 128) false in
  default p0
    (Pager.AddCell p0 (default [] (SampleCodec.write (SampleCodec.mk 7 (replicate 90 1))))).

Definition db_two : DbFile.t :=
  let p1 := Pager.mkMemPage (Pager.NewPageHeader Pager.PageTypeLeaf 128) 1 (zeros 128) false in
  state_of no_db
    (DbFile.Write
       [mkPage 1 (Pager.data (default p1 (Pager.updateHeaderData p1)));
        mkPage 2 (Pager.data leaf_two)]
       (value_of no_db (DbFile.OpenDbFile OsFile.empty 128))).

Definition pager_two : Pager.pager := Pager.NewPager (Pager.OnDbFile db_two).


(** [pager_two] after the insertion that splits the root of the table at
    page 2. *)
Definition pager_split : Pager.pager :=
  state_of pager_two
    (Pager.Insert (codec := SampleCodec.codec) (Pager.mkBTreeTable 2)
       (SampleCodec.mk 9 (replicate 30 2)) pager_two).

End Samples3.
(** * Properties *)

(** Closed facts about concrete inputs: evaluate, then compare. *)
Ltac by_compute :=
  vm_compute; repeat split; first [reflexivity | discriminate | intro; discriminate].

(** ** Byte-level lemmas *)

Section Bytes.
Implicit Types (l bs : list byte) (off n v : Z) (j : nat).

Lemma store_Some l off bs :
  0 ≤ off → off + len bs ≤ len l →
  store l off bs = Some (list_inserts (Z.to_nat off) bs l).
Proof. intros. unfold store. rewrite decide_True; [done | lia]. Qed.

Lemma store_inv l off bs l' :
  store l off bs = Some l' →
  0 ≤ off ∧ off + len bs ≤ len l ∧ l' = list_inserts (Z.to_nat off) bs l.
Proof. unfold store. case_decide; [|done]. intros [= <-]. split_and!; [lia | lia | done]. Qed.

Lemma inserts_lookup_out l (i : nat) bs j :
  (j < i ∨ i + length bs ≤ j)%nat → list_inserts i bs l !! j = l !! j.
Proof.
  intros [?|?]; [by apply list_lookup_inserts_lt | by apply list_lookup_inserts_ge].
Qed.

Lemma inserts_lookup_in l (i : nat) bs (k : nat) :
  (i + length bs ≤ length l)%nat → (k < length bs)%nat →
  list_inserts i bs l !! (i + k)%nat = bs !! k.
Proof.
  intros. rewrite list_lookup_inserts by lia. f_equal. lia.
Qed.

Lemma load_Some l off n :
  0 ≤ off → 0 ≤ n → off + n ≤ len l →
  load l off n = Some (take (Z.to_nat n) (drop (Z.to_nat off) l)).
Proof. intros. unfold load. rewrite decide_True; [done | lia]. Qed.

(** Two buffers that agree on a window give the same slice. *)
Lemma load_ext l l' off n :
  length l = length l' →
  (∀ j, off ≤ Z.of_nat j < off + n → l !! j = l' !! j) →
  load l off n = load l' off n.
Proof.
  intros Hlen Hw. unfold load. rewrite <- Hlen.
  case_decide as Hr; [|done]. f_equal.
  apply list_eq. intros i.
  destruct (decide (i < Z.to_nat n)%nat).
  - rewrite !lookup_take_lt, !lookup_drop by done. apply Hw. lia.
  - rewrite !lookup_take_ge by lia. done.
Qed.

Lemma load_inserts l (i : nat) bs :
  (i + length bs ≤ length l)%nat →
  load (list_inserts i bs l) (Z.of_nat i) (len bs) = Some bs.
Proof.
  intros. rewrite load_Some by (rewrite ?length_inserts; lia).
  f_equal. rewrite !Nat2Z.id. apply list_eq. intros k.
  destruct (decide (k < length bs)%nat).
  - rewrite lookup_take_lt, lookup_drop by done. by apply inserts_lookup_in.
  - rewrite lookup_take_ge by lia. symmetry. apply lookup_ge_None. lia.
Qed.

Lemma uint16_small v : 0 ≤ v < 65536 → uint16 v = v.
Proof. intros. unfold uint16. by apply Z.mod_small. Qed.

Lemma uint32_small v : 0 ≤ v < 4294967296 → uint32 v = v.
Proof. intros. unfold uint32. by apply Z.mod_small. Qed.

Lemma from_be16 v : from_be (be16 v) = uint16 v.
Proof.
  unfold from_be, be16, uint8, uint16. simpl.
  pose proof (Z.div_mod v 256 ltac:(lia)).
  pose proof (Z.mod_pos_bound v 256 ltac:(lia)).
  pose proof (Z.mod_pos_bound (v / 256) 256 ltac:(lia)).
  pose proof (Z.div_mod (v / 256) 256 ltac:(lia)).
  apply Z.mod_unique with (q := v / 256 / 256); lia.
Qed.

Lemma from_be32 v : from_be (be32 v) = uint32 v.
Proof.
  unfold from_be, be32, uint8, uint32. simpl.
  replace (v / 16777216) with (v / 256 / 256 / 256)
    by (rewrite !Z.div_div by lia; done).
  replace (v / 65536) with (v / 256 / 256)
    by (rewrite !Z.div_div by lia; done).
  set (a := v / 256). set (b := a / 256). set (c := b / 256).
  pose proof (Z.div_mod v 256 ltac:(lia)).
  pose proof (Z.div_mod a 256 ltac:(lia)).
  pose proof (Z.div_mod b 256 ltac:(lia)).
  pose proof (Z.div_mod c 256 ltac:(lia)).
  pose proof (Z.mod_pos_bound v 256 ltac:(lia)).
  pose proof (Z.mod_pos_bound a 256 ltac:(lia)).
  pose proof (Z.mod_pos_bound b 256 ltac:(lia)).
  pose proof (Z.mod_pos_bound c 256 ltac:(lia)).
  apply Z.mod_unique with (q := c / 256); lia.
Qed.

Lemma load_store l off bs l' :
  store l off bs = Some l' → load l' off (len bs) = Some bs.
Proof.
  intros (? & ? & ->)%store_inv.
  rewrite <- (Z2Nat.id off) at 2 by done.
  apply load_inserts. lia.
Qed.

Lemma store_length l off bs l' : store l off bs = Some l' → length l' = length l.
Proof. intros (? & ? & ->)%store_inv. apply length_inserts. Qed.

Lemma store_lookup_out l off bs l' j :
  store l off bs = Some l' →
  Z.of_nat j < off ∨ off + len bs ≤ Z.of_nat j → l' !! j = l !! j.
Proof.
  intros (? & ? & ->)%store_inv ?. apply inserts_lookup_out. lia.
Qed.

Lemma GetUint16_PutUint16 l off v l' :
  PutUint16 l off v = Some l' → GetUint16 l' off = Some (uint16 v).
Proof.
  unfold PutUint16, GetUint16. intros Hs.
  change (load l' off 2) with (load l' off (len (be16 v))).
  rewrite (load_store _ _ _ _ Hs). simpl. f_equal. apply from_be16.
Qed.

Lemma GetUint16_ext l l' off :
  length l = length l' →
  (∀ j, off ≤ Z.of_nat j < off + 2 → l !! j = l' !! j) →
  GetUint16 l off = GetUint16 l' off.
Proof. intros. unfold GetUint16. by erewrite load_ext. Qed.

End Bytes.

(** ** Pages: header serialisation and AddCell *)

Module PageFacts.
Import Pager PageSpec.

Lemma cellPointersStart_eq t n : cellPointersStart t n = headerOffset n + hdr_size t.
Proof. unfold cellPointersStart, hdr_size. by destruct (is_interior t). Qed.

Lemma headerOffset_nonneg n : 0 ≤ headerOffset n.
Proof. unfold headerOffset. case_decide; lia. Qed.

Lemma hdr_size_bounds t : 8 ≤ hdr_size t ≤ 12.
Proof. unfold hdr_size, InteriorHeaderLen, LeafHeaderLen. destruct (is_interior t); lia. Qed.

Ltac store_step :=
  rewrite store_Some by (rewrite ?length_inserts; simpl; lia);
  cbn [mbind option_bind].

(** [updateHeaderData] succeeds exactly when the header lies inside the
    buffer, and then only touches the header bytes. *)
Lemma updateHeaderData_spec p :
  headerOffset (pageNumber p) + hdr_size (Type_ (header p)) ≤ len (data p) →
  ∃ d, updateHeaderData p = Some (set_data d p)
       ∧ length d = length (data p)
       ∧ ∀ j : nat,
           Z.of_nat j < headerOffset (pageNumber p)
           ∨ headerOffset (pageNumber p) + hdr_size (Type_ (header p)) ≤ Z.of_nat j →
           d !! j = data p !! j.
Proof.
  intros Hfit. pose proof (headerOffset_nonneg (pageNumber p)) as Hho.
  unfold updateHeaderData, PutUint8, PutUint16, PutUint32.
  unfold hdr_size, InteriorHeaderLen, LeafHeaderLen in *.
  destruct (is_interior (Type_ (header p))); cbv zeta; cbv iota in Hfit.
  - do 6 store_step. eexists. split; [done|]. split.
    + by rewrite !length_inserts.
    + intros j Hj. rewrite !inserts_lookup_out; [done | simpl; lia ..].
  - do 5 store_step. eexists. split; [done|]. split.
    + by rewrite !length_inserts.
    + intros j Hj. rewrite !inserts_lookup_out; [done | simpl; lia ..].
Qed.

Lemma updateHeaderData_None p :
  len (data p) < headerOffset (pageNumber p) + 8 → updateHeaderData p = None.
Proof.
  intros Hlt. pose proof (headerOffset_nonneg (pageNumber p)) as Hho.
  unfold updateHeaderData, PutUint8, PutUint16.
  set (off := headerOffset (pageNumber p)) in *.
  destruct (store (data p) off _) as [d1|] eqn:E1; [simpl|done].
  destruct (store d1 (off + 1) _) as [d2|] eqn:E2; [simpl|done].
  destruct (store d2 (off + 3) _) as [d3|] eqn:E3; [simpl|done].
  destruct (store d3 (off + 5) _) as [d4|] eqn:E4; [simpl|done].
  destruct (store d4 (off + 7) _) as [d5|] eqn:E5; [|done].
  apply store_length in E1, E2, E3, E4. apply store_inv in E5 as (_ & E5 & _).
  simpl in E5. lia.
Qed.

(** What one [AddCell] does when the cell fits. *)
Lemma AddCell_spec p cell :
  0 ≤ NumCells (header p) →
  CellsOffset (header p) < 65536 →
  CellsOffset (header p) ≤ len (data p) →
  Fits p (len cell) = true →
  ∃ p', AddCell p cell = Some p'
    ∧ header p' = set_NumCells (NumCells (header p) + 1)
                    (set_CellsOffset (CellsOffset (header p) - len cell) (header p))
    ∧ pageNumber p' = pageNumber p
    ∧ dirty p' = true
    ∧ length (data p') = length (data p)
    ∧ GetUint16 (data p') (header_len p + 2 * NumCells (header p))
        = Some (CellsOffset (header p) - len cell)
    ∧ load (data p') (CellsOffset (header p) - len cell) (len cell) = Some cell
    ∧ ∀ j : nat,
        header_len p ≤ Z.of_nat j →
        Z.of_nat j < header_len p + 2 * NumCells (header p)
        ∨ (header_len p + 2 * NumCells (header p) + 2 ≤ Z.of_nat j
           ∧ Z.of_nat j < CellsOffset (header p) - len cell)
        ∨ CellsOffset (header p) ≤ Z.of_nat j →
        data p' !! j = data p !! j.
Proof.
  intros Hn Hco Hlen Hfits. unfold Fits in Hfits. apply bool_decide_eq_true in Hfits.
  fold (header_len p) in Hfits. unfold AddCell. simpl.
  fold (header_len p).
  pose proof (cellPointersStart_eq (Type_ (header p)) (pageNumber p)) as Hcps.
  fold (header_len p) in Hcps.
  pose proof (headerOffset_nonneg (pageNumber p)) as Hho.
  pose proof (hdr_size_bounds (Type_ (header p))) as Hhs.
  rewrite (uint16_small (2 * NumCells (header p))) by lia.
  rewrite (uint16_small (len cell)) by lia.
  rewrite (uint16_small (CellsOffset (header p) - len cell)) by lia.
  rewrite (uint16_small (NumCells (header p) + 1)) by lia.
  set (cpo := header_len p + 2 * NumCells (header p)).
  set (co := CellsOffset (header p) - len cell).
  destruct (PutUint16 (data p) cpo co) as [d1|] eqn:E1; simpl; last first.
  { unfold PutUint16 in E1. rewrite store_Some in E1; [done | lia | simpl; lia]. }
  pose proof (store_length _ _ _ _ E1) as Hl1.
  unfold copy_at. rewrite decide_True by lia. simpl.
  set (d2 := list_inserts (Z.to_nat co) cell d1).
  assert (length d2 = length (data p)) as Hl2
    by (unfold d2; rewrite length_inserts; done).
  set (q := set_header _ _).
  destruct (updateHeaderData_spec q) as (d3 & -> & Hl3 & Hout).
  { subst q. simpl. lia. }
  subst q. simpl in *. eexists. split; [done|]. simpl.
  split_and!; try done.
  - congruence.
  - rewrite <- (uint16_small co), <- (GetUint16_PutUint16 _ _ _ _ E1) by lia.
    apply GetUint16_ext; [congruence|]. intros j Hj.
    rewrite Hout by lia. unfold d2. apply inserts_lookup_out. lia.
  - rewrite <- (load_inserts d1 (Z.to_nat co) cell) by lia.
    fold d2. rewrite Z2Nat.id by lia. apply load_ext; [done|].
    intros j Hj. apply Hout. lia.
  - intros j Hj1 Hj2. rewrite Hout by lia. unfold d2.
    rewrite inserts_lookup_out by lia.
    apply (store_lookup_out _ _ _ _ _ E1). simpl. lia.
Qed.

End PageFacts.

(** ** C6: AddCell keeps the page invariant *)

Section C6.
Import Pager PageSpec PageFacts.

(** C6. On a page that satisfies
    [header_len + 2*NumCells ≤ CellsOffset ≤ PageSize], [Fits] answers exactly
    whether [cell_pointers_start + 2*(NumCells+1) ≤ CellsOffset - len data];
    when it answers yes, [AddCell] succeeds, the inequality still holds,
    [NumCells] has grown by one, [CellsOffset] has dropped by [len data], the
    cell bytes sit at the new [CellsOffset], and they start at or after the
    end of the cell pointer array. *)
Theorem C6_AddCell_preserves_page_invariant (p : MemPage) (cell : list byte) :
  header_typed p →
  page_inv p →
  (Fits p (len cell) = true
   ↔ header_len p + 2 * (NumCells (header p) + 1) ≤ CellsOffset (header p) - len cell)
  ∧ (Fits p (len cell) = true →
     ∃ p', AddCell p cell = Some p'
       ∧ page_inv p' ∧ header_typed p'
       ∧ NumCells (header p') = NumCells (header p) + 1
       ∧ CellsOffset (header p') = CellsOffset (header p) - len cell
       ∧ load (data p') (CellsOffset (header p')) (len cell) = Some cell
       ∧ header_len p' + 2 * NumCells (header p') ≤ CellsOffset (header p')).
Proof.
  intros [Hn Hco] [Hinv Hsz]. split.
  - unfold Fits, header_len. rewrite bool_decide_eq_true. lia.
  - intros Hfits.
    destruct (AddCell_spec p cell) as (p' & Hadd & Hh & Hnum & _ & Hlen & _ & Hcell & _);
      [lia | lia | lia | done |].
    assert (header_len p' = header_len p) as Hhl.
    { unfold header_len. rewrite Hh, Hnum. done. }
    unfold Fits in Hfits. apply bool_decide_eq_true in Hfits.
    fold (header_len p) in Hfits.
    assert (8 ≤ header_len p) as Hge.
    { unfold header_len. rewrite cellPointersStart_eq.
      pose proof (headerOffset_nonneg (pageNumber p)).
      pose proof (hdr_size_bounds (Type_ (header p))). lia. }
    exists p'. unfold page_inv, header_typed. rewrite Hhl, Hh, Hlen. simpl.
    split_and!; try done; lia.
Qed.

(** A leaf page 2 of 64 bytes holding no cells, and a three-byte cell. *)
Lemma C6_witness :
  ∃ p', AddCell (mkMemPage (NewPageHeader PageTypeLeaf 64) 2 (zeros 64) false) [1; 2; 3]
        = Some p'
    ∧ page_inv p' ∧ header_typed p'
    ∧ NumCells (header p') = 0 + 1
    ∧ CellsOffset (header p') = 64 - 3
    ∧ load (data p') (CellsOffset (header p')) 3 = Some [1; 2; 3]
    ∧ header_len p' + 2 * NumCells (header p') ≤ CellsOffset (header p').
Proof.
  apply (C6_AddCell_preserves_page_invariant
           (mkMemPage (NewPageHeader PageTypeLeaf 64) 2 (zeros 64) false) [1; 2; 3]).
  - by_compute.
  - by_compute.
  - reflexivity.
Defined.

End C6.

(** ** C5: cells written by AddCell are read back where they were copied *)

Section C5.
Import Pager PageSpec PageFacts.
Context `{codec : Storage.Codec}.

Lemma total_len_nonneg xs : 0 ≤ total_len xs.
Proof. induction xs as [|x xs IH]; simpl; lia. Qed.

Lemma total_len_app xs ys : total_len (xs ++ ys) = total_len xs + total_len ys.
Proof. induction xs as [|x xs IH]; simpl; lia. Qed.

Lemma cell_start_app_l top (done : list (list byte)) x (i : nat) :
  (i < length done)%nat → cell_start top (done ++ [x]) i = cell_start top done i.
Proof. intros. unfold cell_start. rewrite take_app_le by lia. done. Qed.

Lemma cell_start_last top (done : list (list byte)) x :
  cell_start top (done ++ [x]) (length done) = top - total_len done - len x.
Proof.
  unfold cell_start. rewrite take_ge by (rewrite length_app; simpl; lia).
  rewrite total_len_app. simpl. lia.
Qed.

Lemma header_len_ge p : 8 ≤ header_len p.
Proof.
  unfold header_len. rewrite cellPointersStart_eq.
  pose proof (headerOffset_nonneg (pageNumber p)).
  pose proof (hdr_size_bounds (Type_ (header p))). lia.
Qed.

(** One guarded [AddCell] extends the records the page holds. *)
Lemma AddCell_holds top p done x p' :
  holds_cells top p done →
  Fits p (len x) = true →
  AddCell p x = Some p' →
  holds_cells top p' (done ++ [x])
  ∧ Type_ (header p') = Type_ (header p)
  ∧ pageNumber p' = pageNumber p.
Proof.
  intros (Hn & Hco & Htop & Hsz & Hcells) Hfits Hadd.
  pose proof (total_len_nonneg done) as Htl.
  pose proof (header_len_ge p) as Hhl.
  pose proof Hfits as Hf. unfold Fits in Hf. apply bool_decide_eq_true in Hf.
  fold (header_len p) in Hf.
  destruct (AddCell_spec p x) as (q & Hq & Hh & Hnum & _ & Hlen & Hptr & Hcell & Hsame);
    [lia | lia | lia | done |].
  rewrite Hadd in Hq. injection Hq as <-.
  assert (header_len p' = header_len p) as Hhl'.
  { unfold header_len. rewrite Hh, Hnum. done. }
  split; [|by rewrite Hh, Hnum].
  unfold holds_cells. rewrite Hh, Hhl', Hlen, length_app, total_len_app. simpl.
  split_and!; try lia.
  intros i y Hi. destruct (decide (i < length done)%nat) as [Hlt|Hge].
  - rewrite lookup_app_l in Hi by done.
    destruct (Hcells i y Hi) as (Hp & Hbelow & Hld).
    rewrite cell_start_app_l by done.
    assert (cell_start top done i + len y ≤ len (data p)) as Hend.
    { unfold load in Hld. case_decide; [lia|done]. }
    split_and!; [| lia |].
    + rewrite <- Hp. apply GetUint16_ext; [done|]. intros j Hj. apply Hsame; lia.
    + rewrite <- Hld. apply load_ext; [done|]. intros j Hj. apply Hsame; lia.
  - assert (i = length done) as ->.
    { apply lookup_lt_Some in Hi. rewrite length_app in Hi. simpl in Hi. lia. }
    rewrite list_lookup_middle in Hi by done. injection Hi as <-.
    rewrite cell_start_last.
    split_and!; [| lia |].
    + rewrite <- Hn, <- Hco. apply Hptr.
    + rewrite <- Hco. apply Hcell.
Qed.

Lemma AddCells_holds top xs : ∀ p done p',
  holds_cells top p done →
  AddCells p xs = Some p' →
  holds_cells top p' (done ++ xs)
  ∧ Type_ (header p') = Type_ (header p)
  ∧ pageNumber p' = pageNumber p.
Proof.
  induction xs as [|x xs IH]; intros p done p' Hp Hrun; simpl in Hrun.
  - injection Hrun as <-. by rewrite app_nil_r.
  - destruct (Fits p (len x)) eqn:Hfits; [|done].
    destruct (AddCell p x) as [q|] eqn:Hq; [|done]. simpl in Hrun.
    destruct (AddCell_holds top p done x q Hp Hfits Hq) as (Hq1 & Hq2 & Hq3).
    destruct (IH q (done ++ [x]) p' Hq1 Hrun) as (H1 & H2 & H3).
    rewrite <- app_assoc in H1. simpl in H1.
    split_and!; [done | congruence | congruence].
Qed.

(** A page made by [newPage] holds no records below [uint16 pageSize]. *)
Lemma newPage_holds pageType pageNumber pageSize dirty p0 :
  newPage pageType pageNumber pageSize dirty = Some p0 →
  holds_cells (uint16 pageSize) p0 []
  ∧ header p0 = NewPageHeader pageType pageSize
  ∧ Pager.pageNumber p0 = pageNumber
  ∧ len (data p0) = pageSize.
Proof.
  unfold newPage. case_decide as Hneg; [done|]. intros Hupd.
  set (q := mkMemPage _ _ _ _) in Hupd.
  assert (len (data q) = pageSize) as Hlq.
  { subst q. simpl. unfold zeros. rewrite length_replicate. lia. }
  destruct (decide (len (data q) < headerOffset (Pager.pageNumber q) + 8)) as [Hs|Hs].
  { rewrite updateHeaderData_None in Hupd; done. }
  assert (∃ d, p0 = set_data d q ∧ length d = length (data q)) as (d & -> & Hd).
  { revert Hupd. unfold updateHeaderData, PutUint8, PutUint16, PutUint32.
    repeat (match goal with
            | |- context [store ?l ?o ?b] =>
                let E := fresh "E" in
                destruct (store l o b) eqn:E; cbn [mbind option_bind];
                [apply store_length in E|done]
            | |- context [if ?c then _ else _] => destruct c
            end).
    all: intros [= <-]; eexists; split; [done|]; congruence. }
  simpl. split_and!; try done; [|by rewrite Hd].
  unfold holds_cells. simpl. rewrite Hd, Hlq.
  pose proof (Z.mod_pos_bound pageSize 65536 ltac:(lia)).
  pose proof (Z.mod_le pageSize 65536 ltac:(lia) ltac:(lia)).
  unfold uint16. split_and!; try lia. intros i x Hi. done.
Qed.

(** C5. Records added one by one to a fresh leaf page, each only when
    [Fits] holds: the page has one cell per record and, for every index [i],
    the cell pointer at index [i] holds the offset where the [i]-th record
    was copied, the record's bytes are stored there, and [ReadRecord i]
    hands the record reader the page bytes from that offset on, which begin
    with exactly the record's bytes. *)
Theorem C5_cells_round_trip
    (pageNumber pageSize : Z) (dirty : bool) (xs : list (list byte)) (p0 p : MemPage) :
  newPage PageTypeLeaf pageNumber pageSize dirty = Some p0 →
  AddCells p0 xs = Some p →
  CellCount p = len xs
  ∧ ∀ (i : nat) (x : list byte), xs !! i = Some x →
      let off := cell_start (uint16 pageSize) xs i in
      cellDataOffset p (Z.of_nat i) = Some off
      ∧ load (data p) off (len x) = Some x
      ∧ ∃ rest, cellBytes p (Z.of_nat i) = Some (x ++ rest)
                ∧ ReadRecord p (Z.of_nat i) = Some (Storage.Record_Read (x ++ rest)).
Proof.
  intros Hnew Hrun.
  destruct (newPage_holds _ _ _ _ _ Hnew) as (H0 & _ & _ & _).
  destruct (AddCells_holds _ xs p0 [] p H0 Hrun) as ((Hn & Hco & Htop & Hsz & Hcells) & _ & _).
  simpl in *. split; [done|].
  intros i x Hi. destruct (Hcells i x Hi) as (Hp & Hbelow & Hld).
  set (off := cell_start (uint16 pageSize) xs i) in *.
  assert (cellDataOffset p (Z.of_nat i) = Some off) as Hcdo by exact Hp.
  split_and!; [done | done |].
  exists (drop (length x) (drop (Z.to_nat off) (data p))).
  assert (cellBytes p (Z.of_nat i) = Some (x ++ drop (length x) (drop (Z.to_nat off) (data p))))
    as Hcb.
  { unfold cellBytes. rewrite Hcdo. cbn [mbind option_bind].
    unfold load in Hld. case_decide as Hr; [|done]. injection Hld as Hld.
    unfold slice_from. rewrite decide_True by lia. f_equal.
    rewrite Nat2Z.id in Hld. rewrite <- Hld at 1. by rewrite take_drop. }
  split; [done|]. unfold ReadRecord. rewrite Hcb. done.
Qed.

End C5.

(** Two records on a fresh 64-byte leaf page 2. *)
Lemma C5_witness :
  let blank := Pager.mkMemPage (Pager.NewPageHeader 0 0) 0 [] false in
  let xs : list (list byte) := [[1; 2; 3]; [4; 5]] in
  let p0 := default blank (Pager.newPage Pager.PageTypeLeaf 2 64 true) in
  let p := default blank (PageSpec.AddCells p0 xs) in
  Pager.CellCount p = len xs
  ∧ ∀ (i : nat) (x : list byte), xs !! i = Some x →
      let off := PageSpec.cell_start (uint16 64) xs i in
      Pager.cellDataOffset p (Z.of_nat i) = Some off
      ∧ load (Pager.data p) off (len x) = Some x
      ∧ ∃ rest, Pager.cellBytes p (Z.of_nat i) = Some (x ++ rest)
                ∧ Pager.ReadRecord (codec := SampleCodec.codec) p (Z.of_nat i)
                  = Some (SampleCodec.read (x ++ rest)).
Proof.
  intros blank xs p0 p.
  apply (C5_cells_round_trip (codec := SampleCodec.codec) 2 64 true xs p0 p).
  - vm_compute. reflexivity.
  - vm_compute. reflexivity.
Defined.

(** ** DbFile *)

Section DbFileFacts.
Import Storage StorageSpec.

Lemma for_each_app {S A} (body : A → M S unit) (xs ys : list A) (s : S) :
  for_each body (xs ++ ys) s
  = bind (for_each body xs) (fun _ => for_each body ys) s.
Proof.
  revert s. induction xs as [|x xs IH]; intros s; simpl.
  - done.
  - unfold bind in *. destruct (body x s) as [[] s'| |]; [|done..].
    apply IH.
Qed.

Lemma updateFileHeader_eq d :
  DbFile.updateFileHeader d
  = Ok tt {| DbFile.header := next_header d;
             DbFile.file :=
               {| OsFile.bytes :=
                    OsFile.pwrite (OsFile.bytes (DbFile.file d)) 0
                      (FileHeader.to_bytes (next_header d));
                  OsFile.offset := 0 + len (FileHeader.to_bytes (next_header d));
                  OsFile.syncs := OsFile.syncs (DbFile.file d) |};
             DbFile.pageSize := DbFile.pageSize d;
             DbFile.totalPages := DbFile.totalPages d |}.
Proof. reflexivity. Qed.


(** Offset in a page buffer at which the bytes that go to the file start. *)
Lemma writePage_Ok page d d' :
  DbFile.writePage page d = Ok tt d' →
  PageNumber page ≤ DbFile.totalPages d + 1
  ∧ 0 ≤ DbFile.pageOffset d (PageNumber page)
  ∧ ∃ body,
      slice_from (Data page) (if decide (PageNumber page = 1) then 100 else 0) = Some body
      ∧ d' = {| DbFile.header := DbFile.header d;
                DbFile.file :=
                  {| OsFile.bytes :=
                       OsFile.pwrite (OsFile.bytes (DbFile.file d))
                         (DbFile.pageOffset d (PageNumber page)) body;
                     OsFile.offset := DbFile.pageOffset d (PageNumber page) + len body;
                     OsFile.syncs := OsFile.syncs (DbFile.file d) |};
                DbFile.pageSize := DbFile.pageSize d;
                DbFile.totalPages := Z.max (DbFile.totalPages d) (PageNumber page) |}.
Proof.
  unfold DbFile.writePage, bind, get, modify, throw, ret, must, panic,
    DbFile.on_file, zoom, OsFile.Seek, OsFile.Write, DbFile.pageOffset,
    DbFile.set_totalPages, DbFile.set_file.
  destruct d as [h f ps tp]. simpl.
  case_decide as Hgap; [done|]. simpl.
  case_decide as Hgrow; simpl;
    (case_decide as Hseek; [|done]; simpl;
     destruct (slice_from _ _) as [body|] eqn:Hbody; [|done]; simpl;
     intros [= <-]; split_and!; [lia | done |];
     exists body; split; [done|]; f_equal; lia).
Qed.

(** A gap is an error that leaves the receiver as it was. *)
Lemma writePage_gap page d :
  PageNumber page > DbFile.totalPages d + 1 →
  DbFile.writePage page d = Err ErrGapInPages d.
Proof.
  intros Hgap. unfold DbFile.writePage, bind, get, throw. simpl.
  rewrite decide_True by done. done.
Qed.

Lemma writePage_header page d :
  match DbFile.writePage page d with
  | Ok _ d' | Err _ d' =>
      DbFile.header d' = DbFile.header d ∧ DbFile.pageSize d' = DbFile.pageSize d
  | Panic => True
  end.
Proof.
  unfold DbFile.writePage, bind, get, modify, throw, ret, must, panic,
    DbFile.on_file, zoom, OsFile.Seek, OsFile.Write, DbFile.pageOffset,
    DbFile.set_totalPages, DbFile.set_file.
  destruct d as [h f ps tp]. simpl.
  repeat (case_decide; simpl; try done);
    destruct (slice_from _ _); simpl; done.
Qed.

Lemma writePages_header pages : ∀ d,
  match for_each DbFile.writePage pages d with
  | Ok _ d' | Err _ d' =>
      DbFile.header d' = DbFile.header d ∧ DbFile.pageSize d' = DbFile.pageSize d
  | Panic => True
  end.
Proof.
  induction pages as [|p pages IH]; intros d; simpl; [done|].
  unfold bind. pose proof (writePage_header p d) as Hp.
  destruct (DbFile.writePage p d) as [[] d1|e d1|]; [|done..].
  specialize (IH d1). destruct Hp as [<- <-].
  destruct (for_each _ _ d1); [| |done]; exact IH.
Qed.

(** A successful [Write] is the loop over the pages, then the header, then
    the sync. *)
Lemma Write_Ok pages d d' :
  DbFile.Write pages d = Ok tt d' →
  ∃ d1, for_each DbFile.writePage pages d = Ok tt d1
    ∧ d' = {| DbFile.header := next_header d1;
              DbFile.file :=
                {| OsFile.bytes :=
                     OsFile.pwrite (OsFile.bytes (DbFile.file d1)) 0
                       (FileHeader.to_bytes (next_header d1));
                   OsFile.offset := 0 + len (FileHeader.to_bytes (next_header d1));
                   OsFile.syncs := S (OsFile.syncs (DbFile.file d1)) |};
              DbFile.pageSize := DbFile.pageSize d1;
              DbFile.totalPages := DbFile.totalPages d1 |}.
Proof.
  unfold DbFile.Write. unfold bind at 1.
  destruct (for_each DbFile.writePage pages d) as [[] d1|e d1|] eqn:Hloop; [|done..].
  unfold bind. rewrite updateFileHeader_eq. simpl.
  intros [= <-]. by exists d1.
Qed.

Lemma Write_counter pages d d' :
  DbFile.Write pages d = Ok tt d' →
  FileHeader.FileChangeCounter (DbFile.header d')
  = uint32 (FileHeader.FileChangeCounter (DbFile.header d) + 1).
Proof.
  intros (d1 & Hloop & ->)%Write_Ok. simpl.
  pose proof (writePages_header pages d) as Hh. rewrite Hloop in Hh.
  destruct Hh as [-> _]. done.
Qed.

Lemma to_bytes_length h : length (FileHeader.to_bytes h) = 100%nat.
Proof. unfold FileHeader.to_bytes. by rewrite !length_inserts, length_resize. Qed.

(** Bytes past the end of a write are what they were. *)
Lemma pwrite_lookup_after (c : list byte) off bs (j : nat) :
  0 ≤ off → off + len bs ≤ Z.of_nat j →
  OsFile.pwrite c off bs !! j = c !! j.
Proof.
  intros Hoff Hj. unfold OsFile.pwrite. destruct bs as [|b bs]; [done|].
  rewrite inserts_lookup_out by lia.
  destruct (decide (j < length c)%nat).
  - rewrite lookup_resize by lia. done.
  - rewrite lookup_resize_old by lia. symmetry. apply lookup_ge_None. lia.
Qed.

(** Bytes before a write are what they were. *)
Lemma pwrite_lookup_before (c : list byte) off bs (j : nat) :
  0 ≤ off → Z.of_nat j < off → (j < length c)%nat →
  OsFile.pwrite c off bs !! j = c !! j.
Proof.
  intros Hoff Hj Hlt. unfold OsFile.pwrite. destruct bs as [|b bs]; [done|].
  rewrite inserts_lookup_out by lia. rewrite lookup_resize by lia. done.
Qed.

(** The bytes written are in the file. *)
Lemma pwrite_lookup_in (c : list byte) off bs (k : nat) :
  0 ≤ off → (k < length bs)%nat →
  OsFile.pwrite c off bs !! (Z.to_nat off + k)%nat = bs !! k.
Proof.
  intros Hoff Hk. unfold OsFile.pwrite. destruct bs as [|b bs]; [simpl in Hk; lia|].
  apply inserts_lookup_in; [|done]. rewrite length_resize. lia.
Qed.

Lemma pwrite_length (c : list byte) off bs :
  0 ≤ off → (length c ≤ length (OsFile.pwrite c off bs))%nat.
Proof.
  intros. unfold OsFile.pwrite. destruct bs; [done|].
  rewrite length_inserts, length_resize. lia.
Qed.

End DbFileFacts.

(** ** C8: a gap in the page numbers is rejected *)

Section C8.
Import Storage StorageSpec Samples.

(** C8. When [Write] comes to a page whose number is greater than
    [TotalPages + 1] as it stands at that moment (the pages before it having
    been written), it returns the gap error; in particular a DbFile with
    [TotalPages = 1] rejects a write of page 3. *)
Theorem C8_gap_in_pages_rejected
    (d : DbFile.t) (pre : list Page) (page : Page) (post : list Page) (d1 : DbFile.t) :
  for_each DbFile.writePage pre d = Ok tt d1 →
  PageNumber page > DbFile.TotalPages d1 + 1 →
  DbFile.Write (pre ++ page :: post) d = Err ErrGapInPages d1
  ∧ ∀ (fresh : DbFile.t) (data : list byte),
      DbFile.TotalPages fresh = 1 →
      DbFile.Write [mkPage 3 data] fresh = Err ErrGapInPages fresh.
Proof.
  intros Hpre Hgap. split.
  - unfold DbFile.Write. unfold bind at 1. rewrite for_each_app.
    unfold bind at 1. rewrite Hpre. simpl. unfold bind at 1.
    rewrite writePage_gap by done. done.
  - intros fresh data Hone. unfold DbFile.Write. simpl. unfold bind at 1 2.
    rewrite writePage_gap; [done|]. simpl. unfold DbFile.TotalPages in Hone. lia.
Qed.

(** Page 2 is written on the initialised database, then page 4 is asked for. *)
Lemma C8_witness :
  let pre := [mkPage 2 (zeros 1024)] in
  let d1 := state_of no_db (for_each DbFile.writePage pre db_init) in
  DbFile.Write (pre ++ mkPage 4 (zeros 1024) :: []) db_init = Err ErrGapInPages d1
  ∧ ∀ (fresh : DbFile.t) (data : list byte),
      DbFile.TotalPages fresh = 1 →
      DbFile.Write [mkPage 3 data] fresh = Err ErrGapInPages fresh.
Proof.
  intros pre d1.
  apply (C8_gap_in_pages_rejected db_init pre (mkPage 4 (zeros 1024)) [] d1).
  - vm_compute. reflexivity.
  - vm_compute. reflexivity.
Defined.

End C8.

(** ** C9: a write of no pages *)

Section C9.
Import Storage StorageSpec.

Lemma take_pwrite_0 (c bs : list byte) :
  take (length bs) (OsFile.pwrite c 0 bs) = bs.
Proof.
  apply list_eq. intros k. destruct (decide (k < length bs)%nat).
  - rewrite lookup_take_lt by done.
    by rewrite <- (pwrite_lookup_in c 0 bs k) by (done || lia).
  - rewrite lookup_take_ge by lia. symmetry. apply lookup_ge_None. lia.
Qed.

(** C9. A [Write] of no pages succeeds; it leaves [TotalPages] and every
    byte of the file from offset 100 on as they were, adds one to the file
    change counter (a 32-bit addition), leaves the 100 bytes of the new
    header at the start of the file, and syncs the file once. *)
Theorem C9_empty_write_still_counts (d : DbFile.t) :
  ∃ d', DbFile.Write [] d = Ok tt d'
    ∧ DbFile.TotalPages d' = DbFile.TotalPages d
    ∧ (∀ j : nat, (100 ≤ j)%nat →
         OsFile.bytes (DbFile.file d') !! j = OsFile.bytes (DbFile.file d) !! j)
    ∧ FileHeader.FileChangeCounter (DbFile.header d')
      = uint32 (FileHeader.FileChangeCounter (DbFile.header d) + 1)
    ∧ (0 ≤ FileHeader.FileChangeCounter (DbFile.header d) < 4294967295 →
       FileHeader.FileChangeCounter (DbFile.header d')
       = FileHeader.FileChangeCounter (DbFile.header d) + 1)
    ∧ take 100 (OsFile.bytes (DbFile.file d')) = FileHeader.to_bytes (DbFile.header d')
    ∧ length (FileHeader.to_bytes (DbFile.header d')) = 100%nat
    ∧ OsFile.syncs (DbFile.file d') = S (OsFile.syncs (DbFile.file d)).
Proof.
  eexists. split; [reflexivity|]. simpl. split_and!; try done.
  - intros j Hj. apply pwrite_lookup_after; [lia|].
    rewrite to_bytes_length. lia.
  - intros Hc. apply uint32_small. lia.
  - rewrite <- (to_bytes_length (next_header d)) at 1. apply take_pwrite_0.
  - apply to_bytes_length.
Qed.

End C9.

(** ** WAL *)

Section WALFacts.
Import Storage StorageSpec.

Lemma writeHeader_eq r1 r2 w :
  WAL.writeHeader r1 r2 w = Ok tt (new_generation r1 r2 w).
Proof. reflexivity. Qed.

Lemma makeWalFrame_eq w pageNo data isCommit :
  8 ≤ WAL.PageSize w →
  WAL.makeWalFrame w pageNo data isCommit
  = Some (frameHeader w pageNo isCommit ++ frameHeader w pageNo isCommit ++ data).
Proof.
  intros Hps. unfold WAL.makeWalFrame, WAL.WALFrameHeaderLen.
  rewrite decide_False by lia. rewrite decide_True by lia.
  unfold frameHeader. by rewrite <- !app_assoc.
Qed.

Lemma makeWalFrame_Some w pageNo data isCommit frame :
  WAL.makeWalFrame w pageNo data isCommit = Some frame →
  frame = frameHeader w pageNo isCommit ++ frameHeader w pageNo isCommit ++ data.
Proof.
  unfold WAL.makeWalFrame. case_decide; [done|]. case_decide; [|done].
  intros [= <-]. unfold frameHeader. by rewrite <- !app_assoc.
Qed.

Lemma frameHeader_length w pageNo isCommit : length (frameHeader w pageNo isCommit) = 24%nat.
Proof. reflexivity. Qed.

Lemma writeLog_eq pageNumber data isCommit w :
  WAL.writeLog pageNumber data isCommit w
  = match WAL.makeWalFrame w pageNumber data isCommit with
    | Some frame => Ok tt (appended frame w)
    | None => Panic
    end.
Proof.
  unfold WAL.writeLog, bind, get, must. simpl.
  destruct (WAL.makeWalFrame w pageNumber data isCommit); reflexivity.
Qed.

(** One turn of the loop of [WAL.Write]. *)
Lemma writePages_cons n i p rest w :
  WAL.writePages n i (p :: rest) w
  = match WAL.makeWalFrame (buffered p w) (PageNumber p) (Data p) (bool_decide (i = n - 1)) with
    | Some frame => WAL.writePages n (i + 1) rest (appended frame (buffered p w))
    | None => Panic
    end.
Proof.
  cbn [WAL.writePages]. unfold bind at 1. unfold modify at 1.
  unfold bind at 1. unfold get at 1. unfold bind at 1.
  unfold buffered. cbv zeta.
  set (w1 := WAL.set_pageCache _ w).
  destruct (decide (PageNumber p > WAL.totalPages w1)); simpl;
    unfold bind at 1; rewrite writeLog_eq;
    destruct (WAL.makeWalFrame _ _ _ _); reflexivity.
Qed.

Lemma buffered_fields p w :
  WAL.file (buffered p w) = WAL.file w
  ∧ WAL.dbFile (buffered p w) = WAL.dbFile w
  ∧ WAL.checkpointNumber (buffered p w) = WAL.checkpointNumber w
  ∧ WAL.salt1 (buffered p w) = WAL.salt1 w
  ∧ WAL.salt2 (buffered p w) = WAL.salt2 w
  ∧ WAL.pageCache (buffered p w) = <[PageNumber p := Data p]> (WAL.pageCache w).
Proof.
  unfold buffered. cbv zeta.
  match goal with |- context [decide ?P] => destruct (decide P) end;
    split_and!; reflexivity.
Qed.

(** What the loop of [WAL.Write] keeps, and what it leaves in the buffer. *)
Lemma writePages_keeps pages : ∀ n i w w',
  WAL.writePages n i pages w = Ok tt w' →
  WAL.dbFile w' = WAL.dbFile w
  ∧ WAL.checkpointNumber w' = WAL.checkpointNumber w
  ∧ WAL.salt1 w' = WAL.salt1 w
  ∧ WAL.salt2 w' = WAL.salt2 w
  ∧ ∀ P, WAL.pageCache w' !! P
         = match lastData P pages with
           | Some D => Some D
           | None => WAL.pageCache w !! P
           end.
Proof.
  induction pages as [|p rest IH]; intros n i w w' Hrun.
  - injection Hrun as <-. split_and!; done.
  - rewrite writePages_cons in Hrun.
    destruct (WAL.makeWalFrame _ _ _ _) as [frame|] eqn:Hframe; [|done].
    destruct (buffered_fields p w) as (Hf & Hd & Hc & Hs1 & Hs2 & Hpc).
    destruct (IH n (i + 1) _ w' Hrun) as (Hd' & Hc' & Hs1' & Hs2' & Hpc').
    simpl in *.
    split_and!; try congruence.
    intros P. rewrite Hpc', Hpc. destruct (lastData P rest); [done|].
    destruct (decide (PageNumber p = P)) as [<-|HP].
    + apply lookup_insert_eq.
    + by apply lookup_insert_ne.
Qed.

(** The loop of [WAL.Write] only appends: the file keeps what it held
    below the offset the loop started at. *)
Lemma writePages_appends pages : ∀ n i w w',
  WAL.writePages n i pages w = Ok tt w' →
  0 ≤ OsFile.offset (WAL.file w) →
  OsFile.offset (WAL.file w) ≤ OsFile.offset (WAL.file w')
  ∧ (length (OsFile.bytes (WAL.file w)) ≤ length (OsFile.bytes (WAL.file w')))%nat
  ∧ ∀ j : nat, Z.of_nat j < OsFile.offset (WAL.file w) →
      (j < length (OsFile.bytes (WAL.file w)))%nat →
      OsFile.bytes (WAL.file w') !! j = OsFile.bytes (WAL.file w) !! j.
Proof.
  induction pages as [|p rest IH]; intros n i w w' Hrun Hoff.
  - injection Hrun as <-. split_and!; done || lia.
  - rewrite writePages_cons in Hrun.
    destruct (WAL.makeWalFrame _ _ _ _) as [frame|] eqn:Hframe; [|done].
    destruct (buffered_fields p w) as (Hf & _).
    destruct (IH n (i + 1) _ w' Hrun) as (Ho' & Hl' & Hb').
    { simpl. rewrite Hf. lia. }
    simpl in *. rewrite Hf in *.
    pose proof (pwrite_length (OsFile.bytes (WAL.file w)) (OsFile.offset (WAL.file w))
                  frame Hoff) as Hgrow.
    split_and!; try lia.
    intros j Hj Hlt. rewrite Hb' by lia. by apply pwrite_lookup_before.
Qed.

Lemma Write_eq r1 r2 pages w :
  WAL.Write r1 r2 pages w
  = WAL.writePages (len pages) 0 pages
      (if decide (WAL.pos w = 0) then new_generation r1 r2 w else w).
Proof.
  unfold WAL.Write, bind, get. case_decide; [rewrite writeHeader_eq|]; done.
Qed.


Lemma Write_keeps_dbFile r1 r2 pages w w' :
  WAL.Write r1 r2 pages w = Ok tt w' → WAL.dbFile w' = WAL.dbFile w.
Proof.
  rewrite Write_eq. intros (Hd & _)%writePages_keeps. rewrite Hd.
  by case_decide.
Qed.

End WALFacts.

(** ** C4: a page written to the WAL is read back from it *)

Section C4.
Import Storage StorageSpec Samples.

(** C4. After a successful [WAL.Write] of a batch whose last entry for page
    [P] carries data [D], [WAL.Read P] returns [D], whatever the DbFile
    holds. *)
Theorem C4_WAL_read_through
    (w : WAL.t) (r1 r2 : Z) (pages : list Page) (w' : WAL.t) (P : Z) (D : list byte) :
  WAL.Write r1 r2 pages w = Ok tt w' →
  lastData P pages = Some D →
  WAL.Read P w' = Ok D w'.
Proof.
  rewrite Write_eq. intros (_ & _ & _ & _ & Hcache)%writePages_keeps Hlast.
  specialize (Hcache P). rewrite Hlast in Hcache.
  unfold WAL.Read, bind, get. rewrite Hcache. done.
Qed.

(** Page 5 through a WAL whose DbFile has the single page 1. *)
Lemma C4_witness :
  let A : list byte := replicate 1024 7 in
  let w' := state_of wal_init (WAL.Write 11 12 [mkPage 5 A] wal_init) in
  WAL.Read 5 w' = Ok A w'.
Proof.
  intros A w'.
  apply (C4_WAL_read_through wal_init 11 12 [mkPage 5 A] w' 5 A).
  - vm_compute. reflexivity.
  - vm_compute. reflexivity.
Defined.

End C4.

(** ** C10: a checkpoint of an empty buffer *)

(** The header checksum is never unfolded by simplification. *)
Arguments Storage.Crc64.Sum64 : simpl never.
Arguments Storage.WAL.headerBytes : simpl never.

Section C10.
Import Storage StorageSpec Samples.

Lemma headerBytes_length ps cn s1 s2 : length (WAL.headerBytes ps cn s1 s2) = 32%nat.
Proof. reflexivity. Qed.

(** From page size 8 on no frame panics, and the loop of [Write] runs to
    its end. *)
Lemma writePages_total pages : ∀ n i w,
  8 ≤ WAL.PageSize w → ∃ w', WAL.writePages n i pages w = Ok tt w'.
Proof.
  induction pages as [|p rest IH]; intros n i w Hps.
  - by eexists.
  - rewrite writePages_cons.
    destruct (buffered_fields p w) as (_ & Hd & _).
    rewrite makeWalFrame_eq by (unfold WAL.PageSize in *; by rewrite Hd).
    apply IH. unfold WAL.PageSize in *. simpl. by rewrite Hd.
Qed.

Lemma new_generation_bytes r1 r2 w :
  OsFile.bytes (WAL.file (new_generation r1 r2 w))
  = OsFile.pwrite (OsFile.bytes (WAL.file w)) 0
      (WAL.headerBytes (WAL.PageSize w) (uint32 (WAL.checkpointNumber w + 1))
         (uint32 r1) (uint32 r2)).
Proof. reflexivity. Qed.

Lemma new_generation_offset r1 r2 w :
  OsFile.offset (WAL.file (new_generation r1 r2 w)) = 32.
Proof.
  unfold new_generation, WAL.set_pos, WAL.set_file.
  cbn [WAL.file OsFile.offset]. rewrite headerBytes_length. reflexivity.
Qed.

(** C10. With an empty buffer [Checkpoint] succeeds without touching the
    DbFile (its file, [TotalPages] and header are what they were) and sets the
    append position to 0; the next [WAL.Write] therefore starts by writing a
    WAL header: once it has succeeded the checkpoint number is one more (as a
    32-bit number), the salts are the two fresh random values, and the WAL
    file starts with the 32 header bytes made of them. From page size 8 on
    that [Write] does succeed. *)
Theorem C10_checkpoint_of_empty_buffer
    (w : WAL.t) (visited : list (Z * list byte)) (r1 r2 : Z) (pages : list Page) :
  WAL.pageCache w = ∅ →
  WAL.visits w visited →
  ∃ w1, WAL.Checkpoint visited w = Ok tt w1
    ∧ WAL.dbFile w1 = WAL.dbFile w
    ∧ WAL.pos w1 = 0
    ∧ (∀ w2, WAL.Write r1 r2 pages w1 = Ok tt w2 →
         WAL.checkpointNumber w2 = uint32 (WAL.checkpointNumber w + 1)
         ∧ WAL.salt1 w2 = uint32 r1
         ∧ WAL.salt2 w2 = uint32 r2
         ∧ take 32 (OsFile.bytes (WAL.file w2))
           = WAL.headerBytes (WAL.PageSize w) (uint32 (WAL.checkpointNumber w + 1))
               (uint32 r1) (uint32 r2))
    ∧ (8 ≤ WAL.PageSize w → ∃ w2, WAL.Write r1 r2 pages w1 = Ok tt w2).
Proof.
  intros Hempty Hvis. unfold WAL.visits in Hvis.
  rewrite Hempty, map_to_list_empty in Hvis. apply Permutation_nil_r in Hvis as ->.
  exists (WAL.set_pos 0 w). split_and!; try reflexivity.
  - intros w2. rewrite Write_eq. simpl. intros Hrun.
    destruct (writePages_keeps _ _ _ _ _ Hrun) as (_ & Hc & Hs1 & Hs2 & _).
    destruct (writePages_appends _ _ _ _ _ Hrun) as (_ & Hl & Hb); [simpl; lia|].
    split_and!; [done..|].
    rewrite new_generation_bytes in Hl, Hb. rewrite new_generation_offset in Hb.
    change (WAL.PageSize (WAL.set_pos 0 w)) with (WAL.PageSize w) in *.
    change (WAL.checkpointNumber (WAL.set_pos 0 w)) with (WAL.checkpointNumber w) in *.
    change (WAL.file (WAL.set_pos 0 w)) with (WAL.file w) in *.
    set (hb := WAL.headerBytes _ _ _ _) in *.
    set (c := OsFile.bytes (WAL.file w)) in *.
    assert (length hb = 32%nat) as Hhb.
    { unfold hb. pose proof (headerBytes_length (WAL.PageSize w)
        (uint32 (WAL.checkpointNumber w + 1)) (uint32 r1) (uint32 r2)). lia. }
    assert (32 ≤ length (OsFile.pwrite c 0 hb))%nat as Hlen.
    { assert (is_Some (OsFile.pwrite c 0 hb !! (Z.to_nat 0 + 31)%nat)) as Hs.
      { rewrite pwrite_lookup_in by lia. apply lookup_lt_is_Some. lia. }
      apply lookup_lt_is_Some in Hs. lia. }
    rewrite <- (take_pwrite_0 c hb). rewrite Hhb.
    apply list_eq. intros j. destruct (decide (j < 32)%nat).
    + rewrite !lookup_take_lt by done. apply Hb; lia.
    + rewrite !lookup_take_ge by lia. done.
  - intros Hps. rewrite Write_eq. simpl. by apply writePages_total.
Qed.

(** The WAL right after [OpenWAL], checkpointed, then one page written. *)
Lemma C10_witness :
  ∃ w1, WAL.Checkpoint [] wal_init = Ok tt w1
    ∧ WAL.dbFile w1 = WAL.dbFile wal_init
    ∧ WAL.pos w1 = 0
    ∧ (∀ w2, WAL.Write 11 12 [mkPage 2 (zeros 1024)] w1 = Ok tt w2 →
         WAL.checkpointNumber w2 = uint32 (WAL.checkpointNumber wal_init + 1)
         ∧ WAL.salt1 w2 = uint32 11
         ∧ WAL.salt2 w2 = uint32 12
         ∧ take 32 (OsFile.bytes (WAL.file w2))
           = WAL.headerBytes (WAL.PageSize wal_init)
               (uint32 (WAL.checkpointNumber wal_init + 1)) (uint32 11) (uint32 12))
    ∧ (8 ≤ WAL.PageSize wal_init →
       ∃ w2, WAL.Write 11 12 [mkPage 2 (zeros 1024)] w1 = Ok tt w2).
Proof.
  apply (C10_checkpoint_of_empty_buffer wal_init [] 11 12 [mkPage 2 (zeros 1024)]).
  - reflexivity.
  - unfold WAL.visits. vm_compute. constructor.
Defined.

End C10.

(** ** C2: the frames WAL.Write appends *)

Section C2.
Import Storage StorageSpec Samples.

(** Every frame [makeWalFrame] returns is its 24-byte header twice, then
    the page: [48 + len data] bytes. *)
Lemma makeWalFrame_length w pageNo data isCommit frame :
  WAL.makeWalFrame w pageNo data isCommit = Some frame →
  len frame = 48 + len data.
Proof.
  intros ->%makeWalFrame_Some. rewrite !length_app, !frameHeader_length. lia.
Qed.

(** C2, at one input. [WAL.Write] of the single page 2 (1024 bytes, the
    page size) to a WAL just opened: after the 32-byte WAL header the file
    holds one frame of [48 + 1024] bytes, the 24-byte frame header (page 2,
    commit flag 1, the two salts, zero checksum) followed by the same 24 bytes
    again and then the page, where the frame format has [24 + 1024] bytes. *)
Theorem C2_frame_holds_its_header_twice :
  let data : list byte := replicate 1024 7 in
  let w' := state_of wal_init (WAL.Write 11 12 [mkPage 2 data] wal_init) in
  let hdr : list byte := be32 2 ++ be32 1 ++ be32 11 ++ be32 12 ++ zeros 8 in
  WAL.Write 11 12 [mkPage 2 data] wal_init = Ok tt w'
  ∧ len hdr = WAL.WALFrameHeaderLen
  ∧ drop 32 (OsFile.bytes (WAL.file w')) = hdr ++ hdr ++ data
  ∧ len (drop 32 (OsFile.bytes (WAL.file w'))) = 48 + WAL.PageSize wal_init
  ∧ len (drop 32 (OsFile.bytes (WAL.file w'))) ≠ WAL.WALFrameHeaderLen + WAL.PageSize wal_init.
Proof. by_compute. Qed.

End C2.

(** ** C7: the file change counter *)

Section C7.
Import Storage StorageSpec Samples.

Lemma DbFile_Read_header page d :
  match DbFile.Read page d with
  | Ok _ d' | Err _ d' => DbFile.header d' = DbFile.header d
  | Panic => True
  end.
Proof.
  unfold DbFile.Read, bind, get, ret, panic, DbFile.on_file, zoom,
    OsFile.Seek, OsFile.Read.
  destruct d as [h f ps tp]. simpl.
  repeat (case_decide; simpl; try done).
Qed.

Lemma WAL_Read_header page w :
  match WAL.Read page w with
  | Ok _ w' | Err _ w' =>
      DbFile.header (WAL.dbFile w') = DbFile.header (WAL.dbFile w)
  | Panic => True
  end.
Proof.
  unfold WAL.Read, bind, get. simpl.
  destruct (WAL.pageCache w !! page); [done|].
  unfold WAL.on_dbFile, zoom. pose proof (DbFile_Read_header page (WAL.dbFile w)) as H.
  destruct (DbFile.Read page (WAL.dbFile w)); done.
Qed.

Lemma Checkpoint_eq visited w :
  WAL.Checkpoint visited w
  = match visited with
    | [] => Ok tt (WAL.set_pos 0 w)
    | _ => match DbFile.Write ((fun '(n, data) => mkPage n data) <$> visited) (WAL.dbFile w) with
           | Ok _ d => Ok tt (WAL.set_pos 0 (WAL.set_dbFile d w))
           | Err e d => Err e (WAL.set_dbFile d w)
           | Panic => Panic
           end
    end.
Proof.
  unfold WAL.Checkpoint. cbv zeta. destruct visited as [|v visited]; [done|].
  unfold bind at 1. rewrite decide_True by (simpl; lia).
  unfold WAL.on_dbFile, zoom.
  destruct (DbFile.Write _ _) as [[] d| |]; done.
Qed.

(** The first loop of [Flush] only reads. *)
Lemma collectDirty_state visited : ∀ s,
  match Pager.collectDirty visited s with
  | Ok _ s' => s' = s
  | Err _ _ => False
  | Panic => True
  end.
Proof.
  induction visited as [|[k l] visited IH]; intros s; simpl; [done|].
  unfold bind at 1. unfold Pager.deref, bind, get, must. simpl.
  destruct (Pager.pages s !! l) as [p|]; simpl; [|done].
  specialize (IH s). destruct (Pager.collectDirty visited s) as [[dp dl] s1|e s1|];
    [subst s1|done..].
  destruct (Pager.dirty p); done.
Qed.

(** The last loop of [Flush] only touches pages. *)
Lemma clearDirty_file locs : ∀ s,
  match for_each (fun p => Pager.on_page p (fun m => Some (Pager.set_dirty false m))) locs s with
  | Ok _ s' | Err _ s' => Pager.file s' = Pager.file s
  | Panic => True
  end.
Proof.
  induction locs as [|l locs IH]; intros s; simpl; [done|].
  unfold bind at 1. unfold Pager.on_page, Pager.deref, bind, get, must, modify. simpl.
  destruct (Pager.pages s !! l) as [p|]; simpl; [|done].
  match goal with |- context [for_each ?b locs ?s1] => specialize (IH s1) end.
  simpl in IH. exact IH.
Qed.

(** A successful [Flush] is at most one [Write] of the underlying file. *)
Lemma Flush_file r1 r2 visited s s' :
  Pager.Flush r1 r2 visited s = Ok tt s' →
  ∃ dirtyPages locs,
    Pager.collectDirty visited s = Ok (dirtyPages, locs) s
    ∧ match dirtyPages with
      | [] => Pager.file s' = Pager.file s
      | _ => Pager.File_Write r1 r2 dirtyPages (Pager.file s) = Ok tt (Pager.file s')
      end.
Proof.
  unfold Pager.Flush. unfold bind at 1.
  pose proof (collectDirty_state visited s) as Hc.
  destruct (Pager.collectDirty visited s) as [[dp dl] s1|e s1|]; [subst s1|done..].
  intros Hrun. exists dp, dl. split; [done|].
  unfold bind at 1 in Hrun. destruct dp as [|p dp].
  - rewrite decide_False in Hrun by (simpl; lia). simpl in Hrun.
    pose proof (clearDirty_file dl s) as Hf.
    rewrite Hrun in Hf. done.
  - rewrite decide_True in Hrun by (simpl; lia).
    unfold bind at 1 in Hrun. unfold Pager.on_file, zoom in Hrun.
    destruct (Pager.File_Write r1 r2 (p :: dp) (Pager.file s)) as [[] f'|e f'|];
      [|done..].
    unfold bind, get, modify in Hrun. simpl in Hrun.
    match type of Hrun with for_each ?b dl ?s1 = _ =>
      pose proof (clearDirty_file dl s1) as Hf end.
    rewrite Hrun in Hf. simpl in Hf. by rewrite Hf.
Qed.

(** C7, as the code has it. A successful [DbFile.Write] sets the file
    change counter to the 32-bit sum of its old value and 1, which is the old
    value plus 1 unless that was [2^32 - 1]. [DbFile.Read], [WAL.Read],
    [WAL.Write] and a [Checkpoint] of an empty buffer leave it as it was; a
    successful [Checkpoint] of a non-empty buffer adds 1 once. A successful
    flush of a pager over a DbFile adds 1 once when some page is dirty and
    leaves the counter alone when none is; a flush of a pager over a WAL
    leaves the DbFile, and with it the counter, as it was. *)
Theorem C7_change_counter :
  (∀ d pages d', DbFile.Write pages d = Ok tt d' →
     FileHeader.FileChangeCounter (DbFile.header d')
     = uint32 (FileHeader.FileChangeCounter (DbFile.header d) + 1)
     ∧ (0 ≤ FileHeader.FileChangeCounter (DbFile.header d) < 4294967295 →
        FileHeader.FileChangeCounter (DbFile.header d')
        = FileHeader.FileChangeCounter (DbFile.header d) + 1))
  ∧ (∀ d page r d', DbFile.Read page d = Ok r d' → DbFile.header d' = DbFile.header d)
  ∧ (∀ w page r w', WAL.Read page w = Ok r w' →
       DbFile.header (WAL.dbFile w') = DbFile.header (WAL.dbFile w))
  ∧ (∀ w r1 r2 pages w', WAL.Write r1 r2 pages w = Ok tt w' →
       WAL.dbFile w' = WAL.dbFile w)
  ∧ (∀ w w', WAL.Checkpoint [] w = Ok tt w' → WAL.dbFile w' = WAL.dbFile w)
  ∧ (∀ w v visited w', WAL.Checkpoint (v :: visited) w = Ok tt w' →
       FileHeader.FileChangeCounter (DbFile.header (WAL.dbFile w'))
       = uint32 (FileHeader.FileChangeCounter (DbFile.header (WAL.dbFile w)) + 1))
  ∧ (∀ s r1 r2 visited s' d, Pager.Flush r1 r2 visited s = Ok tt s' →
       Pager.file s = Pager.OnDbFile d →
       ∃ dirtyPages locs d',
         Pager.collectDirty visited s = Ok (dirtyPages, locs) s
         ∧ Pager.file s' = Pager.OnDbFile d'
         ∧ FileHeader.FileChangeCounter (DbFile.header d')
           = match dirtyPages with
             | [] => FileHeader.FileChangeCounter (DbFile.header d)
             | _ => uint32 (FileHeader.FileChangeCounter (DbFile.header d) + 1)
             end)
  ∧ (∀ s r1 r2 visited s' w, Pager.Flush r1 r2 visited s = Ok tt s' →
       Pager.file s = Pager.OnWAL w →
       ∃ w', Pager.file s' = Pager.OnWAL w' ∧ WAL.dbFile w' = WAL.dbFile w).
Proof.
  split_and!.
  - intros d pages d' Hw. pose proof (Write_counter _ _ _ Hw) as Hc.
    split; [done|]. intros Hr. rewrite Hc. apply uint32_small. lia.
  - intros d page r d' Hr. pose proof (DbFile_Read_header page d) as H.
    by rewrite Hr in H.
  - intros w page r w' Hr. pose proof (WAL_Read_header page w) as H.
    by rewrite Hr in H.
  - intros w r1 r2 pages w'. apply Write_keeps_dbFile.
  - intros w w'. rewrite Checkpoint_eq. by intros [= <-].
  - intros w v visited w'. rewrite Checkpoint_eq.
    destruct (DbFile.Write _ _) as [[] d| |] eqn:Hw; [|done..].
    intros [= <-]. simpl. by apply Write_counter in Hw.
  - intros s r1 r2 visited s' d Hrun Hfile.
    destruct (Flush_file _ _ _ _ _ Hrun) as (dp & dl & Hcol & Hf).
    rewrite Hfile in Hf. destruct dp as [|p dp].
    + exists [], dl, d. by rewrite Hf.
    + simpl in Hf. destruct (DbFile.Write (p :: dp) d) as [[] d'| |] eqn:Hw; [|done..].
      simpl in Hf. injection Hf as Hf. exists (p :: dp), dl, d'.
      split_and!; [done.. |]. by apply Write_counter in Hw.
  - intros s r1 r2 visited s' w Hrun Hfile.
    destruct (Flush_file _ _ _ _ _ Hrun) as (dp & dl & Hcol & Hf).
    rewrite Hfile in Hf. destruct dp as [|p dp].
    + exists w. by rewrite Hf.
    + simpl in Hf. destruct (WAL.Write r1 r2 (p :: dp) w) as [[] w'| |] eqn:Hw; [|done..].
      simpl in Hf. injection Hf as Hf. exists w'. split; [done|].
      by apply Write_keeps_dbFile in Hw.
Qed.

End C7.

Section C7_counterexample.
Import Storage StorageSpec Samples Samples2.

(** C7 fails as stated. (1) A database file whose header holds the counter
    [2^32 - 1] is opened and written: the write succeeds and the counter is 0,
    not the old value plus 1. (2) In the engine's arrangement, a pager over
    the WAL, one record is inserted and the pager flushed: the flush succeeds
    as a [WAL.Write] and the counter of the DbFile is what it was. *)
Lemma C7_counterexample :
  let d' := state_of no_db (DbFile.Write [] db_at_max) in
  let s1 := state_of pager_on_wal
              (Pager.Insert (codec := SampleCodec.codec) (Pager.mkBTreeTable 1)
                 (SampleCodec.mk 1 [1; 2; 3]) pager_on_wal) in
  let s2 := state_of s1 (Pager.Flush 11 12 (map_to_list (Pager.pageCache s1)) s1) in
  (DbFile.OpenDbFile file_at_max 1024 = Ok db_at_max file_at_max
   ∧ DbFile.Write [] db_at_max = Ok tt d'
   ∧ FileHeader.FileChangeCounter (DbFile.header db_at_max) = 4294967295
   ∧ FileHeader.FileChangeCounter (DbFile.header d') = 0
   ∧ FileHeader.FileChangeCounter (DbFile.header d')
     ≠ FileHeader.FileChangeCounter (DbFile.header db_at_max) + 1)
  ∧ (Pager.Insert (codec := SampleCodec.codec) (Pager.mkBTreeTable 1)
       (SampleCodec.mk 1 [1; 2; 3]) pager_on_wal = Ok tt s1
     ∧ Pager.Flush 11 12 (map_to_list (Pager.pageCache s1)) s1 = Ok tt s2
     ∧ FileHeader.FileChangeCounter (DbFile.header (db_under pager_on_wal)) = 1
     ∧ FileHeader.FileChangeCounter (DbFile.header (db_under s2)) = 1
     ∧ FileHeader.FileChangeCounter (DbFile.header (db_under s2))
       ≠ FileHeader.FileChangeCounter (DbFile.header (db_under pager_on_wal)) + 1).
Proof. by_compute. Qed.

End C7_counterexample.

(** ** C3: after a checkpoint the DbFile holds the buffered pages *)

Section C3.
Import Storage StorageSpec Samples.

Lemma holds_pwrite c o b : 0 ≤ o → holds (OsFile.pwrite c o b) o b.
Proof. intros Ho k Hk. by apply pwrite_lookup_in. Qed.


Lemma holds_take c o b :
  holds c o b → take (length b) (drop (Z.to_nat o) c) = b.
Proof.
  intros Hh. apply list_eq. intros k. destruct (decide (k < length b)%nat).
  - rewrite lookup_take_lt, lookup_drop by done. by apply Hh.
  - rewrite lookup_take_ge by lia. symmetry. apply lookup_ge_None. lia.
Qed.








End C3.
(** ** DbFile: what is written is what is read *)

Section DbFileRoundTrip.
Import Storage StorageSpec Samples.

(** Overwriting the tail of a buffer. *)
Lemma inserts_tail (l bs : list byte) (i : nat) :
  (i + length bs = length l)%nat → list_inserts i bs l = take i l ++ bs.
Proof.
  intros Hlen. apply list_eq. intros j.
  destruct (decide (j < i)%nat).
  - rewrite inserts_lookup_out by lia.
    rewrite lookup_app_l by (rewrite length_take; lia).
    by rewrite lookup_take_lt.
  - rewrite lookup_app_r by (rewrite length_take; lia).
    rewrite length_take, Nat.min_l by lia.
    destruct (decide (j < i + length bs)%nat).
    + replace j with (i + (j - i))%nat at 1 by lia.
      apply inserts_lookup_in; lia.
    + rewrite inserts_lookup_out by lia.
      rewrite (lookup_ge_None_2 l) by lia. symmetry. apply lookup_ge_None. lia.
Qed.






End DbFileRoundTrip.
(** ** Checkpoint: the buffered pages reach the DbFile *)

Section CheckpointFacts.
Import Storage StorageSpec Samples.




End CheckpointFacts.

Section CheckpointWitness.
Import Storage StorageSpec Samples Samples3.



End CheckpointWitness.
(** ** WAL: frames and the layout of the log *)

Section WALLog.
Import Storage StorageSpec LogSpec Samples.


Lemma holds_app c o a b :
  holds c o a → holds c (o + len a) b → 0 ≤ o → holds c o (a ++ b).
Proof.
  intros Ha Hb Ho k Hk. rewrite length_app in Hk.
  destruct (decide (k < length a)%nat).
  - rewrite lookup_app_l by done. by apply Ha.
  - rewrite lookup_app_r by lia. rewrite <- (Hb (k - length a)%nat) by lia.
    f_equal. lia.
Qed.

Lemma holds_nil c o : holds c o [].
Proof. intros k Hk. simpl in Hk. lia. Qed.

(** The bytes a file holds below the length of what it held stay where a
    later append leaves them. *)
Lemma holds_kept c c' o b :
  holds c o b → 0 ≤ o →
  (∀ j : nat, Z.of_nat j < o + len b → (j < length c)%nat → c' !! j = c !! j) →
  holds c' o b.
Proof.
  intros Hh Ho Hk k Hlt. rewrite <- (Hh k Hlt). apply Hk; [lia|].
  apply lookup_lt_is_Some. rewrite (Hh k Hlt). by apply lookup_lt_is_Some.
Qed.

Lemma uint32_add_l a b : uint32 (uint32 a + b) = uint32 (a + b).
Proof. unfold uint32. by rewrite Zplus_mod_idemp_l. Qed.

Lemma uint32_add_r a b : uint32 (a + uint32 b) = uint32 (a + b).
Proof. unfold uint32. by rewrite Zplus_mod_idemp_r. Qed.

(** The loop of [WAL.Write], run from index [i] with [n - i] pages left. *)
Lemma writePages_log pages : ∀ n i w w',
  n - i = len pages →
  0 ≤ OsFile.offset (WAL.file w) →
  WAL.writePages n i pages w = Ok tt w' →
  holds (OsFile.bytes (WAL.file w')) (OsFile.offset (WAL.file w))
    (log_of (WAL.salt1 w) (WAL.salt2 w) pages)
  ∧ OsFile.offset (WAL.file w')
    = OsFile.offset (WAL.file w) + len (log_of (WAL.salt1 w) (WAL.salt2 w) pages)
  ∧ WAL.pos w' = (if pages is [] then WAL.pos w
                  else uint32 (WAL.pos w + len (log_of (WAL.salt1 w) (WAL.salt2 w) pages))).
Proof.
  induction pages as [|p rest IH]; intros n i w w' Hn Hoff Hrun.
  - injection Hrun as <-. simpl. split_and!; [apply holds_nil | lia | done].
  - rewrite writePages_cons in Hrun.
    destruct (WAL.makeWalFrame _ _ _ _) as [frame|] eqn:Hframe; [|done].
    apply makeWalFrame_Some in Hframe.
    destruct (buffered_fields p w) as (Hf & _ & _ & Hs1 & Hs2 & _).
    assert (bool_decide (i = n - 1) = match rest with [] => true | _ => false end) as Hlast.
    { rewrite length_cons in Hn. destruct rest; simpl in *.
      - apply bool_decide_eq_true. lia.
      - apply bool_decide_eq_false. lia. }
    assert (frame = frame_of (WAL.salt1 w) (WAL.salt2 w) p
                      (match rest with [] => true | _ => false end)) as Hfr.
    { rewrite Hframe, Hlast. unfold frameHeader, frame_of, frame_header.
      by rewrite Hs1, Hs2. }
    clear Hframe Hlast.
    set (w1 := appended frame (buffered p w)) in *.
    assert (OsFile.offset (WAL.file w1) = OsFile.offset (WAL.file w) + len frame) as Ho1.
    { unfold w1, appended. cbn [WAL.file WAL.set_pos WAL.set_file OsFile.offset].
      by rewrite Hf. }
    assert (OsFile.bytes (WAL.file w1)
            = OsFile.pwrite (OsFile.bytes (WAL.file w)) (OsFile.offset (WAL.file w)) frame)
      as Hb1.
    { unfold w1, appended. cbn [WAL.file WAL.set_pos WAL.set_file OsFile.bytes].
      by rewrite Hf. }
    assert (WAL.salt1 w1 = WAL.salt1 w ∧ WAL.salt2 w1 = WAL.salt2 w) as [Hs1' Hs2'].
    { unfold w1, appended. cbn [WAL.salt1 WAL.salt2 WAL.set_pos WAL.set_file]. done. }
    assert (WAL.pos w1 = uint32 (WAL.pos w + uint32 (len frame))) as Hp1.
    { unfold w1, appended. cbn [WAL.pos WAL.set_pos WAL.set_file].
      unfold buffered. cbv zeta.
      match goal with |- context [decide ?P] => destruct (decide P) end; reflexivity. }
    destruct (IH n (i + 1) w1 w') as (Hh & Ho & Hp); [rewrite length_cons in Hn; lia|lia|done|].
    destruct (writePages_appends _ _ _ _ _ Hrun) as (_ & _ & Hkeep); [lia|].
    rewrite Hs1', Hs2', Ho1 in *.
    cbn [log_of]. rewrite <- Hfr. rewrite length_app.
    split_and!.
    + apply holds_app; [|done|done].
      apply (holds_kept (OsFile.bytes (WAL.file w1))); [|done|].
      * rewrite Hb1. by apply holds_pwrite.
      * intros j Hj Hlt. apply Hkeep; [lia|done].
    + lia.
    + rewrite Hp, Hp1. destruct rest; simpl.
      * rewrite uint32_add_r. f_equal. lia.
      * rewrite uint32_add_r, uint32_add_l. f_equal. rewrite !length_app. simpl. lia.
Qed.

(** X4. After a successful [WAL.Write] the log file holds, from the place the
    batch started at (offset 32 when the call wrote the WAL header, the offset
    of the descriptor otherwise), the frames of the batch in the order of the
    input slice, each with the salts of the WAL, the last one and only the
    last one with commit flag 1; the descriptor is at the end of them; the
    append position has advanced by their length as a 32-bit number, and it
    equals the descriptor's offset modulo [2^32] whenever it did so, or was 0,
    before the call. The append position is a [uint32]. *)
Theorem WAL_Write_log
    (w : WAL.t) (r1 r2 : Z) (pages : list Page) (w' : WAL.t) :
  0 ≤ OsFile.offset (WAL.file w) →
  0 ≤ WAL.pos w < 4294967296 →
  WAL.Write r1 r2 pages w = Ok tt w' →
  take (length (log_of (WAL.salt1 w') (WAL.salt2 w') pages))
    (drop (Z.to_nat (log_start w)) (OsFile.bytes (WAL.file w')))
  = log_of (WAL.salt1 w') (WAL.salt2 w') pages
  ∧ OsFile.offset (WAL.file w')
    = log_start w + len (log_of (WAL.salt1 w') (WAL.salt2 w') pages)
  ∧ WAL.pos w'
    = uint32 (pos_start w + len (log_of (WAL.salt1 w') (WAL.salt2 w') pages))
  ∧ (WAL.pos w = 0 ∨ WAL.pos w = uint32 (OsFile.offset (WAL.file w)) →
     WAL.pos w' = uint32 (OsFile.offset (WAL.file w'))).
Proof.
  intros Hoff Hpos. rewrite Write_eq. intros Hrun.
  unfold log_start, pos_start, WAL.WALHeaderLen.
  set (w0 := if decide (WAL.pos w = 0) then new_generation r1 r2 w else w) in *.
  assert (OsFile.offset (WAL.file w0)
          = if decide (WAL.pos w = 0) then 32 else OsFile.offset (WAL.file w)) as Ho0.
  { unfold w0. case_decide; [apply new_generation_offset|done]. }
  assert (WAL.pos w0 = if decide (WAL.pos w = 0) then 32 else WAL.pos w) as Hp0.
  { unfold w0. case_decide; reflexivity. }
  destruct (writePages_keeps _ _ _ _ _ Hrun) as (_ & _ & Hs1 & Hs2 & _).
  destruct (writePages_log pages (len pages) 0 w0 w') as (Hh & Ho & Hp);
    [lia | rewrite Ho0; case_decide; lia | done |].
  rewrite <- Hs1, <- Hs2 in *. rewrite Ho0 in *. rewrite Hp0 in Hp.
  set (log := log_of (WAL.salt1 w') (WAL.salt2 w') pages) in *.
  split_and!.
  - by apply holds_take.
  - done.
  - rewrite Hp. destruct pages as [|p rest] eqn:Hpg; [|done].
    subst log. cbn [log_of length]. rewrite Z.add_0_r.
    case_decide as Hz; [done|]. symmetry. by apply uint32_small.
  - intros Hinv. rewrite Ho, Hp.
    destruct (decide (WAL.pos w = 0)) as [Hz|Hz].
    + destruct pages; [|done]. done.
    + destruct Hinv as [?|Hinv]; [done|]. destruct pages as [|p rest] eqn:Hpg.
      * subst log. cbn [log_of length]. by rewrite Z.add_0_r.
      * rewrite Hinv. apply uint32_add_l.
Qed.

(** Two pages written to the WAL just opened. *)
Lemma WAL_Write_log_witness :
  let pages := [mkPage 1 (replicate 1024 7); mkPage 2 (replicate 1024 9)] in
  let w' := state_of wal_init (WAL.Write 11 12 pages wal_init) in
  take (length (log_of (WAL.salt1 w') (WAL.salt2 w') pages))
    (drop (Z.to_nat (log_start wal_init)) (OsFile.bytes (WAL.file w')))
  = log_of (WAL.salt1 w') (WAL.salt2 w') pages
  ∧ OsFile.offset (WAL.file w')
    = log_start wal_init + len (log_of (WAL.salt1 w') (WAL.salt2 w') pages)
  ∧ WAL.pos w'
    = uint32 (pos_start wal_init + len (log_of (WAL.salt1 w') (WAL.salt2 w') pages))
  ∧ (WAL.pos wal_init = 0
     ∨ WAL.pos wal_init = uint32 (OsFile.offset (WAL.file wal_init)) →
     WAL.pos w' = uint32 (OsFile.offset (WAL.file w'))).
Proof.
  intros pages w'.
  apply (WAL_Write_log wal_init 11 12 pages w').
  - vm_compute. discriminate.
  - vm_compute. split; [discriminate | reflexivity].
  - vm_compute. reflexivity.
Defined.

End WALLog.
(** ** WAL: outcomes of Write and Checkpoint *)

Section WALOutcomes.
Import Storage StorageSpec Samples.






(** What the loop of [WAL.Write] does to [totalPages]. *)
Lemma writePages_totalPages pages : ∀ n i w w',
  WAL.writePages n i pages w = Ok tt w' →
  WAL.totalPages w' = foldl (fun acc p => Z.max acc (PageNumber p)) (WAL.totalPages w) pages.
Proof.
  induction pages as [|p rest IH]; intros n i w w' Hrun.
  - by injection Hrun as <-.
  - rewrite writePages_cons in Hrun.
    destruct (WAL.makeWalFrame _ _ _ _) as [frame|]; [|done].
    rewrite (IH _ _ _ _ Hrun). cbn [foldl]. f_equal.
    unfold appended, buffered. cbv zeta.
    cbn [WAL.totalPages WAL.set_pos WAL.set_file WAL.set_pageCache].
    match goal with |- context [decide ?P] => destruct (decide P) end;
      cbn [WAL.totalPages WAL.set_totalPages WAL.set_pageCache]; lia.
Qed.

Lemma foldl_max_spec (pages : list Page) : ∀ t,
  t ≤ foldl (fun acc p => Z.max acc (PageNumber p)) t pages
  ∧ (∀ p, p ∈ pages → PageNumber p ≤ foldl (fun acc p => Z.max acc (PageNumber p)) t pages)
  ∧ (foldl (fun acc p => Z.max acc (PageNumber p)) t pages = t
     ∨ ∃ p, p ∈ pages ∧ foldl (fun acc p => Z.max acc (PageNumber p)) t pages = PageNumber p).
Proof.
  induction pages as [|q rest IH]; intros t; cbn [foldl].
  - split_and!; [lia | by intros p ?%elem_of_nil | by left].
  - destruct (IH (Z.max t (PageNumber q))) as (Hge & Hall & Hone). split_and!.
    + lia.
    + intros p [->|Hp]%elem_of_cons; [lia | by apply Hall].
    + destruct Hone as [Heq|(p & Hp & Heq)].
      * rewrite Heq. destruct (Z.max_spec t (PageNumber q)) as [[_ ->]|[_ ->]].
        -- right. exists q. split; [by left|done].
        -- by left.
      * right. exists p. split; [by right|done].
Qed.

(** X6. After a successful [WAL.Write], [TotalPages] is the largest of its old
    value and the page numbers of the batch: it does not shrink, no page of
    the batch lies beyond it, and it is the old value or the number of a page
    of the batch. *)
Theorem WAL_Write_TotalPages
    (w : WAL.t) (r1 r2 : Z) (pages : list Page) (w' : WAL.t) :
  WAL.Write r1 r2 pages w = Ok tt w' →
  WAL.TotalPages w ≤ WAL.TotalPages w'
  ∧ (∀ p, p ∈ pages → PageNumber p ≤ WAL.TotalPages w')
  ∧ (WAL.TotalPages w' = WAL.TotalPages w
     ∨ ∃ p, p ∈ pages ∧ WAL.TotalPages w' = PageNumber p).
Proof.
  rewrite Write_eq. intros Hrun%writePages_totalPages. unfold WAL.TotalPages.
  replace (WAL.totalPages (if decide (WAL.pos w = 0) then new_generation r1 r2 w else w))
    with (WAL.totalPages w) in Hrun by (by case_decide).
  rewrite Hrun. apply foldl_max_spec.
Qed.

(** Page 5 written through a WAL whose database has one page. *)
Lemma WAL_Write_TotalPages_witness :
  let pages := [mkPage 5 (replicate 1024 7)] in
  let w' := state_of wal_init (WAL.Write 11 12 pages wal_init) in
  WAL.TotalPages wal_init ≤ WAL.TotalPages w'
  ∧ (∀ p, p ∈ pages → PageNumber p ≤ WAL.TotalPages w')
  ∧ (WAL.TotalPages w' = WAL.TotalPages wal_init
     ∨ ∃ p, p ∈ pages ∧ WAL.TotalPages w' = PageNumber p).
Proof.
  intros pages w'.
  apply (WAL_Write_TotalPages wal_init 11 12 pages w').
  vm_compute. reflexivity.
Defined.

(** A failed [DbFile.Write] under [Checkpoint]. *)
Lemma Write_gap_first page rest d :
  PageNumber page > DbFile.TotalPages d + 1 →
  DbFile.Write (page :: rest) d = Err ErrGapInPages d.
Proof.
  intros Hgap. unfold DbFile.Write. cbn [for_each]. unfold bind at 1 2.
  rewrite writePage_gap by done. done.
Qed.

(** X7. When the first page [Checkpoint] comes to (Go visits the buffer in an
    unspecified order) lies beyond [TotalPages + 1] of the DbFile, the
    checkpoint returns the gap error of [DbFile.Write] and leaves the WAL as
    it was: nothing has reached the DbFile, the buffer is intact and the
    append position has not been reset. *)
Theorem Checkpoint_gap
    (w : WAL.t) (n : Z) (data : list byte) (rest : list (Z * list byte)) :
  n > DbFile.TotalPages (WAL.dbFile w) + 1 →
  WAL.Checkpoint ((n, data) :: rest) w = Err ErrGapInPages w.
Proof.
  intros Hgap. rewrite Checkpoint_eq. rewrite fmap_cons.
  rewrite Write_gap_first by done. by destruct w.
Qed.

End WALOutcomes.

Section CheckpointGapWitness.
Import Storage StorageSpec Samples Samples3.

(** The buffer holds pages 2 and 3 over a database of one page: visited
    from page 3 the checkpoint fails, visited from page 2 it succeeds. *)
Lemma Checkpoint_gap_witness :
  let A : list byte := replicate 1024 7 in
  let B : list byte := replicate 1024 9 in
  WAL.visits wal_gap [(3, B); (2, A)]
  ∧ WAL.visits wal_gap [(2, A); (3, B)]
  ∧ WAL.Checkpoint [(3, B); (2, A)] wal_gap = Err ErrGapInPages wal_gap
  ∧ ∃ w', WAL.Checkpoint [(2, A); (3, B)] wal_gap = Ok tt w'.
Proof.
  intros A B.
  assert (map_to_list (WAL.pageCache wal_gap) ≡ₚ [(2, A); (3, B)]) as Hl.
  { vm_compute. first [reflexivity | apply perm_swap]. }
  split_and!.
  - unfold WAL.visits. rewrite Hl. apply perm_swap.
  - unfold WAL.visits. by rewrite Hl.
  - apply (Checkpoint_gap wal_gap 3 B [(2, A)]). vm_compute. reflexivity.
  - eexists. vm_compute. reflexivity.
Defined.

End CheckpointGapWitness.
(** ** DbFile: TotalPages, short reads, reopening *)

Section DbFileMore.
Import Storage StorageSpec ReadSpec Samples.

Lemma writePages_totalPages_db pages : ∀ d d1,
  for_each DbFile.writePage pages d = Ok tt d1 →
  DbFile.totalPages d1
  = foldl (fun acc p => Z.max acc (PageNumber p)) (DbFile.totalPages d) pages
  ∧ DbFile.totalPages d1 ≤ DbFile.totalPages d + len pages.
Proof.
  induction pages as [|p rest IH]; intros d d1 Hrun.
  - injection Hrun as <-. simpl. split; [done|lia].
  - cbn [for_each] in Hrun. unfold bind in Hrun.
    destruct (DbFile.writePage p d) as [[] d0| |] eqn:Hp; [|done..].
    apply writePage_Ok in Hp as (Hgap & _ & body & _ & ->).
    destruct (IH _ _ Hrun) as [Heq Hle]. cbn [DbFile.totalPages] in Heq, Hle.
    cbn [foldl]. rewrite length_cons. split; [done|lia].
Qed.

(** X8. After a successful [DbFile.Write], [TotalPages] is the maximum of its
    old value and the page numbers written; because of the gap check it has
    grown by at most the number of pages written; the header written to the
    file carries it as a 32-bit number. *)
Theorem DbFile_Write_TotalPages (d : DbFile.t) (pages : list Page) (d' : DbFile.t) :
  DbFile.Write pages d = Ok tt d' →
  DbFile.TotalPages d ≤ DbFile.TotalPages d' ≤ DbFile.TotalPages d + len pages
  ∧ (∀ p, p ∈ pages → PageNumber p ≤ DbFile.TotalPages d')
  ∧ (DbFile.TotalPages d' = DbFile.TotalPages d
     ∨ ∃ p, p ∈ pages ∧ DbFile.TotalPages d' = PageNumber p)
  ∧ FileHeader.SizeInPages (DbFile.header d') = uint32 (DbFile.TotalPages d').
Proof.
  intros (d1 & Hloop & ->)%Write_Ok. unfold DbFile.TotalPages.
  cbn [DbFile.totalPages DbFile.header].
  destruct (writePages_totalPages_db _ _ _ Hloop) as [Heq Hle]. rewrite Heq in *.
  destruct (foldl_max_spec pages (DbFile.totalPages d)) as (Hge & Hall & Hone).
  split_and!; try done. unfold next_header. cbn [FileHeader.SizeInPages].
  by rewrite Heq.
Qed.

(** Pages 1, 2 and 3 written to a database file just created. *)
Lemma DbFile_Write_TotalPages_witness :
  let pages := [mkPage 1 (zeros 1024); mkPage 2 (zeros 1024); mkPage 3 (zeros 1024)] in
  let d' := state_of db_new (DbFile.Write pages db_new) in
  DbFile.TotalPages db_new ≤ DbFile.TotalPages d' ≤ DbFile.TotalPages db_new + len pages
  ∧ (∀ p, p ∈ pages → PageNumber p ≤ DbFile.TotalPages d')
  ∧ (DbFile.TotalPages d' = DbFile.TotalPages db_new
     ∨ ∃ p, p ∈ pages ∧ DbFile.TotalPages d' = PageNumber p)
  ∧ FileHeader.SizeInPages (DbFile.header d') = uint32 (DbFile.TotalPages d').
Proof.
  intros pages d'.
  apply (DbFile_Write_TotalPages db_new pages d').
  vm_compute. reflexivity.
Defined.

Lemma inserts_head (l bs : list byte) :
  (length bs ≤ length l)%nat → list_inserts 0 bs l = bs ++ drop (length bs) l.
Proof.
  intros Hlen. apply list_eq. intros j.
  destruct (decide (j < length bs)%nat).
  - rewrite lookup_app_l by done.
    replace j with (0 + j)%nat at 1 by lia. apply inserts_lookup_in; lia.
  - rewrite inserts_lookup_out by lia. rewrite lookup_app_r by lia.
    rewrite lookup_drop. f_equal. lia.
Qed.




End DbFileMore.
(** ** checkSum *)

Section CheckSum.
Import Storage.

Lemma uint32_range v : 0 ≤ uint32 v < 4294967296.
Proof. unfold uint32. apply Z.mod_pos_bound. lia. Qed.

(** The loop reads [x] chunks of 8 bytes; it needs [8 * x] bytes and looks
    at no byte after them. *)
Lemma checkSumLoop_total order (x : nat) : ∀ b s0 s1,
  8 * Z.of_nat x ≤ len b →
  ∃ r, WAL.checkSumLoop order b x s0 s1 = Some r
    ∧ ((0 < x)%nat → 0 ≤ r.1 < 4294967296 ∧ 0 ≤ r.2 < 4294967296)
    ∧ ∀ t, WAL.checkSumLoop order (take (8 * x) b ++ t) x s0 s1 = Some r.
Proof.
  induction x as [|x IH]; intros b s0 s1 Hlen.
  - eexists. split_and!; [done | lia | done].
  - cbn [WAL.checkSumLoop].
    rewrite !load_Some by lia. cbn [mbind option_bind].
    set (a := uint32 (s0 + _)). set (c := uint32 (s1 + _)).
    destruct (IH (drop 8 b) a c) as (r & Hr & Hrange & Htail).
    { rewrite length_drop. lia. }
    exists r. split_and!; [done| |].
    + intros _. destruct x as [|x].
      * injection Hr as <-. split; apply uint32_range.
      * apply Hrange. lia.
    + intros t.
      assert (length (take (8 * S x) b) = (8 * S x)%nat) as Hlt
        by (rewrite length_take; lia).
      rewrite !load_Some by (rewrite ?length_app, ?Hlt; lia).
      cbn [mbind option_bind].
      assert (∀ k, (k + 4 ≤ 8)%nat →
                take 4 (drop k (take (8 * S x) b ++ t)) = take 4 (drop k b)) as Hsame.
      { intros k Hk. apply list_eq. intros j. destruct (decide (j < 4)%nat).
        - rewrite !lookup_take_lt, !lookup_drop by done.
          rewrite lookup_app_l by lia. apply lookup_take_lt. lia.
        - by rewrite !lookup_take_ge by lia. }
      change (Z.to_nat 4) with 4%nat. change (Z.to_nat 0) with 0%nat.
      rewrite (Hsame 0%nat), (Hsame 4%nat) by lia.
      fold a c. rewrite <- (Htail t). f_equal.
      rewrite drop_app_le by lia. f_equal.
      rewrite take_drop_commute. f_equal. f_equal. lia.
Qed.

(** X10. [checkSum] never panics. It returns its error exactly when the number
    of whole 8-byte chunks of the input is even; otherwise it returns two
    32-bit numbers, which depend only on those whole chunks: bytes after the
    last whole chunk are ignored. *)
Theorem checkSum_outcome (order : list byte → Z) (b : list byte) (s0 s1 : Z) :
  ((len b / 8) mod 2 = 0 → WAL.checkSum order b s0 s1 = Some (inl ErrChecksumShape))
  ∧ ((len b / 8) mod 2 ≠ 0 →
     ∃ r0 r1, WAL.checkSum order b s0 s1 = Some (inr (r0, r1))
       ∧ 0 ≤ r0 < 4294967296 ∧ 0 ≤ r1 < 4294967296
       ∧ WAL.checkSum order (take (Z.to_nat (8 * (len b / 8))) b) s0 s1
         = Some (inr (r0, r1))).
Proof.
  unfold WAL.checkSum. cbv zeta. split.
  - intros Heven. by rewrite decide_True.
  - intros Hodd. rewrite decide_False by done.
    set (x := len b / 8) in *.
    assert (0 ≤ x ∧ 8 * x ≤ len b) as [Hx0 Hx8].
    { unfold x. pose proof (Z.div_mod (len b) 8 ltac:(lia)).
      pose proof (Z.mod_pos_bound (len b) 8 ltac:(lia)).
      split; [apply Z.div_pos; lia | lia]. }
    assert (0 < x) as Hpos.
    { destruct (decide (x = 0)) as [Hz|]; [|lia]. by rewrite Hz in Hodd. }
    destruct (checkSumLoop_total order (Z.to_nat x) b s0 s1) as ([r0 r1] & Hr & Hrange & Htail);
      [lia|].
    exists r0, r1. rewrite Hr. cbn [fmap option_fmap option_map].
    destruct Hrange as [? ?]; [lia|]. cbn [fst snd] in *.
    split; [done|]. split; [done|]. split; [done|].
    assert (len (take (Z.to_nat (8 * x)) b) / 8 = x) as Hx'.
    { rewrite length_take, Nat.min_l by lia. rewrite Z2Nat.id by lia.
      rewrite Z.mul_comm. apply Z.div_mul. lia. }
    rewrite Hx'. rewrite decide_False by done.
    specialize (Htail []). rewrite app_nil_r in Htail.
    replace (8 * Z.to_nat x)%nat with (Z.to_nat (8 * x)) in Htail by lia.
    by rewrite Htail.
Qed.

End CheckSum.
(** ** Reopening a database file *)

Section Reopen.
Import Storage StorageSpec Samples.

Lemma take_drop_load (l : list byte) (off n : nat) (bs : list byte) :
  load l (Z.of_nat off) (Z.of_nat n) = Some bs → take n (drop off l) = bs.
Proof.
  unfold load. case_decide; [|done]. rewrite !Nat2Z.id. by intros [= <-].
Qed.

(** The three fields [ParseFileHeader] reads are the ones [to_bytes] wrote. *)
Lemma parse_to_bytes h :
  FileHeader.PageSize (FileHeader.ParseFileHeader (FileHeader.to_bytes h))
  = uint16 (FileHeader.PageSize h)
  ∧ FileHeader.FileChangeCounter (FileHeader.ParseFileHeader (FileHeader.to_bytes h))
    = uint32 (FileHeader.FileChangeCounter h)
  ∧ FileHeader.SizeInPages (FileHeader.ParseFileHeader (FileHeader.to_bytes h))
    = uint32 (FileHeader.SizeInPages h).
Proof.
  unfold FileHeader.ParseFileHeader.
  cbn [FileHeader.PageSize FileHeader.FileChangeCounter FileHeader.SizeInPages].
  unfold FileHeader.to_bytes.
  set (r0 := resize 100 0 (FileHeader.raw h)).
  assert (length r0 = 100%nat) as Hr0 by apply length_resize.
  set (r1 := list_inserts 16 (be16 (FileHeader.PageSize h)) r0).
  assert (length r1 = 100%nat) as Hr1 by (unfold r1; by rewrite length_inserts).
  set (r2 := list_inserts 24 (be32 (FileHeader.FileChangeCounter h)) r1).
  assert (length r2 = 100%nat) as Hr2 by (unfold r2; by rewrite length_inserts).
  set (r3 := list_inserts 28 (be32 (FileHeader.SizeInPages h)) r2).
  assert (length r3 = 100%nat) as Hr3 by (unfold r3; by rewrite length_inserts).
  split_and!.
  - rewrite (take_drop_load r3 16 2 (be16 (FileHeader.PageSize h))); [apply from_be16|].
    transitivity (load r1 16 2).
    + apply load_ext; [congruence|]. intros j Hj. unfold r3, r2.
      rewrite !inserts_lookup_out; [done | simpl; lia ..].
    + apply (load_inserts r0 16 (be16 (FileHeader.PageSize h))). unfold byte in *.
      rewrite Hr0. simpl. lia.
  - rewrite (take_drop_load r3 24 4 (be32 (FileHeader.FileChangeCounter h)));
      [apply from_be32|].
    transitivity (load r2 24 4).
    + apply load_ext; [congruence|]. intros j Hj. unfold r3.
      rewrite !inserts_lookup_out; [done | simpl; lia ..].
    + apply (load_inserts r1 24 (be32 (FileHeader.FileChangeCounter h))).
      unfold byte in *. rewrite Hr1. simpl. lia.
  - rewrite (take_drop_load r3 28 4 (be32 (FileHeader.SizeInPages h)));
      [apply from_be32|].
    apply (load_inserts r2 28 (be32 (FileHeader.SizeInPages h))). unfold byte in *.
    rewrite Hr2. simpl. lia.
Qed.

Lemma uint32_idem v : uint32 (uint32 v) = uint32 v.
Proof. unfold uint32. apply Z.mod_mod. lia. Qed.

Lemma uint16_idem v : uint16 (uint16 v) = uint16 v.
Proof. unfold uint16. apply Z.mod_mod. lia. Qed.

(** X11. [OpenDbFile] on a file a successful [DbFile.Write] has left: it
    succeeds, ignores the page size it is given, and takes from the header
    the page size reduced to 16 bits, [TotalPages] reduced to 32 bits and the
    file change counter as the write left it. (The header has the layout the
    specification gives it.) *)
Theorem OpenDbFile_after_Write
    (d : DbFile.t) (pages : list Page) (d' : DbFile.t) (pageSize : Z) :
  DbFile.Write pages d = Ok tt d' →
  ∃ d'', DbFile.OpenDbFile (DbFile.file d') pageSize = Ok d'' (DbFile.file d')
    ∧ DbFile.PageSize d'' = uint16 (DbFile.PageSize d')
    ∧ DbFile.TotalPages d'' = uint32 (DbFile.TotalPages d')
    ∧ FileHeader.FileChangeCounter (DbFile.header d'')
      = FileHeader.FileChangeCounter (DbFile.header d')
    ∧ FileHeader.FileChangeCounter (DbFile.header d'')
      = uint32 (FileHeader.FileChangeCounter (DbFile.header d) + 1).
Proof.
  intros Hw. pose proof (Write_counter _ _ _ Hw) as Hcount.
  apply Write_Ok in Hw as (d1 & Hloop & ->).
  cbn [DbFile.file DbFile.header] in *.
  set (nh := next_header d1) in *.
  set (c := OsFile.pwrite (OsFile.bytes (DbFile.file d1)) 0 (FileHeader.to_bytes nh)).
  assert (take 100 c = FileHeader.to_bytes nh) as Htake.
  { unfold c. rewrite <- (to_bytes_length nh). apply take_pwrite_0. }
  assert (100 ≤ length c)%nat as Hlen.
  { pose proof (f_equal length Htake) as Hl.
    rewrite length_take, to_bytes_length in Hl. lia. }
  unfold DbFile.OpenDbFile. cbn [OsFile.bytes].
  rewrite decide_True by lia.
  unfold OsFile.ReadAt. cbn [OsFile.bytes].
  rewrite decide_False by lia.
  change (Z.to_nat 100) with 100%nat. change (Z.to_nat 0) with 0%nat.
  rewrite drop_0, Htake.
  rewrite decide_False by (rewrite to_bytes_length; lia).
  eexists. split; [reflexivity|].
  unfold DbFile.PageSize, DbFile.TotalPages.
  cbn [DbFile.pageSize DbFile.totalPages DbFile.header].
  destruct (parse_to_bytes nh) as (Hp & Hc & Hs). rewrite Hp, Hc, Hs.
  unfold nh, next_header.
  cbn [FileHeader.PageSize FileHeader.FileChangeCounter FileHeader.SizeInPages].
  rewrite uint16_idem, !uint32_idem.
  pose proof (writePages_header pages d) as Hh. rewrite Hloop in Hh.
  destruct Hh as [Hh _]. rewrite Hh. split_and!; done.
Qed.

(** The database file after [Initialize], reopened with another page size. *)
Lemma OpenDbFile_after_Write_witness :
  let d' := state_of db_new (DbFile.Write [mkPage 1 (zeros 1024)] db_new) in
  ∃ d'', DbFile.OpenDbFile (DbFile.file d') 4096 = Ok d'' (DbFile.file d')
    ∧ DbFile.PageSize d'' = uint16 (DbFile.PageSize d')
    ∧ DbFile.TotalPages d'' = uint32 (DbFile.TotalPages d')
    ∧ FileHeader.FileChangeCounter (DbFile.header d'')
      = FileHeader.FileChangeCounter (DbFile.header d')
    ∧ FileHeader.FileChangeCounter (DbFile.header d'')
      = uint32 (FileHeader.FileChangeCounter (DbFile.header db_new) + 1).
Proof.
  intros d'.
  apply (OpenDbFile_after_Write db_new [mkPage 1 (zeros 1024)] d' 4096).
  vm_compute. reflexivity.
Defined.

End Reopen.
(** ** Pages: the header round trip, what AddCell does not check, CopyTo *)

Section HeaderRoundTrip.
Import Pager PageSpec PageFacts HeaderSpec.

Lemma load_drop (l : list byte) off k n :
  0 ≤ off → 0 ≤ k → off ≤ len l →
  load (drop (Z.to_nat off) l) k n = load l (off + k) n.
Proof.
  intros Hoff Hk Hle. unfold load. rewrite length_drop.
  destruct (decide (0 ≤ k ∧ 0 ≤ n ∧ k + n ≤ Z.of_nat (length l - Z.to_nat off))) as [H1|H1];
    destruct (decide (0 ≤ off + k ∧ 0 ≤ n ∧ off + k + n ≤ len l)) as [H2|H2];
    try lia; [|done].
  f_equal. rewrite drop_drop. f_equal. f_equal. lia.
Qed.

Lemma load_1_lookup (l : list byte) o x :
  load l o 1 = Some [x] → l !! Z.to_nat o = Some x.
Proof.
  unfold load. case_decide; [|done]. intros [= Ht].
  rewrite <- (Nat.add_0_r (Z.to_nat o)), <- lookup_drop.
  destruct (drop (Z.to_nat o) l); [done|]. by injection Ht as ->.
Qed.

Lemma load_store_other (l : list byte) o bs l' o2 n :
  store l o bs = Some l' →
  o2 + n ≤ o ∨ o + len bs ≤ o2 →
  load l' o2 n = load l o2 n.
Proof.
  intros Hs Hd. apply load_ext; [by apply store_length in Hs|].
  intros j Hj. apply (store_lookup_out _ _ _ _ _ Hs). lia.
Qed.

Lemma uint8_small v : 0 ≤ v < 256 → uint8 v = v.
Proof. intros. unfold uint8. by apply Z.mod_small. Qed.

(** The bytes [updateHeaderData] leaves at the place of the header. *)
Lemma updateHeaderData_loads p p' :
  updateHeaderData p = Some p' →
  let off := headerOffset (pageNumber p) in
  let h := header p in
  header p' = h ∧ pageNumber p' = pageNumber p ∧ dirty p' = dirty p
  ∧ length (data p') = length (data p)
  ∧ off + 8 ≤ len (data p)
  ∧ load (data p') off 1 = Some [uint8 (Type_ h)]
  ∧ load (data p') (off + 1) 2 = Some (be16 (FreeBlock h))
  ∧ load (data p') (off + 3) 2 = Some (be16 (NumCells h))
  ∧ load (data p') (off + 5) 2 = Some (be16 (CellsOffset h))
  ∧ load (data p') (off + 7) 1 = Some [uint8 (FragmentedFreeBytes h)]
  ∧ (is_interior (Type_ h) = true →
     load (data p') (off + 8) 4 = Some (be32 (uint32 (RightPage h)))).
Proof.
  intros Hu off h. unfold updateHeaderData in Hu. fold off h in Hu.
  unfold PutUint8, PutUint16, PutUint32 in Hu.
  destruct (store (data p) off _) as [d1|] eqn:E1; [|done].
  cbn [mbind option_bind] in Hu.
  destruct (store d1 (off + 1) _) as [d2|] eqn:E2; [|done].
  cbn [mbind option_bind] in Hu.
  destruct (store d2 (off + 3) _) as [d3|] eqn:E3; [|done].
  cbn [mbind option_bind] in Hu.
  destruct (store d3 (off + 5) _) as [d4|] eqn:E4; [|done].
  cbn [mbind option_bind] in Hu.
  destruct (store d4 (off + 7) _) as [d5|] eqn:E5; [|done].
  cbn [mbind option_bind] in Hu.
  pose proof (store_length _ _ _ _ E1) as L1.
  pose proof (store_length _ _ _ _ E2) as L2.
  pose proof (store_length _ _ _ _ E3) as L3.
  pose proof (store_length _ _ _ _ E4) as L4.
  pose proof (store_length _ _ _ _ E5) as L5.
  pose proof (store_inv _ _ _ _ E5) as (_ & B5 & _). simpl in B5.
  pose proof (load_store _ _ _ _ E1) as F1.
  pose proof (load_store _ _ _ _ E2) as F2.
  pose proof (load_store _ _ _ _ E3) as F3.
  pose proof (load_store _ _ _ _ E4) as F4.
  pose proof (load_store _ _ _ _ E5) as F5.
  change (len [uint8 (Type_ h)]) with 1 in F1.
  change (len (be16 (FreeBlock h))) with 2 in F2.
  change (len (be16 (NumCells h))) with 2 in F3.
  change (len (be16 (CellsOffset h))) with 2 in F4.
  change (len [uint8 (FragmentedFreeBytes h)]) with 1 in F5.
  assert (load d5 off 1 = Some [uint8 (Type_ h)]
          ∧ load d5 (off + 1) 2 = Some (be16 (FreeBlock h))
          ∧ load d5 (off + 3) 2 = Some (be16 (NumCells h))
          ∧ load d5 (off + 5) 2 = Some (be16 (CellsOffset h))
          ∧ load d5 (off + 7) 1 = Some [uint8 (FragmentedFreeBytes h)])
    as (G1 & G2 & G3 & G4 & G5).
  { split_and!.
    - rewrite (load_store_other _ _ _ _ _ _ E5), (load_store_other _ _ _ _ _ _ E4),
        (load_store_other _ _ _ _ _ _ E3), (load_store_other _ _ _ _ _ _ E2)
        by (simpl; lia). done.
    - rewrite (load_store_other _ _ _ _ _ _ E5), (load_store_other _ _ _ _ _ _ E4),
        (load_store_other _ _ _ _ _ _ E3) by (simpl; lia). done.
    - rewrite (load_store_other _ _ _ _ _ _ E5), (load_store_other _ _ _ _ _ _ E4)
        by (simpl; lia). done.
    - rewrite (load_store_other _ _ _ _ _ _ E5) by (simpl; lia). done.
    - done. }
  destruct (is_interior (Type_ h)) eqn:Hint.
  - destruct (store d5 (off + 8) _) as [d6|] eqn:E6; [|done].
    cbn [mbind option_bind] in Hu. injection Hu as <-.
    pose proof (store_length _ _ _ _ E6) as L6.
    pose proof (load_store _ _ _ _ E6) as F6.
    change (len (be32 (uint32 (RightPage h)))) with 4 in F6.
    cbn [header pageNumber dirty data set_data].
    split_and!; try done; try congruence; try lia;
      try (rewrite (load_store_other _ _ _ _ _ _ E6) by (simpl; lia); done).
  - cbn [mbind option_bind] in Hu. injection Hu as <-.
    cbn [header pageNumber dirty data set_data].
    split_and!; try done; try congruence; lia.
Qed.

(** Parsing the buffer [updateHeaderData] has written to. *)
Lemma FromBytes_written (p p' : MemPage) :
  header_in_range (header p) →
  updateHeaderData p = Some p' →
  FromBytes (pageNumber p) (data p') = Some (set_dirty false p').
Proof.
  intros (Hty & Hfb & Hnc & Hco & Hfr & Hrp) Hu.
  destruct (updateHeaderData_loads _ _ Hu)
    as (Hh & Hn & Hd & Hl & Hfit & G1 & G2 & G3 & G4 & G5 & G6).
  pose proof (headerOffset_nonneg (pageNumber p)) as Hoff.
  set (off := headerOffset (pageNumber p)) in *.
  unfold FromBytes. fold off. unfold slice_from.
  rewrite decide_True by lia. cbn [mbind option_bind].
  assert (drop (Z.to_nat off) (data p') !! 0%nat = Some (Type_ (header p))) as ->.
  { rewrite lookup_drop, Nat.add_0_r. rewrite <- (uint8_small (Type_ (header p))) by done.
    by apply load_1_lookup. }
  cbn [mbind option_bind]. unfold GetUint16, GetUint32.
  rewrite !load_drop by lia. rewrite G2, G3, G4.
  cbn [fmap option_fmap option_map mbind option_bind].
  assert (drop (Z.to_nat off) (data p') !! 7%nat = Some (FragmentedFreeBytes (header p)))
    as ->.
  { rewrite lookup_drop. rewrite <- (uint8_small (FragmentedFreeBytes (header p))) by done.
    replace (Z.to_nat off + 7)%nat with (Z.to_nat (off + 7)) by lia.
    by apply load_1_lookup. }
  cbn [mbind option_bind]. rewrite !from_be16.
  rewrite !uint16_small by done.
  destruct p' as [h' n' d' dirty']. cbn [header pageNumber data] in *. subst h' n'.
  unfold set_dirty. cbn [header pageNumber data].
  destruct (is_interior (Type_ (header p))) eqn:Hint.
  - rewrite (G6 eq_refl). cbn [fmap option_fmap option_map mbind option_bind].
    rewrite from_be32, uint32_idem, uint32_small by done.
    by destruct (header p).
  - cbn [mbind option_bind]. rewrite <- Hrp. by destruct (header p).
Qed.

(** X12. [FromBytes] reads back the header [updateHeaderData] has written, the
    fields being within the ranges of their Go types: the page it returns is
    the page written, marked clean. *)
Theorem FromBytes_updateHeaderData (p p' : MemPage) :
  header_in_range (header p) →
  updateHeaderData p = Some p' →
  FromBytes (pageNumber p) (data p') = Some (set_dirty false p')
  ∧ header p' = header p
  ∧ pageNumber p' = pageNumber p
  ∧ length (data p') = length (data p).
Proof.
  intros Hrange Hu.
  destruct (updateHeaderData_loads _ _ Hu) as (Hh & Hn & _ & Hl & _).
  split_and!; [|exact Hh|exact Hn|exact Hl].
  by apply FromBytes_written.
Qed.

(** An interior page 2 of 64 bytes with right-most pointer 7. *)
Lemma FromBytes_updateHeaderData_witness :
  let h := {| Type_ := PageTypeInternal; FreeBlock := 0; NumCells := 0;
              CellsOffset := 64; FragmentedFreeBytes := 0; RightPage := 7 |} in
  let p := mkMemPage h 2 (zeros 64) true in
  let p' := default p (updateHeaderData p) in
  FromBytes (pageNumber p) (data p') = Some (set_dirty false p')
  ∧ header p' = header p
  ∧ pageNumber p' = pageNumber p
  ∧ length (data p') = length (data p).
Proof.
  intros h p p'.
  apply (FromBytes_updateHeaderData p p').
  - unfold header_in_range. vm_compute. repeat split; discriminate.
  - vm_compute. reflexivity.
Defined.

End HeaderRoundTrip.

Section PageOps.
Import Pager PageSpec PageFacts HeaderSpec.
Context `{codec : Storage.Codec}.

(** X13. No method of a page resizes its buffer or renumbers it; [AddCell],
    [SetHeader] and [CopyTo] leave the page dirty, also when the cell does not
    fit. *)
Theorem page_methods_keep_buffer :
  (∀ p cell p', AddCell p cell = Some p' →
     length (data p') = length (data p) ∧ pageNumber p' = pageNumber p
     ∧ dirty p' = true ∧ Type_ (header p') = Type_ (header p)
     ∧ NumCells (header p') = uint16 (NumCells (header p) + 1))
  ∧ (∀ h p p', SetHeader h p = Some p' →
       length (data p') = length (data p) ∧ pageNumber p' = pageNumber p
       ∧ dirty p' = true ∧ header p' = h)
  ∧ (∀ p dst,
       length (data (CopyTo p dst)) = length (data dst)
       ∧ pageNumber (CopyTo p dst) = pageNumber dst
       ∧ dirty (CopyTo p dst) = true ∧ header (CopyTo p dst) = header p).
Proof.
  split_and!.
  - intros p cell p' Hadd. unfold AddCell in Hadd. cbv zeta in Hadd.
    destruct (PutUint16 _ _ _) as [d1|] eqn:E1; [|done].
    cbn [mbind option_bind] in Hadd.
    destruct (copy_at d1 _ cell) as [d2|] eqn:E2; [|done].
    cbn [mbind option_bind] in Hadd.
    apply updateHeaderData_loads in Hadd as (Hh & Hn & Hd & Hl & _).
    cbn [header pageNumber dirty data set_header set_data set_dirty] in *.
    apply store_length in E1. unfold copy_at in E2. case_decide; [|done].
    injection E2 as <-. rewrite length_inserts in Hl.
    rewrite Hh. cbn [Type_ NumCells set_NumCells set_CellsOffset].
    split_and!; try done. congruence.
  - intros h p p' Hset. unfold SetHeader in Hset.
    apply updateHeaderData_loads in Hset as (Hh & Hn & Hd & Hl & _).
    cbn [header pageNumber dirty data set_header set_dirty] in *. done.
  - intros p dst. unfold CopyTo. cbn [data pageNumber dirty header].
    by rewrite length_inserts.
Qed.

(** X14. [AddCell] does not check that the cell fits. On a page that satisfies
    the page invariant, a cell for which [Fits] answers no, but which is no
    longer than [CellsOffset] and whose pointer still lies inside the buffer,
    is added all the same, and the page no longer satisfies the invariant:
    the cell pointer array and the cell content overlap. *)
Theorem AddCell_unchecked (p : MemPage) (cell : list byte) :
  header_typed p → page_inv p →
  Fits p (len cell) = false →
  len cell ≤ CellsOffset (header p) →
  header_len p + 2 * NumCells (header p) + 2 ≤ len (data p) →
  ∃ p', AddCell p cell = Some p'
    ∧ NumCells (header p') = NumCells (header p) + 1
    ∧ CellsOffset (header p') = CellsOffset (header p) - len cell
    ∧ CellsOffset (header p') < header_len p' + 2 * NumCells (header p')
    ∧ ¬ page_inv p'.
Proof.
  intros [Hn Hco] [Hinv Hsz] Hfits Hcell Hptr.
  unfold Fits in Hfits. apply bool_decide_eq_false in Hfits.
  fold (header_len p) in Hfits.
  pose proof (cellPointersStart_eq (Type_ (header p)) (pageNumber p)) as Hcps.
  fold (header_len p) in Hcps.
  pose proof (headerOffset_nonneg (pageNumber p)) as Hho.
  pose proof (hdr_size_bounds (Type_ (header p))) as Hhs.
  unfold AddCell. simpl. fold (header_len p).
  rewrite (uint16_small (2 * NumCells (header p))) by lia.
  rewrite (uint16_small (len cell)) by lia.
  rewrite (uint16_small (CellsOffset (header p) - len cell)) by lia.
  assert (NumCells (header p) + 1 < 65536) as Hnc by lia.
  rewrite (uint16_small (NumCells (header p) + 1)) by lia.
  unfold PutUint16. rewrite store_Some by (simpl; lia).
  cbn [mbind option_bind]. unfold copy_at.
  rewrite decide_True by (rewrite length_inserts; lia).
  cbn [mbind option_bind].
  set (q := set_header _ _).
  destruct (updateHeaderData_spec q) as (d3 & Hq & _).
  { subst q. cbn [header pageNumber data set_header set_data set_dirty
                  Type_ set_NumCells set_CellsOffset].
    rewrite !length_inserts. lia. }
  rewrite Hq. eexists. split; [reflexivity|].
  subst q. unfold page_inv, header_len.
  cbn [header pageNumber data set_header set_data set_dirty
       Type_ NumCells CellsOffset set_NumCells set_CellsOffset].
  fold (header_len p). split_and!; [done | done | lia | lia].
Qed.

(** A leaf page 2 of 32 bytes with one 10-byte cell, and a 12-byte cell. *)
Lemma AddCell_unchecked_witness :
  let p0 := mkMemPage (NewPageHeader PageTypeLeaf 32) 2 (zeros 32) false in
  let p := default p0 (AddCell p0 (replicate 10 1)) in
  ∃ p', AddCell p (replicate 12 2) = Some p'
    ∧ NumCells (header p') = NumCells (header p) + 1
    ∧ CellsOffset (header p') = CellsOffset (header p) - len (replicate 12 (2 : byte))
    ∧ CellsOffset (header p') < header_len p' + 2 * NumCells (header p')
    ∧ ¬ page_inv p'.
Proof.
  intros p0 p.
  apply (AddCell_unchecked p (replicate 12 2)).
  - vm_compute. repeat split; discriminate.
  - vm_compute. repeat split; discriminate.
  - vm_compute. reflexivity.
  - vm_compute. discriminate.
  - vm_compute. discriminate.
Defined.

Lemma inserts_all (l bs : list byte) :
  length bs = length l → list_inserts 0 bs l = bs.
Proof.
  intros Hlen. rewrite (inserts_tail l bs 0) by lia. done.
Qed.

(** X15. [CopyTo] between buffers of one length whose headers start at the same
    offset (both pages are page 1, or neither is) makes the destination hold
    the cells of the source: the same cell count, and every cell index reads
    the same bytes and the same record. *)
Theorem CopyTo_keeps_cells (p dst : MemPage) (i : Z) :
  length (data dst) = length (data p) →
  (pageNumber p = 1 ↔ pageNumber dst = 1) →
  data (CopyTo p dst) = data p
  ∧ CellCount (CopyTo p dst) = CellCount p
  ∧ cellBytes (CopyTo p dst) i = cellBytes p i
  ∧ ReadRecord (CopyTo p dst) i = ReadRecord p i.
Proof.
  intros Hlen Hone.
  assert (data (CopyTo p dst) = data p) as Hd.
  { unfold CopyTo. cbn [data]. by apply inserts_all. }
  assert (headerOffset (pageNumber dst) = headerOffset (pageNumber p)) as Hho.
  { unfold headerOffset. destruct (decide (pageNumber dst = 1)) as [H1|H1];
      destruct (decide (pageNumber p = 1)) as [H2|H2]; try done; tauto. }
  assert (cellBytes (CopyTo p dst) i = cellBytes p i) as Hc.
  { unfold cellBytes, cellDataOffset. rewrite Hd.
    unfold CopyTo at 1 2. cbn [header pageNumber].
    unfold cellPointersStart. by rewrite Hho. }
  split_and!; try done. unfold ReadRecord. by rewrite Hc.
Qed.

End PageOps.

Section PageOpsWitness.
Import Pager PageSpec.

(** A leaf page 2 holding one cell, copied to an empty page 3. *)
Lemma CopyTo_keeps_cells_witness :
  let p0 := mkMemPage (NewPageHeader PageTypeLeaf 32) 2 (zeros 32) false in
  let p := default p0 (AddCell p0 (replicate 10 1)) in
  let dst := mkMemPage (NewPageHeader PageTypeLeaf 32) 3 (zeros 32) true in
  data (CopyTo p dst) = data p
  ∧ CellCount (CopyTo p dst) = CellCount p
  ∧ cellBytes (CopyTo p dst) 0 = cellBytes p 0
  ∧ ReadRecord (codec := SampleCodec.codec) (CopyTo p dst) 0
    = ReadRecord (codec := SampleCodec.codec) p 0.
Proof.
  intros p0 p dst.
  apply (CopyTo_keeps_cells (codec := SampleCodec.codec) p dst 0).
  - vm_compute. reflexivity.
  - split; vm_compute; discriminate.
Defined.

End PageOpsWitness.
(** ** The pager *)

Section PagerFacts.
Import Storage Pager PageSpec PageFacts PagerSpec.

Lemma FromBytes_fields n bs p :
  FromBytes n bs = Some p → pageNumber p = n ∧ data p = bs ∧ dirty p = false.
Proof.
  unfold FromBytes. intros H.
  repeat match type of H with
         | (?m ≫= _) = Some _ => destruct m; [cbn [mbind option_bind] in H|done]
         end.
  by injection H as <-.
Qed.

Lemma fresh_loc_None (h : gmap loc MemPage) : h !! fresh (dom h) = None.
Proof. apply not_elem_of_dom. apply is_fresh. Qed.

(** A read that succeeds. *)
Lemma Read_Ok_inv (s : pager) (n : Z) (l : loc) (s' : pager) :
  cache_wf s →
  Read n s = Ok l s' →
  1 ≤ n
  ∧ cache_wf s'
  ∧ pageCache s' !! n = Some l
  ∧ (∃ p, pages s' !! l = Some p ∧ Number p = n)
  ∧ Read n s' = Ok l s'
  ∧ pageCount s' = pageCount s
  ∧ (∀ l0 p0, pages s !! l0 = Some p0 → pages s' !! l0 = Some p0)
  ∧ (∀ m l0, pageCache s !! m = Some l0 → pageCache s' !! m = Some l0).
Proof.
  intros Hwf. unfold Read. case_decide as Hn; [done|].
  unfold bind at 1. unfold get at 1.
  destruct (pageCache s !! n) as [l0|] eqn:Hc.
  - intros [= <- <-]. destruct (Hwf _ _ Hc) as (p & Hp & Hnum).
    split_and!; try done; [lia | by exists p |].
    unfold bind, get. by rewrite Hc.
  - unfold bind at 1. unfold on_file, zoom.
    destruct (File_Read n (file s)) as [bs f'|e' f'|]; [|done..].
    unfold bind at 1, must.
    destruct (FromBytes n bs) as [p|] eqn:Hfb; [|done].
    apply FromBytes_fields in Hfb as (Hnum & _ & _).
    unfold ret, bind, new, modify.
    cbn [pages set_file set_pages set_pageCache pageCache].
    intros [= <- <-].
    pose proof (fresh_loc_None (pages s)) as Hfresh.
    set (l := fresh (dom (pages s))) in *.
    set (s' := set_pageCache _ _).
    assert (pageCache s' = <[n:=l]> (pageCache s)) as Hpc by reflexivity.
    assert (pages s' = <[l:=p]> (pages s)) as Hpg by reflexivity.
    assert (pageCount s' = pageCount s) as Hcnt by reflexivity.
    clearbody s'. unfold cache_wf. rewrite Hpc, Hpg.
    split_and!; try done.
    + lia.
    + intros m l1 Hm. destruct (decide (m = n)) as [->|Hne].
      * rewrite lookup_insert_eq in Hm. injection Hm as <-.
        exists p. by rewrite lookup_insert_eq.
      * rewrite lookup_insert_ne in Hm by done.
        destruct (Hwf _ _ Hm) as (q & Hq & Hqn). exists q. split; [|done].
        rewrite lookup_insert_ne; [done|]. intros <-. congruence.
    + apply lookup_insert_eq.
    + exists p. by rewrite lookup_insert_eq.
    + unfold bind, get. rewrite Hpc. by rewrite lookup_insert_eq.
    + intros l0 p0 Hp0. rewrite lookup_insert_ne; [done|]. intros <-. congruence.
    + intros m l0 Hm. rewrite lookup_insert_ne; [done|]. intros <-. congruence.
Qed.

(** X16. [pager.Read]. A page number below 1 is an error that leaves the pager
    as it was, and no failed read touches the cache or the pages. A read
    that succeeds returns a pointer to a page carrying the number asked for,
    which is now cached: the same read again returns the same pointer and
    changes nothing. The pages the pager held are where they were.  *)
Theorem pager_Read_caches (s : pager) (n : Z) :
  cache_wf s →
  (n < 1 → Read n s = Err ErrOutOfBounds s)
  ∧ (∀ e s', Read n s = Err e s' →
       pageCache s' = pageCache s ∧ pages s' = pages s ∧ pageCount s' = pageCount s)
  ∧ (∀ l s', Read n s = Ok l s' →
       1 ≤ n
       ∧ cache_wf s'
       ∧ pageCache s' !! n = Some l
       ∧ (∃ p, pages s' !! l = Some p ∧ Number p = n)
       ∧ Read n s' = Ok l s'
       ∧ pageCount s' = pageCount s
       ∧ (∀ l0 p0, pages s !! l0 = Some p0 → pages s' !! l0 = Some p0)
       ∧ (∀ m l0, pageCache s !! m = Some l0 → pageCache s' !! m = Some l0)).
Proof.
  intros Hwf. split_and!.
  - intros Hn. unfold Read. by rewrite decide_True.
  - intros e s'. unfold Read. case_decide; [by intros [= _ <-]|].
    unfold bind at 1. unfold get at 1.
    destruct (pageCache s !! n) as [l|] eqn:Hc; [done|].
    unfold bind at 1. unfold on_file, zoom.
    destruct (File_Read n (file s)) as [bs f'|e' f'|]; [|by intros [= _ <-]|done].
    unfold bind at 1, must.
    destruct (FromBytes n bs) as [p|]; [|done]. done.
  - intros l s'. by apply Read_Ok_inv.
Qed.




(** The first loop of [Flush]: it reads every visited page, and collects
    the pointers of the dirty ones. *)
Lemma collectDirty_spec visited : ∀ s dp dl s',
  collectDirty visited s = Ok (dp, dl) s' →
  s' = s
  ∧ (∀ k l, (k, l) ∈ visited → is_Some (pages s !! l))
  ∧ (∀ l, l ∈ dl ↔ ∃ k p, (k, l) ∈ visited ∧ pages s !! l = Some p ∧ dirty p = true)
  ∧ Forall2 (fun pg l => ∃ p, pages s !! l = Some p
                           ∧ pg = mkPage (pageNumber p) (data p)) dp dl.
Proof.
  induction visited as [|[k0 l0] visited IH]; intros s dp dl s' Hrun.
  - injection Hrun as <- <- <-. split_and!; [done| | |constructor].
    + by intros k l ?%elem_of_nil.
    + intros l. split; [by intros ?%elem_of_nil|].
      by intros (k & p & ?%elem_of_nil & _).
  - cbn [collectDirty] in Hrun. unfold bind at 1 in Hrun.
    unfold deref, bind, get, must in Hrun.
    destruct (pages s !! l0) as [p0|] eqn:Hp0; [|done].
    unfold ret at 1 in Hrun.
    destruct (collectDirty visited s) as [[dp1 dl1] s1|e s1|] eqn:Hrest; [|done..].
    destruct (IH _ _ _ _ Hrest) as (-> & Hval & Hdl & Hdp).
    destruct (dirty p0) eqn:Hd0; injection Hrun as <- <- <-.
    + split_and!; [done| | |].
      * intros k l [[= -> ->]|Hin]%elem_of_cons; [by rewrite Hp0|by eapply Hval].
      * intros l. rewrite elem_of_cons, Hdl. split.
        -- intros [->|(k & p & Hin & Hp & Hd)].
           ++ exists k0, p0. split_and!; [by left|done|done].
           ++ exists k, p. split_and!; [by right|done|done].
        -- intros (k & p & [[= -> ->]|Hin]%elem_of_cons & Hp & Hd); [by left|].
           right. by exists k, p.
      * constructor; [by exists p0|done].
    + split_and!; [done| | |done].
      * intros k l [[= -> ->]|Hin]%elem_of_cons; [by rewrite Hp0|by eapply Hval].
      * intros l. rewrite Hdl. split.
        -- intros (k & p & Hin & Hp & Hd). exists k, p. split_and!; [by right|done|done].
        -- intros (k & p & [[= -> ->]|Hin]%elem_of_cons & Hp & Hd); [congruence|].
           by exists k, p.
Qed.

(** The last loop of [Flush]. *)
Lemma clearDirty_spec dl : ∀ s s',
  for_each (fun p => on_page p (fun m => Some (set_dirty false m))) dl s = Ok tt s' →
  pageCache s' = pageCache s ∧ file s' = file s ∧ pageCount s' = pageCount s
  ∧ ∀ l, pages s' !! l
         = if decide (l ∈ dl) then set_dirty false <$> pages s !! l else pages s !! l.
Proof.
  induction dl as [|l0 dl IH]; intros s s' Hrun.
  - injection Hrun as <-. split_and!; done.
  - cbn [for_each] in Hrun. unfold bind at 1 in Hrun.
    unfold on_page, deref, bind, get, must, modify in Hrun.
    destruct (pages s !! l0) as [p0|] eqn:Hp0; [|done].
    cbn [ret] in Hrun. unfold ret in Hrun.
    apply IH in Hrun as (Hc & Hf & Hn & Hpg).
    cbn [pageCache file pageCount pages set_pages] in *.
    split_and!; try done. intros l. rewrite Hpg.
    destruct (decide (l = l0)) as [->|Hne].
    + rewrite lookup_insert_eq, Hp0. rewrite (decide_True (P := l0 ∈ l0 :: dl)) by (by left).
      case_decide; done.
    + rewrite lookup_insert_ne by done.
      destruct (decide (l ∈ dl)) as [Hin|Hin].
      * rewrite decide_True by (by right). done.
      * rewrite decide_False; [done|]. by intros [?|?]%elem_of_cons.
Qed.

Lemma set_dirty_clean p : dirty p = false → set_dirty false p = p.
Proof. destruct p. cbn. by intros ->. Qed.

(** X18. After a successful [Flush] the cache is what it was and every cached
    page is clean, its header, number and buffer being what they were; the
    pages that are not cached are untouched. *)
Theorem pager_Flush_cleans
    (s : pager) (r1 r2 : Z) (visited : list (Z * loc)) (s' : pager) :
  cache_visits s visited →
  Flush r1 r2 visited s = Ok tt s' →
  pageCache s' = pageCache s
  ∧ (∀ n l, pageCache s !! n = Some l →
       ∃ p, pages s !! l = Some p ∧ pages s' !! l = Some (set_dirty false p))
  ∧ (∀ l, (∀ n, pageCache s !! n ≠ Some l) → pages s' !! l = pages s !! l).
Proof.
  intros Hvis Hrun. unfold cache_visits in Hvis.
  assert (∀ n l, (n, l) ∈ visited ↔ pageCache s !! n = Some l) as Hmem.
  { intros n l. rewrite Hvis. apply elem_of_map_to_list. }
  unfold Flush in Hrun. unfold bind at 1 in Hrun.
  destruct (collectDirty visited s) as [[dp dl] s0|e s0|] eqn:Hcol; [|done..].
  apply collectDirty_spec in Hcol as (-> & Hval & Hdl & _).
  unfold bind at 1 in Hrun.
  assert (∃ s1, for_each (fun p => on_page p (fun m => Some (set_dirty false m))) dl s1
                = Ok tt s'
                ∧ pageCache s1 = pageCache s ∧ pages s1 = pages s) as (s1 & Hclear & Hc1 & Hp1).
  { destruct (decide (len dp > 0)).
    - unfold bind at 1 in Hrun. unfold on_file, zoom in Hrun.
      destruct (File_Write r1 r2 dp (file s)) as [[] f'|e f'|]; [|done..].
      unfold bind, get, modify in Hrun. eexists. split; [exact Hrun|]. done.
    - exists s. done. }
  apply clearDirty_spec in Hclear as (Hc & _ & _ & Hpg).
  split_and!.
  - congruence.
  - intros n l Hn. destruct (Hval n l) as [p Hp]; [by apply Hmem|].
    exists p. split; [done|]. rewrite Hpg, Hp1, Hp.
    destruct (decide (l ∈ dl)) as [Hin|Hin]; [done|].
    f_equal. symmetry. apply set_dirty_clean.
    destruct (dirty p) eqn:Hd; [|done]. exfalso. apply Hin, Hdl.
    exists n, p. split_and!; [by apply Hmem|done|done].
  - intros l Hl. rewrite Hpg, Hp1. rewrite decide_False; [done|].
    intros (k & p & Hin & _)%Hdl. apply Hmem in Hin. by apply Hl in Hin.
Qed.

Lemma collectDirty_clean visited : ∀ s,
  (∀ k l, (k, l) ∈ visited → ∃ p, pages s !! l = Some p ∧ dirty p = false) →
  collectDirty visited s = Ok ([], []) s.
Proof.
  induction visited as [|[k0 l0] visited IH]; intros s Hclean; [done|].
  cbn [collectDirty]. unfold bind at 1. unfold deref, bind, get, must.
  destruct (Hclean k0 l0) as (p0 & -> & Hd); [by left|].
  unfold ret at 1. rewrite IH; [by rewrite Hd|].
  intros k l Hin. apply (Hclean k l). by right.
Qed.

(** X19. A [Flush] of a pager none of whose cached pages is dirty does nothing:
    it succeeds, writes nothing to the file and leaves the pager as it was. *)
Theorem pager_Flush_clean_noop
    (s : pager) (r1 r2 : Z) (visited : list (Z * loc)) :
  cache_visits s visited →
  (∀ n l, pageCache s !! n = Some l → ∃ p, pages s !! l = Some p ∧ dirty p = false) →
  Flush r1 r2 visited s = Ok tt s.
Proof.
  intros Hvis Hclean. unfold cache_visits in Hvis.
  unfold Flush. unfold bind at 1. rewrite collectDirty_clean.
  - unfold bind. rewrite decide_False by (simpl; lia). done.
  - intros k l Hin. apply (Hclean k). apply elem_of_map_to_list. by rewrite <- Hvis.
Qed.

(** The loop of [Reset]. *)
Lemma reset_loop visited : ∀ s,
  (∀ k l, (k, l) ∈ visited → is_Some (pages s !! l)) →
  ∃ s', for_each (fun '(k, page) =>
          bind (deref page) (fun p =>
            if dirty p
            then modify (fun s => set_pageCache (delete k (pageCache s)) s)
            else ret tt)) visited s = Ok tt s'
    ∧ pages s' = pages s ∧ file s' = file s ∧ pageCount s' = pageCount s
    ∧ (∀ n l p, (n, l) ∈ visited → pages s !! l = Some p → dirty p = true →
         pageCache s' !! n = None)
    ∧ (∀ n, (∀ l p, (n, l) ∈ visited → pages s !! l = Some p → dirty p = false) →
         pageCache s' !! n = pageCache s !! n)
    ∧ (∀ n, pageCache s !! n = None → pageCache s' !! n = None).
Proof.
  induction visited as [|[k0 l0] visited IH]; intros s Hval.
  - exists s. split_and!; try done. by intros n l p ?%elem_of_nil.
  - cbn [for_each]. unfold bind at 1. unfold bind at 1. unfold deref, bind, get, must.
    destruct (Hval k0 l0) as [p0 Hp0]; [by left|]. rewrite Hp0. unfold ret at 1.
    destruct (dirty p0) eqn:Hd0.
    + unfold modify.
      destruct (IH (set_pageCache (delete k0 (pageCache s)) s))
        as (s' & Hrun & Hpg & Hf & Hn & Hdel & Hkeep & Hnone).
      { intros k l Hin. cbn [pages set_pageCache]. apply (Hval k l). by right. }
      cbn [pages file pageCount pageCache set_pageCache] in *.
      exists s'. split_and!; try done.
      * intros n l p [[= -> ->]|Hin]%elem_of_cons Hp Hd.
        -- apply Hnone, lookup_delete_eq.
        -- by apply (Hdel n l p).
      * intros n Hclean. rewrite Hkeep.
        -- apply lookup_delete_ne. intros <-.
           specialize (Hclean l0 p0 ltac:(by left) Hp0). congruence.
        -- intros l p Hin. apply Hclean. by right.
      * intros n Hn0. apply Hnone. apply lookup_delete_None. by right.
    + destruct (IH s) as (s' & Hrun & Hpg & Hf & Hn & Hdel & Hkeep & Hnone).
      { intros k l Hin. apply (Hval k l). by right. }
      exists s'. split_and!; try done.
      * intros n l p [[= -> ->]|Hin]%elem_of_cons Hp Hd; [congruence|].
        by apply (Hdel n l p).
      * intros n Hclean. apply Hkeep. intros l p Hin. apply Hclean. by right.
Qed.

(** X20. [Reset] on a pager whose cache entries point to pages: it succeeds,
    sets the page count to the [TotalPages] of the file, drops from the cache
    exactly the entries of dirty pages and keeps the entries of clean pages;
    the file and the pages themselves are untouched. *)
Theorem pager_Reset (s : pager) (visited : list (Z * loc)) :
  cache_visits s visited →
  cache_wf s →
  ∃ s', Reset visited s = Ok tt s'
    ∧ pageCount s' = File_TotalPages (file s)
    ∧ file s' = file s
    ∧ pages s' = pages s
    ∧ (∀ n l p, pageCache s !! n = Some l → pages s !! l = Some p →
         pageCache s' !! n = if dirty p then None else Some l)
    ∧ (∀ n, pageCache s !! n = None → pageCache s' !! n = None).
Proof.
  intros Hvis Hwf. unfold cache_visits in Hvis.
  assert (∀ n l, (n, l) ∈ visited ↔ pageCache s !! n = Some l) as Hmem.
  { intros n l. rewrite Hvis. apply elem_of_map_to_list. }
  unfold Reset. unfold bind at 1. unfold get at 1. unfold bind at 1. unfold modify at 1.
  destruct (reset_loop visited (set_pageCount (File_TotalPages (file s)) s))
    as (s' & Hrun & Hpg & Hf & Hn & Hdel & Hkeep & _).
  { intros k l Hin%Hmem. destruct (Hwf _ _ Hin) as (p & Hp & _).
    cbn [pages set_pageCount]. by rewrite Hp. }
  cbn [pages file pageCount pageCache set_pageCount] in *.
  exists s'. split; [exact Hrun|]. split_and!; try done.
  - intros n l p Hc Hp. destruct (dirty p) eqn:Hd.
    + apply (Hdel n l p); [by apply Hmem|done|done].
    + rewrite Hkeep; [done|]. intros l1 p1 Hin%Hmem Hp1.
      assert (l1 = l) as -> by congruence. congruence.
  - intros n Hnone. rewrite Hkeep; [done|]. intros l p Hin%Hmem. congruence.
Qed.

End PagerFacts.

Section PagerWitnesses.
Import Storage Pager PageSpec PagerSpec Samples Samples2 Samples3.

Lemma pager_on_wal_wf : cache_wf pager_on_wal.
Proof.
  intros n l H. change (pageCache pager_on_wal) with (∅ : gmap Z loc) in H.
  by rewrite lookup_empty in H.
Qed.

Lemma pager_read_cache : map_to_list (pageCache pager_read) = [(1, 1%positive : loc)].
Proof. vm_compute. reflexivity. Qed.

Lemma pager_one_cache : map_to_list (pageCache pager_one) = [(1, 1%positive : loc)].
Proof. vm_compute. reflexivity. Qed.

Lemma pager_one_wf : cache_wf pager_one.
Proof.
  intros n l H. apply elem_of_map_to_list in H. rewrite pager_one_cache in H.
  apply list_elem_of_singleton in H as [= -> ->].
  eexists. split; vm_compute; reflexivity.
Qed.

(** Page 1 read through the engine's pager. *)
Lemma pager_Read_caches_witness :
  (1 < 1 → Read 1 pager_on_wal = Err ErrOutOfBounds pager_on_wal)
  ∧ (∀ e s', Read 1 pager_on_wal = Err e s' →
       pageCache s' = pageCache pager_on_wal ∧ pages s' = pages pager_on_wal
       ∧ pageCount s' = pageCount pager_on_wal)
  ∧ (∀ l s', Read 1 pager_on_wal = Ok l s' →
       1 ≤ 1
       ∧ cache_wf s'
       ∧ pageCache s' !! 1 = Some l
       ∧ (∃ p, pages s' !! l = Some p ∧ Number p = 1)
       ∧ Read 1 s' = Ok l s'
       ∧ pageCount s' = pageCount pager_on_wal
       ∧ (∀ l0 p0, pages pager_on_wal !! l0 = Some p0 → pages s' !! l0 = Some p0)
       ∧ (∀ m l0, pageCache pager_on_wal !! m = Some l0 → pageCache s' !! m = Some l0)).
Proof. apply (pager_Read_caches pager_on_wal 1), pager_on_wal_wf. Defined.


(** The pager holding the dirty page 1 is flushed. *)
Lemma pager_Flush_cleans_witness :
  let visited := map_to_list (pageCache pager_one) in
  let s' := state_of pager_one (Flush 11 12 visited pager_one) in
  pageCache s' = pageCache pager_one
  ∧ (∀ n l, pageCache pager_one !! n = Some l →
       ∃ p, pages pager_one !! l = Some p ∧ pages s' !! l = Some (set_dirty false p))
  ∧ (∀ l, (∀ n, pageCache pager_one !! n ≠ Some l) → pages s' !! l = pages pager_one !! l).
Proof.
  intros visited s'.
  apply (pager_Flush_cleans pager_one 11 12 visited s').
  - unfold cache_visits. reflexivity.
  - vm_compute. reflexivity.
Defined.

(** The pager holding the clean page 1 is flushed. *)
Lemma pager_Flush_clean_noop_witness :
  Flush 11 12 (map_to_list (pageCache pager_read)) pager_read = Ok tt pager_read.
Proof.
  apply (pager_Flush_clean_noop pager_read 11 12 (map_to_list (pageCache pager_read))).
  - unfold cache_visits. reflexivity.
  - intros n l H. apply elem_of_map_to_list in H. rewrite pager_read_cache in H.
    apply list_elem_of_singleton in H as [= -> ->].
    eexists. split; vm_compute; reflexivity.
Defined.

(** The pager holding the dirty page 1 is reset. *)
Lemma pager_Reset_witness :
  ∃ s', Reset (map_to_list (pageCache pager_one)) pager_one = Ok tt s'
    ∧ pageCount s' = File_TotalPages (file pager_one)
    ∧ file s' = file pager_one
    ∧ pages s' = pages pager_one
    ∧ (∀ n l p, pageCache pager_one !! n = Some l → pages pager_one !! l = Some p →
         pageCache s' !! n = if dirty p then None else Some l)
    ∧ (∀ n, pageCache pager_one !! n = None → pageCache s' !! n = None).
Proof.
  apply (pager_Reset pager_one (map_to_list (pageCache pager_one))).
  - unfold cache_visits. reflexivity.
  - apply pager_one_wf.
Defined.

End PagerWitnesses.
(** ** The table B-tree *)

Section BTreeFacts.
Import Storage Pager PageSpec PageFacts PagerSpec.
Context `{codec : Storage.Codec}.

(** The largest row id seen so far, as the loop of [maxRowID] keeps it. *)
Lemma maxRowIDLoop_spec {St} (p : MemPage) (records : list Storage.Record) :
  ∀ (start acc : Z) (s : St),
  (∀ (i : nat) r, records !! i = Some r →
     ReadRecord p (start + Z.of_nat i) = Some (Some r)) →
  maxRowIDLoop p (seqZ start (len records)) acc s
  = Ok (foldl (fun a r => Z.max a (Storage.RowID r)) acc records) s.
Proof.
  induction records as [|r records IH]; intros start acc s Hread; [done|].
  rewrite length_cons, Nat2Z.inj_succ, seqZ_cons by lia.
  cbn [maxRowIDLoop]. unfold bind at 1.
  pose proof (Hread 0%nat r eq_refl) as H0. rewrite Z.add_0_r in H0.
  rewrite H0. cbn [must]. unfold ret at 1.
  rewrite Z.pred_succ, IH.
  - cbn [foldl]. do 2 f_equal. case_decide; lia.
  - intros i r' Hi. rewrite <- (Hread (S i) r' Hi). f_equal. lia.
Qed.

Lemma foldl_max_records (records : list Storage.Record) : ∀ acc,
  acc ≤ foldl (fun a r => Z.max a (Storage.RowID r)) acc records
  ∧ (∀ r, r ∈ records →
       Storage.RowID r ≤ foldl (fun a r => Z.max a (Storage.RowID r)) acc records)
  ∧ (foldl (fun a r => Z.max a (Storage.RowID r)) acc records = acc
     ∨ ∃ r, r ∈ records
         ∧ foldl (fun a r => Z.max a (Storage.RowID r)) acc records = Storage.RowID r).
Proof.
  induction records as [|q rest IH]; intros acc; cbn [foldl].
  - split_and!; [lia | by intros r ?%elem_of_nil | by left].
  - destruct (IH (Z.max acc (Storage.RowID q))) as (Hge & Hall & Hone). split_and!.
    + lia.
    + intros r [->|Hr]%elem_of_cons; [lia | by apply Hall].
    + destruct Hone as [Heq|(r & Hr & Heq)].
      * rewrite Heq. destruct (Z.max_spec acc (Storage.RowID q)) as [[_ ->]|[_ ->]].
        -- right. exists q. split; [by left|done].
        -- by left.
      * right. exists r. split; [by right|done].
Qed.

(** X21. [maxRowID] on a page all of whose cells decode: it returns, without
    touching any state, a number that is at least the row id of every record
    of the page, and that is the row id of one of them or 0. *)
Theorem maxRowID_is_max {St} (p : MemPage) (records : list Storage.Record) (s : St) :
  CellCount p = len records →
  (∀ (i : nat) r, records !! i = Some r → ReadRecord p (Z.of_nat i) = Some (Some r)) →
  ∃ m, maxRowID p s = Ok m s
    ∧ 0 ≤ m
    ∧ (∀ r, r ∈ records → Storage.RowID r ≤ m)
    ∧ (m = 0 ∨ ∃ r, r ∈ records ∧ m = Storage.RowID r).
Proof.
  intros Hcount Hread. unfold maxRowID. rewrite Hcount.
  rewrite (maxRowIDLoop_spec p records 0 0 s) by done.
  eexists. split; [reflexivity|].
  destruct (foldl_max_records records 0) as (Hge & Hall & Hone). done.
Qed.

(** X22. [Insert] into a table whose root is a leaf page the record fits in:
    the record is added to the root page in place, as its last cell, and the
    root is cached under its number as it was; the file, the page count and
    every other page are what they were after the root had been read. *)
Theorem Insert_into_fitting_leaf
    (b : BTreeTable) (r : Storage.Record) (bytes : list byte)
    (s s1 : pager) (l : loc) (rootPg : MemPage) :
  cache_wf s →
  Storage.Record_Write r = Some bytes →
  Read (rootPage b) s = Ok l s1 →
  pages s1 !! l = Some rootPg →
  Type_ (header rootPg) = PageTypeLeaf →
  header_typed rootPg →
  page_inv rootPg →
  Fits rootPg (len bytes) = true →
  ∃ rootPg' s',
    Insert b r s = Ok tt s'
    ∧ AddCell rootPg bytes = Some rootPg'
    ∧ pages s' = <[l := rootPg']> (pages s1)
    ∧ pageCache s' = pageCache s1
    ∧ file s' = file s1
    ∧ pageCount s' = pageCount s1
    ∧ cache_wf s'
    ∧ dirty rootPg' = true
    ∧ CellCount rootPg' = CellCount rootPg + 1
    ∧ cellDataOffset rootPg' (CellCount rootPg)
      = Some (CellsOffset (header rootPg) - len bytes)
    ∧ load (data rootPg') (CellsOffset (header rootPg) - len bytes) (len bytes)
      = Some bytes.
Proof.
  intros Hwf Hw Hr Hp Hleaf [Hnc Hco] [Hinv Hsz] Hfits.
  destruct (Read_Ok_inv _ _ _ _ Hwf Hr)
    as (_ & Hwf1 & Hc1 & (p1 & Hp1 & Hnum) & _).
  assert (p1 = rootPg) as -> by congruence.
  destruct (AddCell_spec rootPg bytes)
    as (rootPg' & Hadd & Hh & Hn' & Hd' & Hlen & Hptr & Hcell & _); [lia..|done|].
  exists rootPg'.
  unfold Insert. rewrite Hw. unfold bind at 1. unfold ret at 1.
  unfold bind at 1. rewrite Hr. unfold bind at 1.
  unfold deref at 1. unfold bind at 1. unfold get at 1. rewrite Hp. cbn [must].
  unfold ret at 1.
  rewrite decide_True by done. rewrite Hfits. cbn [negb].
  unfold bind at 1. unfold on_page, deref, bind, get, must, modify.
  rewrite Hp. unfold ret at 1. rewrite Hadd. unfold ret at 1.
  cbn [Write for_each]. unfold deref. unfold bind, get, must, modify.
  cbn [pages set_pages]. rewrite lookup_insert_eq. unfold ret.
  cbn [pages pageCache set_pages set_pageCache].
  assert (Number rootPg' = rootPage b) as Hnum'.
  { unfold Number in *. congruence. }
  rewrite Hnum', (insert_id (pageCache s1)) by done.
  eexists. split; [reflexivity|].
  cbn [pages pageCache file pageCount set_pages set_pageCache].
  split_and!; try done.
  - intros m l1 Hm. cbn [pages pageCache set_pages set_pageCache] in *.
    destruct (Hwf1 _ _ Hm) as (q & Hq & Hqn).
    destruct (decide (l1 = l)) as [->|Hne].
    + exists rootPg'. rewrite lookup_insert_eq. split; [done|].
      assert (q = rootPg) as -> by congruence. unfold Number in *. congruence.
    + exists q. by rewrite lookup_insert_ne.
  - unfold CellCount. rewrite Hh. reflexivity.
  - unfold cellDataOffset. rewrite Hh, Hn'.
    cbn [Type_ set_NumCells set_CellsOffset]. exact Hptr.
Qed.

(** X23. The errors of [Insert]. An error of the record codec is returned
    before anything is read; an error of the read of the root is returned as
    it is; a root that is neither a leaf nor an interior table page is the
    unsupported-page-type error; an interior root whose right-most page does
    not take the record, and which has no room for one more 8-byte cell
    itself, is the error saying that interior pages are not split. In none
    of these cases is a page modified. *)
Theorem Insert_errors (b : BTreeTable) (r : Storage.Record) (s : pager) :
  (Storage.Record_Write r = None → Insert b r s = Err ErrCodec s)
  ∧ (∀ bytes e s1, Storage.Record_Write r = Some bytes →
       Read (rootPage b) s = Err e s1 → Insert b r s = Err e s1)
  ∧ (∀ bytes l s1 pg, Storage.Record_Write r = Some bytes →
       Read (rootPage b) s = Ok l s1 → pages s1 !! l = Some pg →
       Type_ (header pg) ≠ PageTypeLeaf → Type_ (header pg) ≠ PageTypeInternal →
       Insert b r s = Err ErrUnsupportedPageType s1)
  ∧ (∀ bytes l s1 pg l2 s2 dest pg2 m, Storage.Record_Write r = Some bytes →
       Read (rootPage b) s = Ok l s1 → pages s1 !! l = Some pg →
       Type_ (header pg) = PageTypeInternal →
       Read (RightPage (header pg)) s1 = Ok l2 s2 → pages s2 !! l2 = Some dest →
       Fits dest (len bytes) = false →
       maxRowID dest s2 = Ok m s2 →
       pages s2 !! l = Some pg2 →
       Fits pg2 Storage.InteriorNode.InteriorNodeSize = false →
       Insert b r s = Err ErrInteriorSplit s2).
Proof.
  split_and!.
  - intros Hw. unfold Insert. rewrite Hw. reflexivity.
  - intros bytes e s1 Hw Hr. unfold Insert. rewrite Hw.
    unfold bind at 1. unfold ret at 1. unfold bind at 1. by rewrite Hr.
  - intros bytes l s1 pg Hw Hr Hp Hnl Hni. unfold Insert. rewrite Hw.
    unfold bind at 1. unfold ret at 1. unfold bind at 1. rewrite Hr.
    unfold bind at 1. unfold deref at 1. unfold bind at 1. unfold get at 1.
    rewrite Hp. cbn [must]. unfold ret at 1.
    rewrite !decide_False by done. reflexivity.
  - intros bytes l s1 pg l2 s2 dest pg2 m Hw Hr Hp Hint Hr2 Hp2 Hfits Hmax Hpg2 Hfits2.
    assert (Type_ (header pg) ≠ PageTypeLeaf) as Hnl by (rewrite Hint; done).
    unfold Insert. rewrite Hw.
    unfold bind at 1. unfold ret at 1. unfold bind at 1. rewrite Hr.
    unfold bind at 1. unfold deref at 1. unfold bind at 1. unfold get at 1.
    rewrite Hp. cbn [must]. unfold ret at 1.
    rewrite decide_False by done. rewrite decide_True by done.
    unfold bind at 1. rewrite Hr2.
    unfold bind at 1. unfold deref at 1. unfold bind at 1. unfold get at 1.
    rewrite Hp2. cbn [must]. unfold ret at 1.
    rewrite Hfits. cbn [negb].
    unfold bind at 1. rewrite Hmax.
    unfold bind at 1. unfold deref at 1. unfold bind at 1. unfold get at 1.
    rewrite Hpg2. cbn [must]. unfold ret at 1.
    rewrite Hfits2. reflexivity.
Qed.

(** *** The split of a leaf root *)

Lemma deref_eq (s : pager) (l : loc) (p : MemPage) :
  pages s !! l = Some p → deref l s = Ok p s.
Proof. intros Hp. unfold deref, bind, get, must. by rewrite Hp. Qed.

Lemma on_page_fields (s : pager) (l : loc) (f : MemPage → option MemPage) p p' :
  pages s !! l = Some p → f p = Some p' →
  ∃ s', on_page l f s = Ok tt s'
    ∧ pages s' = <[l := p']> (pages s)
    ∧ pageCache s' = pageCache s ∧ pageCount s' = pageCount s ∧ file s' = file s.
Proof.
  intros Hp Hf. unfold on_page. unfold bind at 1. rewrite (deref_eq _ _ _ Hp).
  unfold bind, must, modify. rewrite Hf. unfold ret. eexists. split; [reflexivity|].
  done.
Qed.


Lemma Write_step (s : pager) (l : loc) (rest : list loc) (p : MemPage) :
  pages s !! l = Some p →
  ∃ s', Write (l :: rest) s = Write rest s'
    ∧ pages s' = pages s
    ∧ pageCache s' = <[Number p := l]> (pageCache s)
    ∧ pageCount s' = pageCount s ∧ file s' = file s.
Proof.
  intros Hp. unfold Write. cbn [for_each]. unfold bind at 1. unfold bind at 1.
  rewrite (deref_eq _ _ _ Hp). unfold modify. eexists. split; [reflexivity|]. done.
Qed.





(** X26. [Insert] into a table whose root is an interior page: the record goes
    to the page the right-most pointer of the root names, whatever the type of
    that page is, when it fits there. That page is modified in place by one
    [AddCell], the record being its last cell; the cache, the page count and
    the file are as the two reads left them, and so is every other page. *)
Theorem Insert_into_rightmost_child
    (b : BTreeTable) (r : Storage.Record) (bytes : list byte)
    (s s1 s2 : pager) (l l2 : loc) (rootPg dest : MemPage) :
  cache_wf s →
  Storage.Record_Write r = Some bytes →
  Read (rootPage b) s = Ok l s1 →
  pages s1 !! l = Some rootPg →
  Type_ (header rootPg) = PageTypeInternal →
  Read (RightPage (header rootPg)) s1 = Ok l2 s2 →
  pages s2 !! l2 = Some dest →
  header_typed dest →
  page_inv dest →
  Fits dest (len bytes) = true →
  ∃ dest' s',
    Insert b r s = Ok tt s'
    ∧ AddCell dest bytes = Some dest'
    ∧ pages s' = <[l2 := dest']> (pages s2)
    ∧ pageCache s' = pageCache s2
    ∧ file s' = file s2
    ∧ pageCount s' = pageCount s2
    ∧ Number dest' = RightPage (header rootPg)
    ∧ dirty dest' = true
    ∧ CellCount dest' = CellCount dest + 1
    ∧ cellDataOffset dest' (CellCount dest) = Some (CellsOffset (header dest) - len bytes)
    ∧ load (data dest') (CellsOffset (header dest) - len bytes) (len bytes) = Some bytes.
Proof.
  intros Hwf Hw Hr Hp Hint Hr2 Hp2 [Hnc Hco] [Hinv Hsz] Hfits.
  destruct (Read_Ok_inv _ _ _ _ Hwf Hr) as (_ & Hwf1 & _).
  destruct (Read_Ok_inv _ _ _ _ Hwf1 Hr2)
    as (_ & Hwf2 & Hc2 & (p2 & Hp2' & Hnum) & _).
  assert (p2 = dest) as -> by congruence.
  destruct (AddCell_spec dest bytes)
    as (dest' & Hadd & Hh & Hn' & Hd' & Hlen & Hptr & Hcell & _); [lia..|done|].
  destruct (on_page_fields s2 l2 (fun pg => AddCell pg bytes) dest dest')
    as (s3 & Hrun3 & Hpg3 & Hc3 & Hn3 & Hf3); [done|done|].
  destruct (Write_step s3 l2 [] dest') as (s4 & Hrun4 & Hpg4 & Hc4 & Hn4 & Hf4).
  { by rewrite Hpg3, lookup_insert_eq. }
  assert (Number dest' = RightPage (header rootPg)) as Hnum'.
  { unfold Number in *. congruence. }
  assert (Type_ (header rootPg) ≠ PageTypeLeaf) as Hnl by (rewrite Hint; done).
  exists dest', s4. split.
  { unfold Insert. rewrite Hw. unfold bind at 1. unfold ret at 1.
    unfold bind at 1. rewrite Hr. unfold bind at 1. rewrite (deref_eq _ _ _ Hp).
    rewrite decide_False by done. rewrite decide_True by done.
    unfold bind at 1. rewrite Hr2. unfold bind at 1. rewrite (deref_eq _ _ _ Hp2).
    rewrite Hfits. cbn [negb].
    unfold bind at 1. rewrite Hrun3. rewrite Hrun4. reflexivity. }
  split_and!; try done.
  - by rewrite Hpg4.
  - rewrite Hc4, Hc3, Hnum'. by apply insert_id.
  - congruence.
  - congruence.
  - unfold CellCount. rewrite Hh. reflexivity.
  - unfold cellDataOffset. rewrite Hh, Hn'.
    cbn [Type_ set_NumCells set_CellsOffset]. exact Hptr.
Qed.

End BTreeFacts.

Section BTreeWitnesses.
Import Storage Pager PageSpec PagerSpec Samples Samples2 Samples3.

(** A leaf page 2 of 64 bytes holding the records 5 and 9. *)
Lemma maxRowID_is_max_witness :
  let r1 := SampleCodec.mk 5 [1] in
  let r2 := SampleCodec.mk 9 [2; 3] in
  let p0 := mkMemPage (NewPageHeader PageTypeLeaf 64) 2 (zeros 64) false in
  let p1 := default p0 (AddCell p0 (default [] (SampleCodec.write r1))) in
  let p := default p0 (AddCell p1 (default [] (SampleCodec.write r2))) in
  ∃ m, maxRowID (codec := SampleCodec.codec) p tt = Ok m tt
    ∧ 0 ≤ m
    ∧ (∀ r, r ∈ [r1; r2] → SampleCodec.rowID r ≤ m)
    ∧ (m = 0 ∨ ∃ r, r ∈ [r1; r2] ∧ m = SampleCodec.rowID r).
Proof.
  intros r1 r2 p0 p1 p.
  apply (maxRowID_is_max (codec := SampleCodec.codec) p [r1; r2] tt).
  - vm_compute. reflexivity.
  - intros [|[|i]] r H; [| |done]; injection H as <-; vm_compute; reflexivity.
Defined.

(** One record inserted through the engine's pager into the table rooted at
    page 1. *)
Lemma Insert_into_fitting_leaf_witness :
  let r := SampleCodec.mk 1 [1; 2; 3] in
  let bytes := default [] (SampleCodec.write r) in
  let p0 := mkMemPage (NewPageHeader PageTypeLeaf 0) 0 [] false in
  let rootPg := default p0 (pages pager_read !! 1%positive) in
  ∃ rootPg' s',
    Insert (codec := SampleCodec.codec) (mkBTreeTable 1) r pager_on_wal = Ok tt s'
    ∧ AddCell rootPg bytes = Some rootPg'
    ∧ pages s' = <[1%positive := rootPg']> (pages pager_read)
    ∧ pageCache s' = pageCache pager_read
    ∧ file s' = file pager_read
    ∧ pageCount s' = pageCount pager_read
    ∧ cache_wf s'
    ∧ dirty rootPg' = true
    ∧ CellCount rootPg' = CellCount rootPg + 1
    ∧ cellDataOffset rootPg' (CellCount rootPg)
      = Some (CellsOffset (header rootPg) - len bytes)
    ∧ load (data rootPg') (CellsOffset (header rootPg) - len bytes) (len bytes)
      = Some bytes.
Proof.
  intros r bytes p0 rootPg.
  apply (Insert_into_fitting_leaf (codec := SampleCodec.codec)
           (mkBTreeTable 1) r bytes pager_on_wal pager_read 1%positive rootPg).
  - apply pager_on_wal_wf.
  - vm_compute. reflexivity.
  - vm_compute. reflexivity.
  - vm_compute. reflexivity.
  - vm_compute. reflexivity.
  - vm_compute. repeat split; discriminate.
  - vm_compute. repeat split; discriminate.
  - vm_compute. reflexivity.
Defined.



Lemma pager_split_cache :
  map_to_list (pageCache pager_split)
  = [(3, 2%positive : loc); (4, 3%positive : loc); (2, 1%positive : loc)].
Proof. vm_compute. reflexivity. Qed.

Lemma pager_split_wf : cache_wf pager_split.
Proof.
  intros n l H. apply elem_of_map_to_list in H. rewrite pager_split_cache in H.
  repeat (apply elem_of_cons in H as [[= -> ->]|H];
          [eexists; split; vm_compute; reflexivity|]).
  by apply elem_of_nil in H.
Qed.

(** A second record inserted after the split: the root, page 2, is an
    interior page whose right-most pointer names page 4. *)
Lemma Insert_into_rightmost_child_witness :
  let r := SampleCodec.mk 10 [5] in
  let bytes := default [] (SampleCodec.write r) in
  let rootPg := default leaf_two (pages pager_split !! 1%positive) in
  let dest := default leaf_two (pages pager_split !! 3%positive) in
  ∃ dest' s',
    Insert (codec := SampleCodec.codec) (mkBTreeTable 2) r pager_split = Ok tt s'
    ∧ AddCell dest bytes = Some dest'
    ∧ pages s' = <[3%positive := dest']> (pages pager_split)
    ∧ pageCache s' = pageCache pager_split
    ∧ file s' = file pager_split
    ∧ pageCount s' = pageCount pager_split
    ∧ Number dest' = RightPage (header rootPg)
    ∧ dirty dest' = true
    ∧ CellCount dest' = CellCount dest + 1
    ∧ cellDataOffset dest' (CellCount dest) = Some (CellsOffset (header dest) - len bytes)
    ∧ load (data dest') (CellsOffset (header dest) - len bytes) (len bytes) = Some bytes.
Proof.
  intros r bytes rootPg dest.
  apply (Insert_into_rightmost_child (codec := SampleCodec.codec)
           (mkBTreeTable 2) r bytes pager_split pager_split pager_split
           1%positive 3%positive rootPg dest).
  - apply pager_split_wf.
  - vm_compute. reflexivity.
  - vm_compute. reflexivity.
  - vm_compute. reflexivity.
  - vm_compute. reflexivity.
  - vm_compute. reflexivity.
  - vm_compute. reflexivity.
  - vm_compute. repeat split; discriminate.
  - vm_compute. repeat split; discriminate.
  - vm_compute. reflexivity.
Defined.

End BTreeWitnesses.
(** ** The engine: starting on an empty data directory *)

Section EngineFacts.
Import Storage StorageSpec Samples.
Import PageSpec PageFacts HeaderSpec PagerSpec.







End EngineFacts.
